(** * Transport normalisation layer of the MoleculerJS boilerplate

    A shallow embedding of

    - [src/infrastructure/transports/serverless.ts] (the serverless adapter),
    - [src/infrastructure/transports/queue.ts] (the Redis queue consumer),
    - [src/molecular.config.ts] (the retry and circuit-breaker predicates),
    - [src/types/index.ts] (the domain error classes and the envelope),
    - [src/infrastructure/repositories/base.repository.ts] (the in-memory
      repository),
    - the sample entity, the use cases, the application service and the
      configuration readers,

    followed by the properties proved about them.

    The TypeScript code works on values of type [any]; the embedding keeps
    them as an untyped tree of data with the coercions the code relies on
    (truthiness, property access, conversion to a string and to a number),
    each with the exceptions it can throw. *)

From Stdlib Require Import ZArith String Ascii List Bool Lia DecimalString DecimalNat.
Import ListNotations.
Open Scope string_scope.
Set Warnings "-register-all".

(* ===================================================================== *)
(** * The value model *)
(* ===================================================================== *)

Module Js.

(** Values of type [any] that are data: what an event, a message, a
    parameter object or an error holds.  Numbers are the integer-valued
    Numbers and [NaN] ([JNum z] for a [z] that is a binary64 value; every
    integer below 2^53 in magnitude is one); strings are sequences of code
    units below 256; an object is the list of its own properties; where a
    key occurs twice the later occurrence counts, as in an object literal
    [{...a, ...b, k: v}] (see [object]).  Data holds no function: a
    property of an object is never callable.  The functions of
    [Object.prototype], which indexing an object literal with a computed
    key can yield, are kept apart in [Member]. *)
Inductive JsValue : Type :=
| JUndefined
| JNull
| JBool (b : bool)
| JNum (z : Z)
| JNaN
| JStr (s : string)
| JArr (elems : list JsValue)
| JObj (props : list (string * JsValue)).

(** Completion of an evaluation: a value, or a thrown value. *)
Inductive Completion (A : Type) : Type :=
| Normal (a : A)
| Throw (e : JsValue).
Arguments Normal {A} a.
Arguments Throw {A} e.

Definition bind {A B} (c : Completion A) (k : A -> Completion B) : Completion B :=
  match c with
  | Normal a => k a
  | Throw e => Throw e
  end.

(** [try { c } catch (e) { h e }] *)
Definition try_catch {A} (c : Completion A) (h : JsValue -> Completion A) : Completion A :=
  match c with
  | Normal a => Normal a
  | Throw e => h e
  end.

Declare Scope js_scope.
Delimit Scope js_scope with js.
Notation "x <- c ;; k" := (bind c (fun x => k))
  (at level 61, c at next level, right associativity) : js_scope.
Open Scope js_scope.

(** ** Strings *)

Definition newline : string := String (ascii_of_nat 10) "".
Definition dquote : string := String (ascii_of_nat 34) "".

Definition string_of_nat (n : nat) : string := NilZero.string_of_uint (Nat.to_uint n).
Definition string_of_Z (z : Z) : string := NilZero.string_of_int (Z.to_int z).

(** A property key is an array index when it is the canonical decimal
    spelling of a natural number below 2^32 - 1. *)
Definition index_of_key (k : string) : option nat :=
  match NilEmpty.uint_of_string k with
  | Some u => let n := N.of_uint u in
              if N.ltb n 4294967295 && String.eqb (string_of_nat (N.to_nat n)) k
              then Some (N.to_nat n)
              else None
  | None => None
  end.

(** ** [Number::toString] on the integer-valued Numbers *)

(** The Number nearest to a natural number: 53 significant bits, a tie
    goes to the even significand. *)
Definition round_double (v : Z) : Z :=
  let bits := (Z.log2 v + 1)%Z in
  if (bits <=? 53)%Z then v
  else
    let sh := (bits - 53)%Z in
    let q := Z.shiftr v sh in
    let r := (v - Z.shiftl q sh)%Z in
    let half := Z.shiftl 1 (sh - 1) in
    let q' := if (half <? r)%Z || ((r =? half)%Z && Z.odd q) then (q + 1)%Z else q in
    Z.shiftl q' sh.

(** The decimal with the fewest significant digits that reads back as
    [x]: multiples of [10^p] are tried for [p] counting down; of the two
    next to [x] the nearer one is taken, and the one with the even digit
    when they are equally near. *)
Fixpoint shortest (fuel : nat) (p : Z) (x : Z) : Z :=
  match fuel with
  | O => x
  | S f =>
      let unit := (10 ^ p)%Z in
      let lo := (x / unit * unit)%Z in
      let hi := (lo + unit)%Z in
      let ok_lo := (round_double lo =? x)%Z in
      let ok_hi := (round_double hi =? x)%Z in
      if ok_lo && ok_hi then
        match (x - lo ?= hi - x)%Z with
        | Lt => lo
        | Gt => hi
        | Eq => if Z.even (x / unit) then lo else hi
        end
      else if ok_lo then lo
      else if ok_hi then hi
      else shortest f (p - 1) x
  end.

Fixpoint strip_zeros (digits : list ascii) : list ascii :=
  match digits with
  | [] => []
  | c :: rest =>
      match strip_zeros rest with
      | [] => if Ascii.eqb c "0"%char then [] else [c]
      | kept => c :: kept
      end
  end.

(** A natural number of up to 21 digits is written out; a longer one is
    written as [d.ddde+n]. *)
Definition decimal_or_exponent (v : Z) : string :=
  let text := list_ascii_of_string (string_of_Z v) in
  let n := List.length text in
  if Nat.leb n 21 then string_of_Z v
  else
    match strip_zeros text with
    | [] => "0"
    | [c] => String c ("e+" ++ string_of_nat (n - 1))
    | c :: more =>
        String c ("." ++ string_of_list_ascii more ++ "e+" ++ string_of_nat (n - 1))
    end.

Definition Number_toString (z : Z) : string :=
  if (Z.abs z <? 2 ^ 53)%Z then string_of_Z z
  else
    let x := Z.abs z in
    let n := String.length (string_of_Z x) in
    (if (z <? 0)%Z then "-" else "")
      ++ decimal_or_exponent (shortest n (Z.of_nat n - 1) x).

Fixpoint chars (s : string) : list string :=
  match s with
  | EmptyString => []
  | String c rest => String c "" :: chars rest
  end.

(** ** Errors raised by the runtime *)

Definition mkError (name msg : string) : JsValue :=
  JObj [ ("stack", JStr (name ++ ": " ++ msg ++ newline ++ "    at <anonymous>"));
         ("message", JStr msg);
         ("name", JStr name) ].

Definition TypeError (msg : string) : JsValue := mkError "TypeError" msg.
Definition SyntaxError (msg : string) : JsValue := mkError "SyntaxError" msg.

(** [new Error(msg)] *)
Definition Error (msg : string) : JsValue :=
  JObj [ ("stack", JStr ("Error: " ++ msg ++ newline ++ "    at <anonymous>"));
         ("message", JStr msg) ].

(** ** Truthiness ([ToBoolean]) *)

Definition truthy (v : JsValue) : bool :=
  match v with
  | JUndefined | JNull | JNaN => false
  | JBool b => b
  | JNum z => negb (Z.eqb z 0)
  | JStr s => negb (String.eqb s "")
  | JArr _ | JObj _ => true
  end.

(** [a || b] on values. *)
Definition or_else (a b : JsValue) : JsValue := if truthy a then a else b.

(** ** Properties *)

(** The value a key is bound to: the last definition wins. *)
Fixpoint lookup {X : Type} (k : string) (ps : list (string * X)) : option X :=
  match ps with
  | [] => None
  | (k', v) :: rest =>
      match lookup k rest with
      | Some w => Some w
      | None => if String.eqb k k' then Some v else None
      end
  end.

Definition from_option (o : option JsValue) : JsValue :=
  match o with Some v => v | None => JUndefined end.

(** [HasOwnProperty(v, k)], the answer of the method of
    [Object.prototype], for a value that is not [null] or [undefined]. *)
Definition HasOwnProperty (v : JsValue) (k : string) : bool :=
  match v with
  | JObj ps => match lookup k ps with Some _ => true | None => false end
  | JArr xs => if String.eqb k "length" then true
               else match index_of_key k with
                    | Some i => Nat.ltb i (List.length xs)
                    | None => false
                    end
  | JStr s => if String.eqb k "length" then true
              else match index_of_key k with
                   | Some i => Nat.ltb i (String.length s)
                   | None => false
                   end
  | _ => false
  end.

(** [v.k], for the data keys the transports read.  Reading a property of
    [null] or [undefined] throws. *)
Definition get (v : JsValue) (k : string) : Completion JsValue :=
  match v with
  | JUndefined =>
      Throw (TypeError ("Cannot read properties of undefined (reading '" ++ k ++ "')"))
  | JNull =>
      Throw (TypeError ("Cannot read properties of null (reading '" ++ k ++ "')"))
  | JObj ps => Normal (from_option (lookup k ps))
  | JArr xs =>
      if String.eqb k "length" then Normal (JNum (Z.of_nat (List.length xs)))
      else match index_of_key k with
           | Some i => Normal (nth i xs JUndefined)
           | None => Normal JUndefined
           end
  | JStr s =>
      if String.eqb k "length" then Normal (JNum (Z.of_nat (String.length s)))
      else match index_of_key k with
           | Some i => Normal (match String.get i s with
                               | Some c => JStr (String c "")
                               | None => JUndefined
                               end)
           | None => Normal JUndefined
           end
  | JBool _ | JNum _ | JNaN => Normal JUndefined
  end.

(** [v?.k] *)
Definition get_opt (v : JsValue) (k : string) : JsValue :=
  match v with
  | JUndefined | JNull => JUndefined
  | _ => match get v k with Normal w => w | Throw _ => JUndefined end
  end.

(** [v[i]] for a numeric literal [i]. *)
Definition get_index (v : JsValue) (i : nat) : Completion JsValue :=
  get v (string_of_nat i).

(** The own enumerable properties [{...v}] copies, in definition order. *)
Fixpoint indexed (i : nat) (xs : list JsValue) : list (string * JsValue) :=
  match xs with
  | [] => []
  | x :: rest => (string_of_nat i, x) :: indexed (S i) rest
  end.

Definition spread (v : JsValue) : list (string * JsValue) :=
  match v with
  | JObj ps => ps
  | JArr xs => indexed 0 xs
  | JStr s => indexed 0 (map JStr (chars s))
  | _ => []
  end.

(** [v.hasOwnProperty(k)], the method call.  An own property named
    [hasOwnProperty] shadows the method of [Object.prototype]; it is data,
    and calling it throws. *)
Definition hasOwnProperty (v : JsValue) (k : string) : Completion JsValue :=
  match v with
  | JUndefined =>
      Throw (TypeError "Cannot read properties of undefined (reading 'hasOwnProperty')")
  | JNull =>
      Throw (TypeError "Cannot read properties of null (reading 'hasOwnProperty')")
  | JObj ps =>
      match lookup "hasOwnProperty" ps with
      | Some _ => Throw (TypeError "err.hasOwnProperty is not a function")
      | None => Normal (JBool (HasOwnProperty v k))
      end
  | _ => Normal (JBool (HasOwnProperty v k))
  end.

(** ** String conversion ([ToString]), as a template literal and a
    computed key apply it

    An object is converted by the [toString] it finds, then by its
    [valueOf].  Without an own [toString] that is the method of
    [Object.prototype]; an own [toString] is data and cannot be called,
    no [valueOf] gives a primitive then (an own one is data, the one of
    [Object.prototype] returns the object), and the conversion throws.
    An array is joined from the conversions of its elements. *)
Fixpoint ToString (v : JsValue) : Completion string :=
  match v with
  | JUndefined => Normal "undefined"
  | JNull => Normal "null"
  | JBool true => Normal "true"
  | JBool false => Normal "false"
  | JNum z => Normal (Number_toString z)
  | JNaN => Normal "NaN"
  | JStr s => Normal s
  | JArr xs =>
      parts <- (fix each (l : list JsValue) : Completion (list string) :=
                  match l with
                  | [] => Normal []
                  | x :: rest =>
                      s <- match x with
                           | JUndefined | JNull => Normal ""
                           | _ => ToString x
                           end ;;
                      more <- each rest ;;
                      Normal (s :: more)
                  end) xs ;;
      Normal (String.concat "," parts)
  | JObj ps =>
      match lookup "toString" ps with
      | None => Normal "[object Object]"
      | Some _ => Throw (TypeError "Cannot convert object to primitive value")
      end
  end.

(** ** The keys of [Object.prototype]

    An object literal indexed with a computed key also answers for the
    keys it inherits, most of them with a built-in function. *)
Inductive Member : Type :=
| Data (v : JsValue)
| Native (name : string).

Coercion Data : JsValue >-> Member.

Definition object_prototype_functions : list string :=
  [ "constructor"; "hasOwnProperty"; "isPrototypeOf"; "propertyIsEnumerable";
    "toLocaleString"; "toString"; "valueOf";
    "__defineGetter__"; "__defineSetter__"; "__lookupGetter__"; "__lookupSetter__" ].

Definition inherited (k : string) : Member :=
  if String.eqb k "__proto__" then Data (JObj [])
  else if String.eqb k "constructor" then Native "Object"
  else if existsb (String.eqb k) object_prototype_functions then Native k
  else Data JUndefined.

(** [literal[key]] for an object literal [literal]. *)
Definition get_computed (literal : list (string * JsValue)) (key : JsValue)
  : Completion Member :=
  k <- ToString key ;;
  Normal (match lookup k literal with
          | Some v => Data v
          | None => inherited k
          end).

(** [m || d] *)
Definition member_or (m : Member) (d : JsValue) : Member :=
  match m with
  | Data v => Data (or_else v d)
  | Native _ => m
  end.

(** [ToString] of a member: a built-in function gives its source text. *)
Definition Member_ToString (m : Member) : Completion string :=
  match m with
  | Data v => ToString v
  | Native n => Normal ("function " ++ n ++ "() { [native code] }")
  end.

(** ** Enumeration order of own properties

    Index-like keys come first in ascending order, the other keys follow
    in the order of their first definition; each key carries the value of
    its last definition. *)
Fixpoint dedupe (seen : list string) (ks : list string) : list string :=
  match ks with
  | [] => []
  | k :: rest =>
      if existsb (String.eqb k) seen then dedupe seen rest
      else k :: dedupe (k :: seen) rest
  end.

Fixpoint insert_sorted (n : nat) (l : list nat) : list nat :=
  match l with
  | [] => [n]
  | m :: rest => if Nat.leb n m then n :: l else m :: insert_sorted n rest
  end.

Definition sort_indices (l : list nat) : list nat := fold_right insert_sorted [] l.

Definition index_keys (ks : list string) : list nat :=
  flat_map (fun k => match index_of_key k with Some n => [n] | None => [] end) ks.

Definition is_index_key (k : string) : bool :=
  match index_of_key k with Some _ => true | None => false end.

Definition own_keys {X : Type} (ps : list (string * X)) : list string :=
  let ks := dedupe [] (map fst ps) in
  map string_of_nat (sort_indices (index_keys ks))
    ++ filter (fun k => negb (is_index_key k)) ks.

Definition own_entries {X : Type} (ps : list (string * X)) : list (string * X) :=
  flat_map (fun k => match lookup k ps with Some v => [(k, v)] | None => [] end)
           (own_keys ps).

(** The object an object literal with these property definitions
    evaluates to. *)
Definition object (defs : list (string * JsValue)) : JsValue :=
  JObj (own_entries defs).

(** ** [JSON.stringify] and [Buffer.byteLength] *)

Definition hex_digit (n : nat) : ascii :=
  if Nat.ltb n 10 then ascii_of_nat (48 + n) else ascii_of_nat (87 + n).

Definition escape_char (c : ascii) : string :=
  let n := nat_of_ascii c in
  if Nat.eqb n 34 then "\" ++ dquote
  else if Nat.eqb n 92 then "\\"
  else if Nat.eqb n 8 then "\b"
  else if Nat.eqb n 9 then "\t"
  else if Nat.eqb n 10 then "\n"
  else if Nat.eqb n 12 then "\f"
  else if Nat.eqb n 13 then "\r"
  else if Nat.ltb n 32 then
    "\u00" ++ String (hex_digit (n / 16)) (String (hex_digit (n mod 16)) "")
  else String c "".

Fixpoint escape (s : string) : string :=
  match s with
  | EmptyString => ""
  | String c rest => escape_char c ++ escape rest
  end.

Definition quote (s : string) : string := dquote ++ escape s ++ dquote.

Definition render_member (m : string * option string) : list string :=
  match m with
  | (k, Some t) => [quote k ++ ":" ++ t]
  | (_, None) => []
  end.

(** [None] is the result [undefined]. *)
Fixpoint stringify (v : JsValue) : option string :=
  match v with
  | JUndefined => None
  | JNull | JNaN => Some "null"
  | JBool true => Some "true"
  | JBool false => Some "false"
  | JNum z => Some (Number_toString z)
  | JStr s => Some (quote s)
  | JArr xs =>
      Some ("[" ++ String.concat ","
                     (map (fun x => match stringify x with
                                    | Some t => t
                                    | None => "null"
                                    end) xs) ++ "]")
  | JObj ps =>
      let rendered := map (fun kv => (fst kv, stringify (snd kv))) ps in
      Some ("{" ++ String.concat "," (flat_map render_member (own_entries rendered)) ++ "}")
  end.

(** The text of an object, which always has one. *)
Definition stringify_props (ps : list (string * JsValue)) : string :=
  match stringify (JObj ps) with
  | Some s => s
  | None => ""
  end.

Definition JSON_stringify (v : JsValue) : Completion JsValue :=
  match stringify v with
  | Some s => Normal (JStr s)
  | None => Normal JUndefined
  end.

(** UTF-8 length: one byte per code unit below 128, two up to 255. *)
Fixpoint utf8_length (s : string) : Z :=
  match s with
  | EmptyString => 0
  | String c rest => ((if Nat.ltb (nat_of_ascii c) 128 then 1 else 2) + utf8_length rest)%Z
  end.

Definition Buffer_byteLength (v : JsValue) : Completion Z :=
  match v with
  | JStr s => Normal (utf8_length s)
  | _ => Throw (TypeError ("The " ++ dquote ++ "string" ++ dquote
                         ++ " argument must be of type string or an instance of Buffer or ArrayBuffer."))
  end.

(** ** [String.prototype.split] with a one-character separator *)

Fixpoint split_on (sep : ascii) (s : string) : list string :=
  match s with
  | EmptyString => [""]
  | String c rest =>
      if Ascii.eqb c sep then "" :: split_on sep rest
      else match split_on sep rest with
           | cur :: more => String c cur :: more
           | [] => [String c ""]
           end
  end.

(** ** [isNaN] on a string: is the text a [StringNumericLiteral]? *)

Definition is_ws (c : ascii) : bool :=
  let n := nat_of_ascii c in
  existsb (Nat.eqb n) [9; 10; 11; 12; 13; 32; 160].

Definition in_range (lo hi : nat) (c : ascii) : bool :=
  let n := nat_of_ascii c in Nat.leb lo n && Nat.leb n hi.

Definition is_digit (c : ascii) : bool := in_range 48 57 c.
Definition is_hex (c : ascii) : bool := is_digit c || in_range 97 102 c || in_range 65 70 c.
Definition is_octal (c : ascii) : bool := in_range 48 55 c.
Definition is_binary (c : ascii) : bool := in_range 48 49 c.

Fixpoint trim_left (l : list ascii) : list ascii :=
  match l with
  | c :: rest => if is_ws c then trim_left rest else l
  | [] => []
  end.

Definition trim (l : list ascii) : list ascii := rev (trim_left (rev (trim_left l))).

Fixpoint span_digits (l : list ascii) : list ascii * list ascii :=
  match l with
  | c :: rest =>
      if is_digit c then let '(d, r) := span_digits rest in (c :: d, r)
      else ([], l)
  | [] => ([], [])
  end.

Definition nonempty {A} (l : list A) : bool :=
  match l with [] => false | _ => true end.

Definition all_of (p : ascii -> bool) (l : list ascii) : bool :=
  nonempty l && forallb p l.

Definition is_sign (c : ascii) : bool :=
  Ascii.eqb c "+"%char || Ascii.eqb c "-"%char.

Definition exponent_opt (l : list ascii) : bool :=
  match l with
  | [] => true
  | c :: rest =>
      (Ascii.eqb c "e"%char || Ascii.eqb c "E"%char)
      && match rest with
         | s :: digits => if is_sign s then all_of is_digit digits
                          else all_of is_digit rest
         | [] => false
         end
  end.

Definition unsigned_decimal (l : list ascii) : bool :=
  if String.eqb (string_of_list_ascii l) "Infinity" then true
  else
    let '(d1, r1) := span_digits l in
    match r1 with
    | c :: r2 =>
        if Ascii.eqb c "."%char then
          let '(d2, r3) := span_digits r2 in
          (nonempty d1 || nonempty d2) && exponent_opt r3
        else nonempty d1 && exponent_opt r1
    | [] => nonempty d1
    end.

Definition numeric_literal (l : list ascii) : bool :=
  match l with
  | [] => true
  | c :: rest =>
      let radix_form :=
        match rest with
        | x :: digits =>
            if Ascii.eqb c "0"%char then
              if Ascii.eqb x "x"%char || Ascii.eqb x "X"%char then Some (all_of is_hex digits)
              else if Ascii.eqb x "o"%char || Ascii.eqb x "O"%char then Some (all_of is_octal digits)
              else if Ascii.eqb x "b"%char || Ascii.eqb x "B"%char then Some (all_of is_binary digits)
              else None
            else None
        | [] => None
        end in
      match radix_form with
      | Some b => b
      | None => if is_sign c then unsigned_decimal rest else unsigned_decimal l
      end
  end.

(** [isNaN(s)] for a string [s]. *)
Definition isNaN (s : string) : bool :=
  negb (numeric_literal (trim (list_ascii_of_string s))).

(** ** [v >= 500]

    The comparison converts its left operand to a Number.  Whether the
    Number read from a string is at least 500 is decided on the exact
    value of the text: the nearest Number is at least 500 exactly when the
    value is not below 500 - 2^-45, the midpoint between 500 and the
    Number before it (the tie goes to 500, whose significand is even). *)

Definition digits_value (d : list ascii) : Z :=
  fold_left (fun acc c => (10 * acc + Z.of_nat (nat_of_ascii c - 48))%Z) d 0%Z.

Definition radix_digit (c : ascii) : Z :=
  let n := nat_of_ascii c in
  Z.of_nat (if is_digit c then n - 48
            else if in_range 97 102 c then n - 87
            else n - 55).

Definition radix_value (radix : Z) (d : list ascii) : Z :=
  fold_left (fun acc c => (radix * acc + radix_digit c)%Z) d 0%Z.

(** The exponent part of a decimal literal, zero when there is none. *)
Definition exponent_value (l : list ascii) : option Z :=
  match l with
  | [] => Some 0%Z
  | c :: rest =>
      if Ascii.eqb c "e"%char || Ascii.eqb c "E"%char then
        match rest with
        | s :: digits =>
            if Ascii.eqb s "-"%char then
              if all_of is_digit digits then Some (- digits_value digits)%Z else None
            else if Ascii.eqb s "+"%char then
              if all_of is_digit digits then Some (digits_value digits) else None
            else if all_of is_digit rest then Some (digits_value rest) else None
        | [] => None
        end
      else None
  end.

(** An unsigned decimal literal other than [Infinity], as [(m, e)] for
    the value [m * 10^e]. *)
Definition decimal_value (l : list ascii) : option (Z * Z) :=
  let '(d1, r1) := span_digits l in
  match r1 with
  | c :: r2 =>
      if Ascii.eqb c "."%char then
        let '(d2, r3) := span_digits r2 in
        if nonempty d1 || nonempty d2 then
          match exponent_value r3 with
          | Some e => Some (digits_value (d1 ++ d2), (e - Z.of_nat (List.length d2))%Z)
          | None => None
          end
        else None
      else if nonempty d1 then
        match exponent_value r1 with
        | Some e => Some (digits_value d1, e)
        | None => None
        end
      else None
  | [] => if nonempty d1 then Some (digits_value d1, 0%Z) else None
  end.

(** [m * 10^e >= 500 - 2^-45] *)
Definition rounds_to_500_or_more (m e : Z) : bool :=
  let bound := (500 * 2 ^ 45 - 1)%Z in
  if (0 <=? e)%Z then (bound <=? m * 10 ^ e * 2 ^ 45)%Z
  else (bound * 10 ^ (- e) <=? m * 2 ^ 45)%Z.

Definition unsigned_at_least_500 (l : list ascii) : bool :=
  if String.eqb (string_of_list_ascii l) "Infinity" then true
  else match decimal_value l with
       | Some (m, e) => rounds_to_500_or_more m e
       | None => false
       end.

(** [Number(s) >= 500] for a string [s]; a text that is no numeric
    literal gives [NaN], which is not at least 500. *)
Definition string_at_least_500 (s : string) : bool :=
  match trim (list_ascii_of_string s) with
  | [] => false
  | c :: rest =>
      let radix_form :=
        match rest with
        | x :: digits =>
            if Ascii.eqb c "0"%char then
              if Ascii.eqb x "x"%char || Ascii.eqb x "X"%char
              then Some (all_of is_hex digits && (500 <=? radix_value 16 digits)%Z)
              else if Ascii.eqb x "o"%char || Ascii.eqb x "O"%char
              then Some (all_of is_octal digits && (500 <=? radix_value 8 digits)%Z)
              else if Ascii.eqb x "b"%char || Ascii.eqb x "B"%char
              then Some (all_of is_binary digits && (500 <=? radix_value 2 digits)%Z)
              else None
            else None
        | [] => None
        end in
      match radix_form with
      | Some b => b
      | None =>
          if Ascii.eqb c "-"%char then false
          else if Ascii.eqb c "+"%char then unsigned_at_least_500 rest
          else unsigned_at_least_500 (c :: rest)
      end
  end.

(** [v >= 500]: [undefined] and [NaN] compare false, [null] and the
    booleans are below 500, an array or an object is converted to a
    string first. *)
Definition at_least_500 (v : JsValue) : Completion bool :=
  match v with
  | JNum z => Normal (500 <=? z)%Z
  | JUndefined | JNull | JNaN | JBool _ => Normal false
  | JStr s => Normal (string_at_least_500 s)
  | JArr _ | JObj _ => s <- ToString v ;; Normal (string_at_least_500 s)
  end.

(** ** A reference [JSON.parse]

    The transports are defined over an arbitrary [JSON.parse]; this one
    reads the JSON texts whose values the model can hold (objects, arrays,
    strings of code units below 256, integers, [true], [false], [null])
    and is used to run the transports on concrete events, all of which
    are of that kind.  A text with a fraction, an exponent or an escape
    above [\u00ff] denotes a value outside the model; this parser rejects
    it where [JSON.parse] reads it. *)

Definition is_json_ws (c : ascii) : bool :=
  existsb (Nat.eqb (nat_of_ascii c)) [9; 10; 13; 32].

Fixpoint skip_ws (l : list ascii) : list ascii :=
  match l with
  | c :: rest => if is_json_ws c then skip_ws rest else l
  | [] => []
  end.

Definition hex_value (c : ascii) : option nat :=
  let n := nat_of_ascii c in
  if is_digit c then Some (n - 48)
  else if in_range 97 102 c then Some (n - 87)
  else if in_range 65 70 c then Some (n - 55)
  else None.

Definition unescape (c : ascii) : option ascii :=
  let n := nat_of_ascii c in
  if Nat.eqb n 34 || Nat.eqb n 92 || Nat.eqb n 47 then Some c
  else if Ascii.eqb c "b"%char then Some (ascii_of_nat 8)
  else if Ascii.eqb c "f"%char then Some (ascii_of_nat 12)
  else if Ascii.eqb c "n"%char then Some (ascii_of_nat 10)
  else if Ascii.eqb c "r"%char then Some (ascii_of_nat 13)
  else if Ascii.eqb c "t"%char then Some (ascii_of_nat 9)
  else None.

(** The characters of a string literal after its opening quote. *)
Fixpoint parse_chars (l : list ascii) : option (string * list ascii) :=
  match l with
  | [] => None
  | c :: rest =>
      let n := nat_of_ascii c in
      if Nat.eqb n 34 then Some ("", rest)
      else if Nat.ltb n 32 then None
      else if Nat.eqb n 92 then
        match rest with
        | e :: rest' =>
            if Ascii.eqb e "u"%char then
              match rest' with
              | a :: b :: c2 :: d :: rest'' =>
                  match hex_value a, hex_value b, hex_value c2, hex_value d with
                  | Some 0, Some 0, Some h, Some lo =>
                      match parse_chars rest'' with
                      | Some (s, r) => Some (String (ascii_of_nat (16 * h + lo)) s, r)
                      | None => None
                      end
                  | _, _, _, _ => None
                  end
              | _ => None
              end
            else
              match unescape e, parse_chars rest' with
              | Some x, Some (s, r) => Some (String x s, r)
              | _, _ => None
              end
        | [] => None
        end
      else
        match parse_chars rest with
        | Some (s, r) => Some (String c s, r)
        | None => None
        end
  end.

(** An integer literal: [0] or a non-zero digit followed by digits, read
    as the nearest Number; a fraction, an exponent or an integer that
    rounds to [Infinity] denotes a value outside the model. *)
Definition parse_int (l : list ascii) : option (Z * list ascii) :=
  let '(d, r) := span_digits l in
  let after_ok := match r with
                  | c :: _ => negb (Ascii.eqb c "."%char || Ascii.eqb c "e"%char
                                    || Ascii.eqb c "E"%char)
                  | [] => true
                  end in
  match d with
  | [] => None
  | c :: more =>
      if Ascii.eqb c "0"%char then
        match more with
        | [] => if after_ok then Some (0%Z, r) else None
        | _ => Some (0%Z, (more ++ r)%list)
        end
      else if after_ok then
        let v := round_double (digits_value d) in
        if (2 ^ 1024 <=? v)%Z then None else Some (v, r)
      else None
  end.

Definition starts_with (p : string) (l : list ascii) : option (list ascii) :=
  let n := String.length p in
  if String.eqb (string_of_list_ascii (firstn n l)) p then Some (skipn n l) else None.

Fixpoint parse_value (fuel : nat) (l : list ascii) : option (JsValue * list ascii) :=
  match fuel with
  | O => None
  | S f =>
      match skip_ws l with
      | [] => None
      | c :: rest =>
          let n := nat_of_ascii c in
          if Nat.eqb n 34 then
            match parse_chars rest with
            | Some (s, r) => Some (JStr s, r)
            | None => None
            end
          else if Ascii.eqb c "["%char then
            match skip_ws rest with
            | c' :: r' => if Ascii.eqb c' "]"%char then Some (JArr [], r')
                          else match parse_elements f rest with
                               | Some (xs, r) => Some (JArr xs, r)
                               | None => None
                               end
            | [] => None
            end
          else if Ascii.eqb c "{"%char then
            match skip_ws rest with
            | c' :: r' => if Ascii.eqb c' "}"%char then Some (JObj [], r')
                          else match parse_members f rest with
                               | Some (ps, r) => Some (JObj ps, r)
                               | None => None
                               end
            | [] => None
            end
          else if Ascii.eqb c "-"%char then
            match parse_int rest with
            | Some (z, r) => Some (JNum (- z), r)
            | None => None
            end
          else if is_digit c then
            match parse_int (c :: rest) with
            | Some (z, r) => Some (JNum z, r)
            | None => None
            end
          else
            match starts_with "null" (c :: rest), starts_with "true" (c :: rest),
                  starts_with "false" (c :: rest) with
            | Some r, _, _ => Some (JNull, r)
            | _, Some r, _ => Some (JBool true, r)
            | _, _, Some r => Some (JBool false, r)
            | _, _, _ => None
            end
      end
  end

with parse_elements (fuel : nat) (l : list ascii) : option (list JsValue * list ascii) :=
  match fuel with
  | O => None
  | S f =>
      match parse_value f l with
      | Some (v, r) =>
          match skip_ws r with
          | c :: r' =>
              if Ascii.eqb c "]"%char then Some ([v], r')
              else if Ascii.eqb c ","%char then
                match parse_elements f r' with
                | Some (vs, r'') => Some (v :: vs, r'')
                | None => None
                end
              else None
          | [] => None
          end
      | None => None
      end
  end

with parse_members (fuel : nat) (l : list ascii)
  : option (list (string * JsValue) * list ascii) :=
  match fuel with
  | O => None
  | S f =>
      match skip_ws l with
      | q :: rest =>
          if Nat.eqb (nat_of_ascii q) 34 then
            match parse_chars rest with
            | Some (k, r) =>
                match skip_ws r with
                | colon :: r1 =>
                    if Ascii.eqb colon ":"%char then
                      match parse_value f r1 with
                      | Some (v, r2) =>
                          match skip_ws r2 with
                          | c :: r3 =>
                              if Ascii.eqb c "}"%char then Some ([(k, v)], r3)
                              else if Ascii.eqb c ","%char then
                                match parse_members f r3 with
                                | Some (ps, r4) => Some ((k, v) :: ps, r4)
                                | None => None
                                end
                              else None
                          | [] => None
                          end
                      | None => None
                      end
                    else None
                | [] => None
                end
            | None => None
            end
          else None
      | [] => None
      end
  end.

Definition parse_text (s : string) : option JsValue :=
  let l := list_ascii_of_string s in
  match parse_value (2 * List.length l + 2) l with
  | Some (v, r) => match skip_ws r with [] => Some v | _ => None end
  | None => None
  end.

(** [JSON.parse(v)]: the argument is converted to a string first. *)
Definition reference_parse (v : JsValue) : Completion JsValue :=
  text <- ToString v ;;
  match parse_text text with
  | Some r => Normal r
  | None => Throw (SyntaxError ("Unexpected token in JSON: " ++ text))
  end.

End Js.

Import Js.
Open Scope js_scope.

(* ===================================================================== *)
(** * [src/types/index.ts] *)
(* ===================================================================== *)

Module Types.

(** [class DomainError extends Error]: [super(message)], then the
    assignment [this.name = 'DomainError']. *)
Definition DomainError (message : string) : JsValue :=
  object (spread (Error message) ++ [("name", JStr "DomainError")]).

(** The optional [id] is tested for truthiness. *)
Definition id_suffix (id : option string) : string :=
  match id with
  | Some i => if truthy (JStr i) then " with ID: " ++ i else ""
  | None => ""
  end.

Definition NotFoundError (entity : string) (id : option string) : JsValue :=
  object (spread (DomainError (entity ++ " not found" ++ id_suffix id))
            ++ [("name", JStr "NotFoundError")]).

Definition ValidationError (message : string) : JsValue :=
  object (spread (DomainError message) ++ [("name", JStr "ValidationError")]).

(** [IServiceResponse<T>]: [data] and [error] are optional fields. *)
Record ErrorInfo : Type := { code : JsValue; message : JsValue }.

Record IServiceResponse : Type :=
  { success : bool; data : option JsValue; error : option ErrorInfo }.

End Types.

(* ===================================================================== *)
(** * [src/molecular.config.ts] *)
(* ===================================================================== *)

Module MoleculerConfig.

Record RetryPolicy : Type :=
  { enabled : bool; retries : Z; delay : Z; maxDelay : Z; factor : Z;
    check : JsValue -> Completion JsValue }.

(** [err && err.hasOwnProperty('retryable') ? err.retryable : true] *)
Definition retryable_check (err : JsValue) : Completion JsValue :=
  if truthy err then
    own <- hasOwnProperty err "retryable" ;;
    if truthy own then get err "retryable" else Normal (JBool true)
  else Normal (JBool true).

Definition retryPolicy : RetryPolicy :=
  {| enabled := true; retries := 5; delay := 100; maxDelay := 3000; factor := 2;
     check := retryable_check |}.

End MoleculerConfig.

(* ===================================================================== *)
(** * [src/infrastructure/transports/serverless.ts] *)
(* ===================================================================== *)

Module ServerlessTransport.
Import Types.

Record Settings : Type := { timeout : Z; maxPayloadSize : Z }.

Definition settings : Settings :=
  {| timeout := 30000; maxPayloadSize := 10 * 1024 * 1024 |}.

(** What [parseEvent] returns.  The action is data, or a function of
    [Object.prototype] when the routes object was indexed with one of the
    keys it inherits. *)
Record Invocation : Type :=
  { service : JsValue; action : Member; params : JsValue; meta : JsValue }.

(** What the handler does besides returning: log entries and broker calls.
    The fields of a debug entry are given one by one, the routed action
    being one of them. *)
Inductive Effect : Type :=
| LogInfo (fields : JsValue) (msg : string)
| LogDebug (fields : list (string * Member)) (msg : string)
| LogError (fields : JsValue) (msg : string)
| BrokerCall (actionName : string) (callParams : JsValue) (opts : JsValue).

(** [ctx.params.event], [ctx.params.context] and [ctx.id]. *)
Record Context : Type := { event : JsValue; context : JsValue; id : JsValue }.

(** [a && b] *)
Definition and_then (a b : Completion JsValue) : Completion JsValue :=
  x <- a ;; if truthy x then b else Normal x.

(** [v === s] for a string literal [s]. *)
Definition strict_eq_str (v : JsValue) (s : string) : bool :=
  match v with
  | JStr t => String.eqb t s
  | _ => false
  end.

(** [getEventSize]: the byte length of the serialized event, 0 when the
    computation throws. *)
Definition getEventSize (ev : JsValue) : Completion Z :=
  try_catch (s <- JSON_stringify ev ;; Buffer_byteLength s)
            (fun _ => Normal 0%Z).

(** [event.path.split('/').filter(Boolean)] *)
Definition pathParts_of (path : JsValue) : Completion (list string) :=
  match path with
  | JStr p => Normal (filter (fun s => truthy (JStr s)) (split_on "/"%char p))
  | JUndefined =>
      Throw (TypeError "Cannot read properties of undefined (reading 'split')")
  | JNull =>
      Throw (TypeError "Cannot read properties of null (reading 'split')")
  | _ => Throw (TypeError "event.path.split is not a function")
  end.

(** [pathParts[i]] *)
Definition part (pathParts : list string) (i : nat) : JsValue :=
  match nth_error pathParts i with
  | Some s => JStr s
  | None => JUndefined
  end.

Definition id_route_actions : list (string * JsValue) :=
  [ ("GET", JStr "get"); ("PUT", JStr "update"); ("DELETE", JStr "remove") ].

(** [!isNaN(pathParts[1])] *)
Definition numeric_part (pathParts : list string) : bool :=
  match nth_error pathParts 1 with
  | Some s => negb (isNaN s)
  | None => false
  end.

(** Lines 153-172: the action chosen from the method and the segments. *)
Definition route_action (pathParts : list string) (httpMethod : JsValue)
  : Completion Member :=
  if Nat.eqb (List.length pathParts) 1 then
    if strict_eq_str httpMethod "GET" then Normal (Data (JStr "list"))
    else if strict_eq_str httpMethod "POST" then Normal (Data (JStr "create"))
    else Normal (Data (JStr "default"))
  else if Nat.eqb (List.length pathParts) 2 && numeric_part pathParts then
    routed <- get_computed id_route_actions httpMethod ;;
    Normal (member_or routed (JStr "default"))
  else Normal (Data (or_else (part pathParts 1) (JStr "default"))).

Section Methods.

(** [JSON.parse], supplied by the runtime. *)
Variable JSON_parse : JsValue -> Completion JsValue.

(** Lines 174-183: the parameters read from the body. *)
Definition body_params (body : JsValue) : Completion JsValue :=
  if truthy body
  then try_catch (JSON_parse body) (fun _ => Normal (JObj [("body", body)]))
  else Normal (JObj []).

(** Lines 185-191. *)
Definition merge_params (fromBody pathParameters queryStringParameters headers : JsValue)
  : JsValue :=
  object (spread fromBody ++ spread pathParameters ++ spread queryStringParameters
            ++ [("headers", headers)]).

Definition parseApiGatewayEvent (ev : JsValue) : Completion Invocation :=
  path <- get ev "path" ;;
  pathParts <- pathParts_of path ;;
  httpMethod <- get ev "httpMethod" ;;
  let service := or_else (part pathParts 0) (JStr "sample") in
  action <- route_action pathParts httpMethod ;;
  body <- get ev "body" ;;
  fromBody <- body_params body ;;
  pathParameters <- get ev "pathParameters" ;;
  queryStringParameters <- get ev "queryStringParameters" ;;
  headers <- get ev "headers" ;;
  Normal {| service := service;
            action := action;
            params := merge_params fromBody pathParameters queryStringParameters headers;
            meta := JObj [("httpMethod", httpMethod); ("path", path)] |}.

Definition parseSQSEvent (ev : JsValue) : Completion Invocation :=
  records <- get ev "Records" ;;
  record <- get_index records 0 ;;
  params <- try_catch (body <- get record "body" ;; JSON_parse body)
                      (fun _ => body <- get record "body" ;;
                                Normal (JObj [("body", body)])) ;;
  messageId <- get record "messageId" ;;
  receiptHandle <- get record "receiptHandle" ;;
  Normal {| service := JStr "sample";
            action := JStr "processQueueMessage";
            params := params;
            meta := JObj [("source", JStr "sqs"); ("messageId", messageId);
                          ("receiptHandle", receiptHandle)] |}.

Definition parseSNSEvent (ev : JsValue) : Completion Invocation :=
  records <- get ev "Records" ;;
  record <- get_index records 0 ;;
  params <- try_catch (sns <- get record "Sns" ;; msg <- get sns "Message" ;;
                       JSON_parse msg)
                      (fun _ => sns <- get record "Sns" ;; msg <- get sns "Message" ;;
                                Normal (JObj [("message", msg)])) ;;
  sns <- get record "Sns" ;;
  topicArn <- get sns "TopicArn" ;;
  messageId <- get sns "MessageId" ;;
  Normal {| service := JStr "sample";
            action := JStr "processNotification";
            params := params;
            meta := JObj [("source", JStr "sns"); ("topicArn", topicArn);
                          ("messageId", messageId)] |}.

(** [event.Records && event.Records[0]?.eventSource === tag] *)
Definition records_tagged (ev : JsValue) (tag : string) : Completion JsValue :=
  and_then (get ev "Records")
           (records <- get ev "Records" ;;
            first <- get_index records 0 ;;
            Normal (JBool (strict_eq_str (get_opt first "eventSource") tag))).

Definition parseDirect (ev : JsValue) : Completion Invocation :=
  service <- get ev "service" ;;
  action <- get ev "action" ;;
  params <- get ev "params" ;;
  meta <- get ev "meta" ;;
  Normal {| service := service; action := Data action;
            params := or_else params (JObj []); meta := meta |}.

Definition parseFallback (ev : JsValue) : Completion Invocation :=
  Normal {| service := JStr "sample"; action := JStr "processServerlessEvent";
            params := ev; meta := JObj [] |}.

Definition parseEvent (ev : JsValue) : Completion Invocation :=
  isApiGateway <- and_then (get ev "httpMethod") (get ev "path") ;;
  if truthy isApiGateway then parseApiGatewayEvent ev
  else
    isSQS <- records_tagged ev "aws:sqs" ;;
    if truthy isSQS then parseSQSEvent ev
    else
      isSNS <- records_tagged ev "aws:sns" ;;
      if truthy isSNS then parseSNSEvent ev
      else
        isDirect <- and_then (get ev "service") (get ev "action") ;;
        if truthy isDirect then parseDirect ev
        else parseFallback ev.

(** ** The action [handler] *)

(** The broker the transport calls into, [Date.now()], and the settings
    of the service. *)
Variable broker_call : string -> JsValue -> JsValue -> Completion JsValue.
Variable now : Z.
Variable cfg : Settings.

Definition size_error (payloadSize : Z) : JsValue :=
  Error ("Payload size exceeds maximum allowed (" ++ Number_toString payloadSize
           ++ " > " ++ Number_toString (maxPayloadSize cfg) ++ ")").

(** A call about to be made: the parsed service and action, the
    parameters and the options. *)
Record Call : Type :=
  { service_of : JsValue; action_of : Member; callParams : JsValue;
    callOpts : JsValue; requestId : JsValue }.

(** [`${service}.${action}`] *)
Definition target (c : Call) : Completion string :=
  s <- ToString (service_of c) ;;
  a <- Member_ToString (action_of c) ;;
  Normal (s ++ "." ++ a).

(** Lines 48-63: everything in the [try] block before the first log
    entry.  [context] already holds its default [{}]. *)
Definition prepare (ev ctxt ctxId : JsValue) : Completion Call :=
  payloadSize <- getEventSize ev ;;
  if Z.gtb payloadSize (maxPayloadSize cfg) then Throw (size_error payloadSize)
  else
    inv <- parseEvent ev ;;
    let meta0 := match meta inv with JUndefined => JObj [] | m => m end in
    awsRequestId <- get ctxt "awsRequestId" ;;
    rid <- (if truthy awsRequestId then Normal awsRequestId
            else r <- get ctxt "requestId" ;;
                 Normal (or_else r ctxId)) ;;
    let requestMeta :=
      object (spread meta0 ++ [("transport", JStr "serverless"); ("requestId", rid);
                               ("timestamp", JNum now)]) in
    Normal {| service_of := service inv;
              action_of := action inv;
              callParams := params inv;
              callOpts := JObj [("meta", requestMeta); ("timeout", JNum (timeout cfg))];
              requestId := rid |}.

(** The [try] block: its completion and the effects it performed.  The
    first debug entry is written before the name of the action is put
    together from the service and the action. *)
Definition try_block (ev ctxt ctxId : JsValue) : Completion JsValue * list Effect :=
  match prepare ev ctxt ctxId with
  | Throw e => (Throw e, [])
  | Normal c =>
      let logged :=
        [ LogDebug [("service", Data (service_of c)); ("action", action_of c);
                    ("requestId", Data (requestId c))]
                   "Processing serverless event" ] in
      match target c with
      | Throw e => (Throw e, logged)
      | Normal name =>
          let before :=
            (logged ++ [BrokerCall name (callParams c) (callOpts c)])%list in
          match broker_call name (callParams c) (callOpts c) with
          | Normal result =>
              (Normal result,
               (before ++ [LogDebug [("requestId", Data (requestId c))]
                                    "Successfully processed serverless event"])%list)
          | Throw e => (Throw e, before)
          end
      end
  end.

(** The [catch] block, lines 86-100. *)
Definition catch_block (ev err : JsValue) : Completion IServiceResponse * list Effect :=
  match (m <- get err "message" ;; st <- get err "stack" ;; Normal (m, st)) with
  | Throw e => (Throw e, [])
  | Normal (m, st) =>
      let logged := [LogError (JObj [("error", m); ("stack", st); ("event", ev)])
                              "Error processing serverless event"] in
      match (c <- get err "code" ;; msg <- get err "message" ;; Normal (c, msg)) with
      | Throw e => (Throw e, logged)
      | Normal (c, msg) =>
          (Normal {| success := false;
                     data := None;
                     error := Some {| code := or_else c (JStr "INTERNAL_ERROR");
                                      message := or_else msg (JStr "An unexpected error occurred") |} |},
           logged)
      end
  end.

(** [const { event, context = {} } = ctx.params] *)
Definition context_or_default (ctx : Context) : JsValue :=
  match context ctx with JUndefined => JObj [] | c => c end.

Definition handler (ctx : Context) : Completion IServiceResponse * list Effect :=
  match try_block (event ctx) (context_or_default ctx) (id ctx) with
  | (Normal result, effs) =>
      (Normal {| success := true; data := Some result; error := None |}, effs)
  | (Throw err, effs) =>
      let '(r, effs') := catch_block (event ctx) err in (r, (effs ++ effs')%list)
  end.

End Methods.

End ServerlessTransport.

(* ===================================================================== *)
(** * [src/infrastructure/transports/queue.ts] *)
(* ===================================================================== *)

Module QueueTransport.

(** ** The Redis lists behind the queues

    A list is written left to right; [LPUSH] adds at the left end and
    [RPOP] takes from the right end. *)
Definition Redis : Type := string -> list string.

Definition lpush (x : string) (l : list string) : list string := x :: l.

Fixpoint rpop (l : list string) : option string * list string :=
  match l with
  | [] => (None, [])
  | x :: rest =>
      match rest with
      | [] => (Some x, [])
      | _ => let '(r, rest') := rpop rest in (r, x :: rest')
      end
  end.

Definition update (r : Redis) (queue : string) (l : list string) : Redis :=
  fun q => if String.eqb q queue then l else r q.

(** ** The action [publish]: the text it pushes *)
Definition messageStr (message ctxMeta options : JsValue) (now : Z) : string :=
  let options := match options with JUndefined => JObj [] | o => o end in
  stringify_props
    [ ("data", message);
      ("meta", object (spread ctxMeta ++ [("timestamp", JNum now); ("options", options)])) ].

Definition publish (r : Redis) (queue : string) (message ctxMeta options : JsValue) (now : Z)
  : Redis :=
  update r queue (lpush (messageStr message ctxMeta options now) (r queue)).

(** ** One run of [pollQueue], cut at its two [await]s *)

Inductive Schedule : Type :=
| DirectCall                (* [pollQueue()] at the end of [startConsumer] *)
| SetImmediate              (* [setImmediate(pollQueue)] *)
| SetTimeout (ms : Z).      (* [setTimeout(pollQueue, ms)] *)

Inductive PollOutcome : Type :=
| Reschedule (s : Schedule)
| Invoke (message : JsValue).

Section Consumer.

Variable JSON_parse : JsValue -> Completion JsValue.

(** From the reply of [RPOP] to the call of the handler. *)
Definition poll_read (reply : Completion (option string)) : PollOutcome :=
  match reply with
  | Throw _ => Reschedule (SetTimeout 5000)
  | Normal None => Reschedule (SetTimeout 1000)
  | Normal (Some result) =>
      if truthy (JStr result) then
        match JSON_parse (JStr result) with
        | Normal message => Invoke message
        | Throw _ => Reschedule (SetTimeout 5000)
        end
      else Reschedule (SetTimeout 1000)
  end.

(** The handler call a popped text leads to, if any. *)
Definition delivered (text : string) : list JsValue :=
  match poll_read (Normal (Some text)) with
  | Invoke message => [message]
  | Reschedule _ => []
  end.

(** From the completion of the handler to the end of the [try]. *)
Definition poll_resume (handled : Completion unit) : Schedule :=
  match handled with
  | Normal _ => SetImmediate
  | Throw _ => SetTimeout 5000
  end.

(** How [pollQueue] reschedules itself. *)
Definition pollQueue (reply : Completion (option string))
           (handler : JsValue -> Completion unit) : Schedule :=
  match poll_read reply with
  | Reschedule s => s
  | Invoke message => poll_resume (handler message)
  end.

(** ** [handleSampleQueue] *)
Definition handleSampleQueue
           (broker_call : string -> JsValue -> Completion JsValue)
           (message : JsValue) : Completion unit :=
  try_catch (d <- get message "data" ;;
             m <- get message "meta" ;;
             _ <- broker_call "sample.processQueueMessage"
                              (JObj [("data", d); ("meta", m)]) ;;
             Normal tt)
            (fun _ => Normal tt).

(** ** The consumer on the event loop

    The state holds the Redis lists, the [pollQueue] callbacks that are
    scheduled, the handler calls that have started and not completed, and
    what has happened so far.  Between two steps of the consumer anything
    else may run: publishers, purges, other timers. *)

Inductive Event : Type :=
| Published (queue : string) (text : string)
| Purged (queue : string)
| Popped (text : string)
| Started (message : JsValue)
| Finished (message : JsValue).

Record State : Type :=
  { redis : Redis;
    pollers : list Schedule;
    running : list JsValue;
    trace : list Event }.

Inductive Action : Type :=
| Publish (queue : string) (text : string)
| PurgeQueue (queue : string)
| Poll (i : nat) (readError : option JsValue)
| Finish (j : nat) (outcome : Completion unit).

(** [l] without its [i]-th element, when it has one. *)
Fixpoint take_nth {A : Type} (i : nat) (l : list A) {struct l} : option (A * list A) :=
  match l, i with
  | [], _ => None
  | x :: rest, O => Some (x, rest)
  | x :: rest, S i' =>
      match take_nth i' rest with
      | Some (y, rest') => Some (y, x :: rest')
      | None => None
      end
  end.

Variable queueName : string.

Definition startConsumer (r : Redis) : State :=
  {| redis := r; pollers := [DirectCall]; running := []; trace := [] |}.

Definition step (a : Action) (st : State) : option State :=
  match a with
  | Publish queue text =>
      Some {| redis := update (redis st) queue (lpush text (redis st queue));
              pollers := pollers st; running := running st;
              trace := trace st ++ [Published queue text] |}
  | PurgeQueue queue =>
      Some {| redis := update (redis st) queue [];
              pollers := pollers st; running := running st;
              trace := trace st ++ [Purged queue] |}
  | Poll i readError =>
      match take_nth i (pollers st) with
      | None => None
      | Some (_, others) =>
          let '(reply, redis', popped) :=
            match readError with
            | Some e => (Throw e, redis st, [])
            | None =>
                let '(result, rest) := rpop (redis st queueName) in
                (Normal result, update (redis st) queueName rest,
                 match result with Some s => [Popped s] | None => [] end)
            end in
          match poll_read reply with
          | Reschedule s =>
              Some {| redis := redis'; pollers := others ++ [s];
                      running := running st; trace := trace st ++ popped |}
          | Invoke message =>
              Some {| redis := redis'; pollers := others;
                      running := running st ++ [message];
                      trace := trace st ++ popped ++ [Started message] |}
          end
      end
  | Finish j outcome =>
      match take_nth j (running st) with
      | None => None
      | Some (message, others) =>
          Some {| redis := redis st;
                  pollers := pollers st ++ [poll_resume outcome];
                  running := others;
                  trace := trace st ++ [Finished message] |}
      end
  end.

Fixpoint run (acts : list Action) (st : State) : option State :=
  match acts with
  | [] => Some st
  | a :: rest =>
      match step a st with
      | Some st' => run rest st'
      | None => None
      end
  end.

End Consumer.

(** ** Reading a trace *)

Definition published (queue : string) (t : list Event) : list string :=
  flat_map (fun e => match e with
                     | Published q text => if String.eqb q queue then [text] else []
                     | _ => []
                     end) t.

Definition popped (t : list Event) : list string :=
  flat_map (fun e => match e with Popped text => [text] | _ => [] end) t.

Definition started (t : list Event) : list JsValue :=
  flat_map (fun e => match e with Started m => [m] | _ => [] end) t.

Definition is_purge (queue : string) (a : Action) : bool :=
  match a with
  | PurgeQueue q => String.eqb q queue
  | _ => false
  end.

Definition purges (queue : string) (acts : list Action) : bool :=
  existsb (is_purge queue) acts.

(** Scanning a trace for overlap: [busy] tells whether a handler call is
    in progress; a pop or a start while busy is an overlap, a completion
    while idle is impossible.  The result is the final [busy], or [None]
    on an overlap. *)
Fixpoint scan (busy : bool) (t : list Event) : option bool :=
  match t with
  | [] => Some busy
  | Popped _ :: rest => if busy then None else scan false rest
  | Started _ :: rest => if busy then None else scan true rest
  | Finished _ :: rest => if busy then scan false rest else None
  | _ :: rest => scan busy rest
  end.

Definition no_overlap (t : list Event) : bool :=
  match scan false t with Some _ => true | None => false end.

End QueueTransport.

(* ===================================================================== *)
(** * [src/infrastructure/repositories/base.repository.ts] *)
(* ===================================================================== *)

Module BaseRepository.

(** [IEntity]: what every stored entity carries. *)
Class IEntity (T : Type) : Type :=
  { id : T -> string; createdAt : T -> Z; updatedAt : T -> Z }.

Section Repository.

Context {T : Type} `{IEntity T}.

Record Repository : Type := { collection : list T; entityName : string }.

(** [delete(id)]: the result and the repository afterwards. *)
Definition delete (ident : string) (repo : Repository) : bool * Repository :=
  let initialLength := List.length (collection repo) in
  let collection' := filter (fun entity => negb (String.eqb (id entity) ident))
                            (collection repo) in
  let success := Nat.ltb (List.length collection') initialLength in
  (success, {| collection := collection'; entityName := entityName repo |}).

(** The collection with every entity bearing [ident] taken out, one
    entity at a time. *)
Fixpoint without (ident : string) (l : list T) : list T :=
  match l with
  | [] => []
  | entity :: rest =>
      if String.eqb (id entity) ident then without ident rest
      else entity :: without ident rest
  end.

End Repository.

Arguments Repository T : clear implicits.

(** [ISampleEntity] *)
Record ISampleEntity : Type :=
  { sample_id : string; sample_createdAt : Z; sample_updatedAt : Z;
    name : string; description : string; status : string }.

#[global] Instance ISampleEntity_IEntity : IEntity ISampleEntity :=
  {| id := sample_id; createdAt := sample_createdAt; updatedAt := sample_updatedAt |}.

End BaseRepository.

(* ===================================================================== *)
(** * What the properties are stated with *)
(* ===================================================================== *)

(** Induction on a value, with the property at hand for the elements of
    an array and for the values of the properties of an object. *)
Section ValueInduction.

Variable P : JsValue -> Prop.

Hypothesis on_undefined : P JUndefined.
Hypothesis on_null : P JNull.
Hypothesis on_bool : forall b, P (JBool b).
Hypothesis on_num : forall z, P (JNum z).
Hypothesis on_nan : P JNaN.
Hypothesis on_str : forall s, P (JStr s).
Hypothesis on_arr : forall xs, Forall P xs -> P (JArr xs).
Hypothesis on_obj : forall ps, Forall (fun kv => P (snd kv)) ps -> P (JObj ps).

Fixpoint JsValue_elements_ind (v : JsValue) : P v :=
  match v with
  | JUndefined => on_undefined
  | JNull => on_null
  | JBool b => on_bool b
  | JNum z => on_num z
  | JNaN => on_nan
  | JStr s => on_str s
  | JArr xs =>
      on_arr xs ((fix each (l : list JsValue) : Forall P l :=
                    match l with
                    | [] => Forall_nil P
                    | x :: rest => Forall_cons x (JsValue_elements_ind x) (each rest)
                    end) xs)
  | JObj ps =>
      on_obj ps ((fix each (l : list (string * JsValue))
                    : Forall (fun kv => P (snd kv)) l :=
                    match l with
                    | [] => Forall_nil _
                    | kv :: rest =>
                        Forall_cons kv (JsValue_elements_ind (snd kv)) (each rest)
                    end) ps)
  end.

End ValueInduction.

(** [null] and [undefined], the two values without properties. *)
Definition nullish (v : JsValue) : bool :=
  match v with
  | JUndefined | JNull => true
  | _ => false
  end.

(** An object whose own property [hasOwnProperty] shadows the method of
    [Object.prototype]. *)
Definition shadows_hasOwnProperty (v : JsValue) : bool :=
  match v with
  | JObj ps => match lookup "hasOwnProperty" ps with Some _ => true | None => false end
  | _ => false
  end.

(** The values that can be converted to a string: all but an object with
    an own [toString] and an array that holds, at any depth, such an
    object. *)
Fixpoint converts (v : JsValue) : bool :=
  match v with
  | JArr xs => (fix all (l : list JsValue) : bool :=
                  match l with
                  | [] => true
                  | x :: rest => converts x && all rest
                  end) xs
  | JObj ps => match lookup "toString" ps with Some _ => false | None => true end
  | _ => true
  end.

(** The [TypeError] of a failed conversion. *)
Definition conversion_error : JsValue :=
  TypeError "Cannot convert object to primitive value".

(** The retry predicate classifies [err] as not to be retried: it
    answers, and its answer is falsy. *)
Definition non_retryable (err : JsValue) : Prop :=
  exists answer, MoleculerConfig.retryable_check err = Normal answer
                 /\ truthy answer = false.

Definition generic_message : JsValue := JStr "An unexpected error occurred".

(** ** The serverless adapter *)

(** The routes object indexed with a string. *)
Definition id_route (m : string) : Member :=
  member_or (match lookup m ServerlessTransport.id_route_actions with
             | Some v => Data v
             | None => inherited m
             end) (JStr "default").

(** The non-empty segments of a path. *)
Definition segments (p : string) : list string :=
  filter (fun s => truthy (JStr s)) (split_on "/"%char p).

(** What [body_params] computes. *)
Definition parsed_body (JSON_parse : JsValue -> Completion JsValue) (body : JsValue)
  : JsValue :=
  if truthy body then
    match JSON_parse body with
    | Normal v => v
    | Throw _ => JObj [("body", body)]
    end
  else JObj [].

(** The classification as the specification words it: an ordered list of
    shapes, each with a detector and a parser, the first match winning. *)
Module Spec.
Import ServerlessTransport.

Inductive Shape : Type :=
| ApiGateway | BatchMessage | Notification | Descriptor | Fallback.

Definition first_record (ev : JsValue) : JsValue :=
  get_opt (get_opt ev "Records") "0".

Definition detector (s : Shape) (ev : JsValue) : bool :=
  match s with
  | ApiGateway => truthy (get_opt ev "httpMethod") && truthy (get_opt ev "path")
  | BatchMessage =>
      truthy (get_opt ev "Records")
      && strict_eq_str (get_opt (first_record ev) "eventSource") "aws:sqs"
  | Notification =>
      truthy (get_opt ev "Records")
      && strict_eq_str (get_opt (first_record ev) "eventSource") "aws:sns"
  | Descriptor => truthy (get_opt ev "service") && truthy (get_opt ev "action")
  | Fallback => true
  end.

Definition parser (JSON_parse : JsValue -> Completion JsValue) (s : Shape)
  : JsValue -> Completion Invocation :=
  match s with
  | ApiGateway => parseApiGatewayEvent JSON_parse
  | BatchMessage => parseSQSEvent JSON_parse
  | Notification => parseSNSEvent JSON_parse
  | Descriptor => parseDirect
  | Fallback => parseFallback
  end.

Definition order : list Shape :=
  [ApiGateway; BatchMessage; Notification; Descriptor; Fallback].

(** The place of a shape in [order]. *)
Definition rank (s : Shape) : nat :=
  match s with
  | ApiGateway => 0
  | BatchMessage => 1
  | Notification => 2
  | Descriptor => 3
  | Fallback => 4
  end.

Fixpoint first_match (shapes : list Shape) (ev : JsValue) : option Shape :=
  match shapes with
  | [] => None
  | s :: rest => if detector s ev then Some s else first_match rest ev
  end.

Definition classify (ev : JsValue) : option Shape := first_match order ev.

End Spec.

(** ** The queue consumer *)

Module ConsumerInvariant.
Import QueueTransport.

(** Exactly one of the two holds at any time: one [pollQueue] callback is
    scheduled and no handler runs, or no callback is scheduled and one
    handler runs.  The trace read so far agrees with it, and the handler
    calls are those of the popped texts, in their order. *)
Record Inv (JSON_parse : JsValue -> Completion JsValue) (st : State) : Prop :=
  { inv_single : List.length (pollers st) + List.length (running st) = 1;
    inv_scan : scan false (trace st) = Some (nonempty (running st));
    inv_started :
      started (trace st) = flat_map (delivered JSON_parse) (popped (trace st)) }.

(** What has been published to the queue, after what it held at the
    start, is what has been popped followed by what it holds now. *)
Definition Fifo (queueName : string) (r0 : Redis) (st : State) : Prop :=
  (rev (r0 queueName) ++ published queueName (trace st))%list
  = (popped (trace st) ++ rev (redis st queueName))%list.

End ConsumerInvariant.

(** ** Concrete events, brokers and settings *)

Module Examples.
Import ServerlessTransport.

(** [{ service: 'sample', action: 'get', params: { id: '1' } }] *)
Definition direct_event : JsValue :=
  JObj [ ("service", JStr "sample"); ("action", JStr "get");
         ("params", JObj [("id", JStr "1")]) ].

Definition direct_ctx : Context :=
  {| event := direct_event; context := JUndefined; id := JStr "ctx-1" |}.

(** A broker whose call is rejected with a plain [Error]. *)
Definition refused : JsValue := Error "connect ECONNREFUSED 10.0.0.5:5432".

Definition refusing_broker (_ : string) (_ _ : JsValue) : Completion JsValue :=
  Throw refused.

(** A broker that answers every call with its parameters. *)
Definition echo_broker (_ : string) (p _ : JsValue) : Completion JsValue := Normal p.

(** What the handler has done when the call for [direct_ctx] is made at
    time 0 under the default settings. *)
Definition direct_effects : list Effect :=
  [ LogDebug [("service", Data (JStr "sample")); ("action", Data (JStr "get"));
              ("requestId", Data (JStr "ctx-1"))]
             "Processing serverless event";
    BrokerCall "sample.get" (JObj [("id", JStr "1")])
               (JObj [("meta", JObj [("transport", JStr "serverless");
                                     ("requestId", JStr "ctx-1");
                                     ("timestamp", JNum 0)]);
                      ("timeout", JNum 30000)]) ].

(** The serialized [direct_event], 55 bytes long. *)
Definition direct_text : string :=
  Eval vm_compute in stringify_props (spread direct_event).

(** [{ httpMethod: 'GET', path: '/sample' }] and
    [{ httpMethod: 'GET', path: '/sample/42' }] *)
Definition list_event : JsValue :=
  JObj [("httpMethod", JStr "GET"); ("path", JStr "/sample")].

Definition get_event : JsValue :=
  JObj [("httpMethod", JStr "GET"); ("path", JStr "/sample/42")].

(** The text [{"id":"from-body"}]. *)
Definition id_body : string :=
  Eval vm_compute in stringify_props [("id", JStr "from-body")].

(** A [PUT /sample/42] whose body and path parameters both carry [id]. *)
Definition update_event : JsValue :=
  JObj [ ("httpMethod", JStr "PUT"); ("path", JStr "/sample/42");
         ("body", JStr id_body);
         ("pathParameters", JObj [("id", JStr "from-path")]) ].

(** A notification-tagged event whose first record has no [Sns]. *)
Definition bare_notification : JsValue :=
  JObj [("Records", JArr [JObj [("eventSource", JStr "aws:sns")]])].

(** Three messages as [publish] writes them, at times 1, 2 and 3. *)
Definition text_A : string :=
  Eval vm_compute in QueueTransport.messageStr (JStr "A") (JObj []) JUndefined 1.
Definition text_B : string :=
  Eval vm_compute in QueueTransport.messageStr (JStr "B") (JObj []) JUndefined 2.
Definition text_C : string :=
  Eval vm_compute in QueueTransport.messageStr (JStr "C") (JObj []) JUndefined 3.

Definition message_of (d : string) (t : Z) : JsValue :=
  JObj [("data", JStr d);
        ("meta", JObj [("timestamp", JNum t); ("options", JObj [])])].

Definition empty_redis : QueueTransport.Redis := fun _ => [].

(** The three messages are published, then the consumer polls and
    handles them one after the other. *)
Definition publish_then_consume : list QueueTransport.Action :=
  [ QueueTransport.Publish "sample-queue" text_A;
    QueueTransport.Publish "sample-queue" text_B;
    QueueTransport.Publish "sample-queue" text_C;
    QueueTransport.Poll 0 None; QueueTransport.Finish 0 (Normal tt);
    QueueTransport.Poll 0 None; QueueTransport.Finish 0 (Normal tt);
    QueueTransport.Poll 0 None; QueueTransport.Finish 0 (Normal tt) ].

(** A handler that completes. *)
Definition completing_handler (_ : JsValue) : Completion unit := Normal tt.

(** Settings with a small limit. *)
Definition small : Settings := {| timeout := 30000; maxPayloadSize := 16 |}.

End Examples.

(* ===================================================================== *)
(** * [base.repository.ts] on the objects it stores *)
(* ===================================================================== *)

Module ObjectRepository.

(** [collection] starts empty and receives only the values of the object
    literals in [create] and [update]: an entity is an object, given by
    its properties. *)
Definition Entity : Type := list (string * JsValue).

(** [entity.id === id] *)
Definition has_id (ident : string) (entity : Entity) : bool :=
  ServerlessTransport.strict_eq_str (from_option (lookup "id" entity)) ident.

(** [findById]: [collection.find(...) || null]. *)
Definition findById (ident : string) (collection : list Entity) : option Entity :=
  find (has_id ident) collection.

(** [collection.findIndex(...)], [None] for -1. *)
Fixpoint findIndex (p : Entity -> bool) (collection : list Entity) : option nat :=
  match collection with
  | [] => None
  | entity :: rest =>
      if p entity then Some 0
      else match findIndex p rest with
           | Some i => Some (S i)
           | None => None
           end
  end.

(** [collection[index] = entity] for an index in range. *)
Fixpoint assign_at (index : nat) (entity : Entity) (collection : list Entity)
  : list Entity :=
  match collection, index with
  | [], _ => []
  | _ :: rest, O => entity :: rest
  | e :: rest, S i => e :: assign_at i entity rest
  end.

(** [create(data)]; [ident] is the value of [generateId()] and [now] that
    of [new Date()]. *)
Definition create (data : JsValue) (ident : string) (now : JsValue)
           (collection : list Entity) : Entity * list Entity :=
  let newEntity :=
    own_entries (spread data ++ [("id", JStr ident); ("createdAt", now);
                                 ("updatedAt", now)]) in
  (newEntity, (collection ++ [newEntity])%list).

(** [update(id, data)] *)
Definition update (ident : string) (data : JsValue) (now : JsValue)
           (collection : list Entity) : option Entity * list Entity :=
  match findIndex (has_id ident) collection with
  | None => (None, collection)
  | Some index =>
      let updatedEntity :=
        own_entries (nth index collection [] ++ spread data ++ [("updatedAt", now)]) in
      (Some updatedEntity, assign_at index updatedEntity collection)
  end.

(** [delete(id)] *)
Definition delete (ident : string) (collection : list Entity) : bool * list Entity :=
  let initialLength := List.length collection in
  let collection' := filter (fun entity => negb (has_id ident entity)) collection in
  (Nat.ltb (List.length collection') initialLength, collection').

(** ** The pagination of [findAll] (lines 162-176)

    [IQueryOptions] types [page] and [pageSize] as numbers, and the
    [list] action admits only positive integers for them (its validator
    says [type: 'number', integer: true, positive: true]); [findAll]
    itself checks nothing.  What follows is [findAll] on the
    integer-valued numbers, the numbers of the value model.  A fractional
    page size, or a string that [processServerlessEvent] passes on
    unvalidated, is outside it: there the pages can exceed the page size
    or overlap. *)

Record Pagination : Type := { page : Z; pageSize : Z; total : Z }.

(** [n || d] for an optional number. *)
Definition number_or (n : option Z) (d : Z) : Z :=
  match n with
  | Some z => if Z.eqb z 0 then d else z
  | None => d
  end.

(** [Array.prototype.slice(start, end)]: a negative index counts from the
    end. *)
Definition slice {A : Type} (l : list A) (first last : Z) : list A :=
  let len := Z.of_nat (List.length l) in
  let clamp (i : Z) := if Z.ltb i 0 then Z.max (len + i) 0 else Z.min i len in
  firstn (Z.to_nat (clamp last - clamp first)) (skipn (Z.to_nat (clamp first)) l).

Definition paginate (result : list Entity) (optPage optPageSize : option Z)
  : list Entity * Pagination :=
  let total := Z.of_nat (List.length result) in
  let page := number_or optPage 1 in
  let pageSize := number_or optPageSize total in
  let startIndex := ((page - 1) * pageSize)%Z in
  (slice result startIndex (startIndex + pageSize),
   {| page := page; pageSize := pageSize; total := total |}).

End ObjectRepository.

(* ===================================================================== *)
(** * The use cases and the application service *)
(* ===================================================================== *)

(** [error instanceof C] for the two error classes thrown here: the
    constructor of each assigns its own [name]. *)
Definition instanceof (error : JsValue) (className : string) : bool :=
  ServerlessTransport.strict_eq_str (get_opt error "name") className.

(** [get-sample.use-case.ts] *)
Module GetSampleUseCase.
Import ObjectRepository.

Definition execute (ident : string) (collection : list Entity) : Completion Entity :=
  if negb (truthy (JStr ident)) then Throw (Types.ValidationError "Sample ID is required")
  else match findById ident collection with
       | None => Throw (Types.NotFoundError "Sample" (Some ident))
       | Some sample => Normal sample
       end.

End GetSampleUseCase.

(** [create-sample.use-case.ts] *)
Module CreateSampleUseCase.
Import ObjectRepository.

(** [s.trim().length === 0] *)
Definition blank (s : string) : bool :=
  match trim (list_ascii_of_string s) with
  | [] => true
  | _ => false
  end.

(** [!v || v.trim().length === 0], for the field named [field]. *)
Definition missing (field : string) (v : JsValue) : Completion bool :=
  if negb (truthy v) then Normal true
  else match v with
       | JStr s => Normal (blank s)
       | _ => Throw (TypeError ("input." ++ field ++ ".trim is not a function"))
       end.

Definition statuses : list string := ["active"; "inactive"; "pending"].

(** [typeof v !== 'object'] *)
Definition not_typeof_object (v : JsValue) : bool :=
  match v with
  | JNull | JArr _ | JObj _ => false
  | _ => true
  end.

(** [v.length > 100] once [v.trim()] has succeeded. *)
Definition too_long (v : JsValue) : bool :=
  match v with
  | JStr s => Nat.ltb 100 (String.length s)
  | _ => false
  end.

Definition validateInput (input : JsValue) : Completion unit :=
  name <- get input "name" ;;
  noName <- missing "name" name ;;
  if noName then Throw (Types.ValidationError "Sample name is required")
  else if too_long name
  then Throw (Types.ValidationError "Sample name cannot exceed 100 characters")
  else
    description <- get input "description" ;;
    noDescription <- missing "description" description ;;
    if noDescription then Throw (Types.ValidationError "Sample description is required")
    else
      status <- get input "status" ;;
      if truthy status
         && negb (existsb (ServerlessTransport.strict_eq_str status) statuses)
      then Throw (Types.ValidationError
                    "Sample status must be one of: active, inactive, pending")
      else
        metadata <- get input "metadata" ;;
        if truthy metadata && not_typeof_object metadata
        then Throw (Types.ValidationError "Sample metadata must be an object")
        else Normal tt.

(** [SampleEntity.create] of the four fields read from the input. *)
Definition sampleData (input : JsValue) : JsValue :=
  JObj [ ("name", get_opt input "name");
         ("description", get_opt input "description");
         ("status", or_else (get_opt input "status") (JStr "pending"));
         ("metadata", get_opt input "metadata") ].

Definition execute (input : JsValue) (ident : string) (now : JsValue)
           (collection : list Entity) : Completion Entity * list Entity :=
  match validateInput input with
  | Throw e => (Throw e, collection)
  | Normal _ =>
      let '(createdSample, collection') := create (sampleData input) ident now collection in
      (Normal createdSample, collection')
  end.

End CreateSampleUseCase.

(** [application/services/sample.service.ts], the service that throws. *)
Module SampleServiceV1.
Import ObjectRepository.

Definition getById (ident : string) (collection : list Entity) : Completion Entity :=
  try_catch (GetSampleUseCase.execute ident collection) (fun error => Throw error).

Definition update (ident : string) (data now : JsValue) (collection : list Entity)
  : Completion Entity * list Entity :=
  match getById ident collection with
  | Throw error => (Throw error, collection)
  | Normal _ =>
      match ObjectRepository.update ident data now collection with
      | (None, collection') =>
          (Throw (Types.NotFoundError "Sample" (Some ident)), collection')
      | (Some updatedSample, collection') => (Normal updatedSample, collection')
      end
  end.

Definition delete (ident : string) (collection : list Entity)
  : Completion bool * list Entity :=
  match getById ident collection with
  | Normal _ =>
      let '(result, collection') := ObjectRepository.delete ident collection in
      (Normal result, collection')
  | Throw error =>
      if instanceof error "NotFoundError" then (Normal true, collection)
      else (Throw error, collection)
  end.

End SampleServiceV1.

(** [application/services/sample.service.ts], the service that answers
    with envelopes. *)
Module SampleServiceV2.
Import ObjectRepository Types.

Definition failure (c : string) (error : JsValue) : IServiceResponse :=
  {| success := false; data := None;
     error := Some {| code := JStr c; message := get_opt error "message" |} |}.

Definition succeed (v : JsValue) : IServiceResponse :=
  {| success := true; data := Some v; error := None |}.

Definition get (ident : string) (collection : list Entity) : IServiceResponse :=
  match GetSampleUseCase.execute ident collection with
  | Normal sample => succeed (JObj sample)
  | Throw error =>
      if instanceof error "NotFoundError" then failure "NOT_FOUND" error
      else failure "INTERNAL_ERROR" error
  end.

Definition create (input : JsValue) (ident : string) (now : JsValue)
           (collection : list Entity) : IServiceResponse * list Entity :=
  match CreateSampleUseCase.execute input ident now collection with
  | (Normal sample, collection') => (succeed (JObj sample), collection')
  | (Throw error, collection') =>
      if instanceof error "ValidationError"
      then (failure "VALIDATION_ERROR" error, collection')
      else (failure "INTERNAL_ERROR" error, collection')
  end.

Definition not_found_or_internal (error : JsValue) : IServiceResponse :=
  if instanceof error "NotFoundError" then failure "NOT_FOUND" error
  else failure "INTERNAL_ERROR" error.

Definition update (ident : string) (data now : JsValue) (collection : list Entity)
  : IServiceResponse * list Entity :=
  match findById ident collection with
  | None => (not_found_or_internal (NotFoundError "Sample" (Some ident)), collection)
  | Some _ =>
      match ObjectRepository.update ident data now collection with
      | (None, collection') =>
          (not_found_or_internal (NotFoundError "Sample" (Some ident)), collection')
      | (Some updatedSample, collection') => (succeed (JObj updatedSample), collection')
      end
  end.

Definition delete (ident : string) (collection : list Entity)
  : IServiceResponse * list Entity :=
  match findById ident collection with
  | None => (not_found_or_internal (NotFoundError "Sample" (Some ident)), collection)
  | Some _ =>
      let '(result, collection') := ObjectRepository.delete ident collection in
      (succeed (JBool result), collection')
  end.

End SampleServiceV2.

(** ** Creating a sample *)

(** The inputs [validateInput] lets through. *)
Definition acceptable (input : JsValue) : Prop :=
  (exists n, get_opt input "name" = JStr n /\ CreateSampleUseCase.blank n = false /\ String.length n <= 100)
  /\ (exists d, get_opt input "description" = JStr d /\ CreateSampleUseCase.blank d = false)
  /\ (truthy (get_opt input "status") = false
      \/ exists s, get_opt input "status" = JStr s /\ In s CreateSampleUseCase.statuses)
  /\ (truthy (get_opt input "metadata") = false
      \/ CreateSampleUseCase.not_typeof_object (get_opt input "metadata") = false).

(** ** What a computation throws *)

(** Whatever [c] throws has properties: it is not [null] or [undefined]. *)
Definition throws_objects {A : Type} (c : Completion A) : Prop :=
  match c with
  | Normal _ => True
  | Throw e => nullish e = false
  end.

(** ** Paths *)

(** No code unit of [s] is a slash. *)
Definition slash_free (s : string) : bool :=
  forallb (fun c => negb (Ascii.eqb c "/"%char)) (list_ascii_of_string s).

(** [s] is a non-empty run of decimal digits. *)
Definition all_digits (s : string) : bool := all_of is_digit (list_ascii_of_string s).

(** ** More concrete brokers *)

Module MoreExamples.

(** A broker whose call is rejected with a coded error. *)
Definition coded : JsValue :=
  JObj [("code", JNum 404); ("message", JStr "Service 'sample.get' is not found.")].

Definition coded_broker (_ : string) (_ _ : JsValue) : Completion JsValue :=
  Throw coded.

(** What [parseEvent] makes of [Examples.direct_event]. *)
Definition direct_invocation : ServerlessTransport.Invocation :=
  {| ServerlessTransport.service := JStr "sample";
     ServerlessTransport.action := JStr "get";
     ServerlessTransport.params := JObj [("id", JStr "1")];
     ServerlessTransport.meta := JUndefined |}.

End MoreExamples.

(* ===================================================================== *)
(** * [src/config] (the first half of [repositories/index.ts]) *)
(* ===================================================================== *)

Module Config.

(** [process.env] *)
Definition Env : Type := string -> option string.

Definition not_set (key : string) : JsValue :=
  Error ("Environment variable " ++ key ++ " is not set").

(** [getEnv]: [process.env[key] || defaultValue], an error when that is
    [undefined]. *)
Definition getEnv (env : Env) (key : string) (defaultValue : option string)
  : Completion string :=
  let value := match env key with
               | Some v => if truthy (JStr v) then Some v else defaultValue
               | None => defaultValue
               end in
  match value with
  | Some v => Normal v
  | None => Throw (not_set key)
  end.

(** The Numbers [parseInt] returns: the integer-valued ones, [NaN], and
    the two infinities, which the value model leaves out. *)
Inductive Number : Type :=
| Finite (z : Z)
| NaN
| Infinity (negative : bool).

(** The Number for the natural number [v] under a sign: the nearest
    Number, which is infinite from [2^1024 - 2^970] on. *)
Definition Number_of (negative : bool) (v : Z) : Number :=
  let r := round_double v in
  if (2 ^ 1024 <=? r)%Z then Infinity negative
  else Finite (if negative then - r else r).

(** [parseInt(s, 10)]: leading white space, a sign, and the longest run
    of digits; [NaN] without a digit. *)
Definition parseInt (s : string) : Number :=
  let l := trim_left (list_ascii_of_string s) in
  let '(negative, rest) :=
    match l with
    | c :: r => if Ascii.eqb c "-"%char then (true, r)
                else if Ascii.eqb c "+"%char then (false, r)
                else (false, l)
    | [] => (false, [])
    end in
  match fst (span_digits rest) with
  | [] => NaN
  | digits => Number_of negative (digits_value digits)
  end.

(** [getNumericEnv]; [None] is the result [undefined], which an absent
    default gives. *)
Definition getNumericEnv (env : Env) (key : string) (defaultValue : option Number)
  : Completion (option Number) :=
  match env key, defaultValue with
  | None, None => Throw (not_set key)
  | None, Some _ => Normal defaultValue
  | Some value, _ => if truthy (JStr value) then Normal (Some (parseInt value))
                     else Normal defaultValue
  end.

(** [String.prototype.toLowerCase] on code units below 256. *)
Definition lower (c : ascii) : ascii :=
  let n := nat_of_ascii c in
  if in_range 65 90 c || (in_range 192 222 c && negb (Nat.eqb n 215))
  then ascii_of_nat (n + 32) else c.

Fixpoint toLowerCase (s : string) : string :=
  match s with
  | EmptyString => EmptyString
  | String c rest => String (lower c) (toLowerCase rest)
  end.

Definition getBooleanEnv (env : Env) (key : string) (defaultValue : bool) : bool :=
  match env key with
  | None => defaultValue
  | Some value => existsb (String.eqb (toLowerCase value)) ["true"; "1"; "yes"]
  end.

End Config.

(* ===================================================================== *)
(** * The circuit breaker's failure predicate, [molecular.config.ts] *)
(* ===================================================================== *)

Module CircuitBreaker.

(** [err && err.hasOwnProperty('code') ? err.code >= 500 : false] *)
Definition failure_check (err : JsValue) : Completion JsValue :=
  if truthy err then
    own <- hasOwnProperty err "code" ;;
    if truthy own then
      c <- get err "code" ;;
      counts <- at_least_500 c ;;
      Normal (JBool counts)
    else Normal (JBool false)
  else Normal (JBool false).

End CircuitBreaker.

(* ===================================================================== *)
(** * [src/domain/entities/sample.entity.ts] *)
(* ===================================================================== *)

Module SampleEntity.

(** The fields of an instance. *)
Record t : Type :=
  { id : JsValue; name : JsValue; description : JsValue; status : JsValue;
    metadata : JsValue; createdAt : JsValue; updatedAt : JsValue }.

(** [!this.f || this.f.trim().length === 0] *)
Definition empty (field : string) (v : JsValue) : Completion bool :=
  if negb (truthy v) then Normal true
  else match v with
       | JStr s => Normal (CreateSampleUseCase.blank s)
       | _ => Throw (TypeError ("this." ++ field ++ ".trim is not a function"))
       end.

Definition validate (e : t) : Completion unit :=
  noName <- empty "name" (name e) ;;
  if noName then Throw (Error "Sample name cannot be empty")
  else
    noDescription <- empty "description" (description e) ;;
    if noDescription then Throw (Error "Sample description cannot be empty")
    else if negb (existsb (ServerlessTransport.strict_eq_str (status e))
                          CreateSampleUseCase.statuses)
    then Throw (Error "Sample status must be one of: active, inactive, pending")
    else Normal tt.

(** [new SampleEntity(data)] *)
Definition construct (data : JsValue) : Completion t :=
  i <- get data "id" ;;
  n <- get data "name" ;;
  d <- get data "description" ;;
  s <- get data "status" ;;
  m <- get data "metadata" ;;
  c <- get data "createdAt" ;;
  u <- get data "updatedAt" ;;
  let e := {| id := i; name := n; description := d; status := s; metadata := m;
              createdAt := c; updatedAt := u |} in
  _ <- validate e ;;
  Normal e.

Definition with_status (s : string) (now : JsValue) (e : t) : t :=
  {| id := id e; name := name e; description := description e; status := JStr s;
     metadata := metadata e; createdAt := createdAt e; updatedAt := now |}.

(** [activate], [deactivate], [setPending]; [now] is [new Date()]. *)
Definition activate : JsValue -> t -> t := with_status "active".
Definition deactivate : JsValue -> t -> t := with_status "inactive".
Definition setPending : JsValue -> t -> t := with_status "pending".

(** [v !== undefined ? v : old] *)
Definition defined_or (v old : JsValue) : JsValue :=
  match v with
  | JUndefined => old
  | _ => v
  end.

(** [update(data)]: the completion and the instance afterwards. *)
Definition update (data now : JsValue) (e : t) : Completion unit * t :=
  match (n <- get data "name" ;; d <- get data "description" ;;
         m <- get data "metadata" ;; Normal (n, d, m)) with
  | Throw err => (Throw err, e)
  | Normal (n, d, m) =>
      let e' := {| id := id e;
                   name := defined_or n (name e);
                   description := defined_or d (description e);
                   status := status e;
                   metadata := defined_or m (metadata e);
                   createdAt := createdAt e;
                   updatedAt := now |} in
      (validate e', e')
  end.

Definition toJSON (e : t) : JsValue :=
  JObj [ ("id", id e); ("name", name e); ("description", description e);
         ("status", status e); ("metadata", metadata e);
         ("createdAt", createdAt e); ("updatedAt", updatedAt e) ].

End SampleEntity.

(* ===================================================================== *)
(** * Properties *)
(* ===================================================================== *)

(** ** The repository *)

Section RepositoryFacts.

Import BaseRepository.
Context {T : Type} `{IEntity T}.

Lemma filter_is_without (ident : string) (l : list T) :
  filter (fun entity => negb (String.eqb (id entity) ident)) l = without ident l.
Proof.
  induction l as [| e l IH]; simpl; [reflexivity |].
  destruct (String.eqb (id e) ident); simpl; now rewrite IH.
Qed.

Lemma without_length (ident : string) (l : list T) :
  List.length (without ident l) <= List.length l.
Proof.
  induction l as [| e l IH]; simpl; [lia |].
  destruct (String.eqb (id e) ident); simpl; lia.
Qed.

Lemma without_shorter_iff (ident : string) (l : list T) :
  List.length (without ident l) < List.length l
  <-> exists entity, In entity l /\ id entity = ident.
Proof.
  induction l as [| e l IH]; simpl.
  - split; [lia | intros [x [[] _]]].
  - destruct (String.eqb_spec (id e) ident) as [Heq | Hne]; simpl.
    + split; [intros _; exists e; auto |].
      intros _. pose proof (without_length ident l). lia.
    + rewrite <- Nat.succ_lt_mono, IH. split.
      * intros [x [Hin Hx]]. exists x; auto.
      * intros [x [[-> | Hin] Hx]]; [contradiction | exists x; auto].
Qed.

Lemma in_without (ident : string) (l : list T) (entity : T) :
  In entity (without ident l) <-> In entity l /\ id entity <> ident.
Proof.
  induction l as [| e l IH]; simpl; [tauto |].
  destruct (String.eqb_spec (id e) ident) as [Heq | Hne]; simpl; rewrite ?IH.
  - split; [tauto |]. intros [[-> | Hin] Hx]; [contradiction | tauto].
  - split; [intros [-> | [Hin Hx]]; auto |]. tauto.
Qed.

(** C10: [delete(id)] returns [true] exactly when an entity with that id
    was in the collection, and afterwards the collection is the former
    one with every entity bearing that id taken out: the other entities
    stay, in their order, and nothing else of the repository changes. *)
Theorem delete_removes_exactly_the_id (ident : string) (repo : Repository T) :
  (fst (delete ident repo) = true
   <-> exists entity, In entity (collection repo) /\ id entity = ident)
  /\ collection (snd (delete ident repo)) = without ident (collection repo)
  /\ (forall entity,
        In entity (collection (snd (delete ident repo)))
        <-> In entity (collection repo) /\ id entity <> ident)
  /\ entityName (snd (delete ident repo)) = entityName repo.
Proof.
  unfold delete; simpl. rewrite filter_is_without.
  split; [| split; [reflexivity | split; [| reflexivity]]].
  - rewrite Nat.ltb_lt. apply without_shorter_iff.
  - intros entity. apply in_without.
Qed.

End RepositoryFacts.

Example delete_present :
  let e (i : string) :=
    {| BaseRepository.sample_id := i; BaseRepository.sample_createdAt := 0;
       BaseRepository.sample_updatedAt := 0; BaseRepository.name := i;
       BaseRepository.description := ""; BaseRepository.status := "active" |} in
  let repo := {| BaseRepository.collection := [e "a"; e "b"; e "a"; e "c"];
                 BaseRepository.entityName := "Sample" |} in
  BaseRepository.delete "a" repo
  = (true, {| BaseRepository.collection := [e "b"; e "c"];
              BaseRepository.entityName := "Sample" |})
  /\ BaseRepository.delete "z" repo = (false, repo).
Proof. split; reflexivity. Qed.

(** ** Values *)

Lemma get_defined (v : JsValue) (k : string) :
  nullish v = false -> get v k = Normal (get_opt v k).
Proof.
  destruct v; simpl; try discriminate; intros _; try reflexivity.
  - destruct (String.eqb k "length"); [reflexivity |].
    destruct (index_of_key k); reflexivity.
  - destruct (String.eqb k "length"); [reflexivity |].
    destruct (index_of_key k); reflexivity.
Qed.

Lemma truthy_not_nullish (v : JsValue) : truthy v = true -> nullish v = false.
Proof. destruct v; simpl; congruence. Qed.

Lemma lookup_app {X : Type} (k : string) (ps qs : list (string * X)) :
  lookup k (ps ++ qs)
  = match lookup k qs with
    | Some v => Some v
    | None => lookup k ps
    end.
Proof.
  induction ps as [| [k' v] ps IH]; simpl.
  - destruct (lookup k qs); reflexivity.
  - rewrite IH. destruct (lookup k qs); reflexivity.
Qed.

(** ** The retry predicate *)

Lemma hasOwnProperty_plain (err : JsValue) (k : string) :
  truthy err = true ->
  shadows_hasOwnProperty err = false ->
  hasOwnProperty err k = Normal (JBool (HasOwnProperty err k)).
Proof.
  destruct err as [| | b | z | | s | xs | ps]; try discriminate; try reflexivity.
  intros _. cbn [shadows_hasOwnProperty hasOwnProperty].
  destruct (lookup "hasOwnProperty" ps); [discriminate | reflexivity].
Qed.

Lemma hasOwnProperty_shadowed (err : JsValue) (k : string) :
  shadows_hasOwnProperty err = true ->
  truthy err = true
  /\ hasOwnProperty err k = Throw (TypeError "err.hasOwnProperty is not a function").
Proof.
  destruct err as [| | b | z | | s | xs | ps]; try discriminate.
  cbn [shadows_hasOwnProperty hasOwnProperty truthy].
  destruct (lookup "hasOwnProperty" ps); [split; reflexivity | discriminate].
Qed.

(** C6 (as the code has it): the retry predicate answers with the error's
    own [retryable] property when the error has one and with [true]
    otherwise.  It asks through [err.hasOwnProperty], so for an object
    that carries an own property of that name it throws a [TypeError]
    instead of answering.  An error is classified as not to be retried
    exactly when it does not shadow [hasOwnProperty] and carries an own
    [retryable] property that is falsy, and the [NotFoundError] and
    [ValidationError] of [src/types/index.ts], which define no such
    property, are classified as retryable. *)
Theorem retryable_check_reads_own_property :
  (forall err,
      shadows_hasOwnProperty err = false ->
      MoleculerConfig.retryable_check err
      = Normal (if truthy err && HasOwnProperty err "retryable"
                then get_opt err "retryable" else JBool true))
  /\ (forall err,
        shadows_hasOwnProperty err = true ->
        MoleculerConfig.retryable_check err
        = Throw (TypeError "err.hasOwnProperty is not a function"))
  /\ (forall err,
        non_retryable err
        <-> truthy err = true
            /\ shadows_hasOwnProperty err = false
            /\ HasOwnProperty err "retryable" = true
            /\ truthy (get_opt err "retryable") = false)
  /\ (forall entity ident,
        MoleculerConfig.retryable_check (Types.NotFoundError entity ident)
        = Normal (JBool true))
  /\ (forall message,
        MoleculerConfig.retryable_check (Types.ValidationError message)
        = Normal (JBool true)).
Proof.
  assert (Hform : forall err,
      shadows_hasOwnProperty err = false ->
      MoleculerConfig.retryable_check err
      = Normal (if truthy err && HasOwnProperty err "retryable"
                then get_opt err "retryable" else JBool true)).
  { intros err Hplain. unfold MoleculerConfig.retryable_check.
    destruct (truthy err) eqn:Ht; [| reflexivity].
    rewrite (hasOwnProperty_plain err "retryable" Ht Hplain). cbn [bind truthy andb].
    destruct (HasOwnProperty err "retryable"); [| reflexivity].
    apply get_defined. now apply truthy_not_nullish. }
  assert (Hthrow : forall err,
      shadows_hasOwnProperty err = true ->
      MoleculerConfig.retryable_check err
      = Throw (TypeError "err.hasOwnProperty is not a function")).
  { intros err Hshadow. unfold MoleculerConfig.retryable_check.
    destruct (hasOwnProperty_shadowed err "retryable" Hshadow) as [Ht Hcall].
    now rewrite Ht, Hcall. }
  split; [exact Hform |]. split; [exact Hthrow |]. split; [| split].
  - intros err. unfold non_retryable.
    destruct (shadows_hasOwnProperty err) eqn:Hshadow.
    + rewrite (Hthrow err Hshadow). split.
      * intros [answer [Heq _]]. discriminate.
      * intros [_ [Habs _]]. discriminate.
    + rewrite (Hform err Hshadow). split.
      * intros [answer [Heq Hfalsy]]. inversion Heq as [Hans]; clear Heq.
        destruct (truthy err); simpl in *;
          [destruct (HasOwnProperty err "retryable") |]; subst answer;
          simpl in Hfalsy; try discriminate.
        auto.
      * intros [Ht [_ [Hown Hfalsy]]]. rewrite Ht, Hown. simpl.
        exists (get_opt err "retryable"). auto.
  - intros entity ident. reflexivity.
  - intros message. reflexivity.
Qed.

Example shadowed_hasOwnProperty_throws :
  MoleculerConfig.retryable_check
    (JObj [("hasOwnProperty", JNum 1); ("retryable", JBool false)])
  = Throw (TypeError "err.hasOwnProperty is not a function")
  /\ MoleculerConfig.retryable_check (JObj [("retryable", JBool false)])
     = Normal (JBool false)
  /\ MoleculerConfig.retryable_check (JStr "timeout") = Normal (JBool true)
  /\ MoleculerConfig.retryable_check JNull = Normal (JBool true).
Proof. repeat split; reflexivity. Qed.

(** C6 (as stated) fails: a [NotFoundError] is not classified as
    non-retryable. *)
Lemma not_found_error_is_retried :
  ~ non_retryable (Types.NotFoundError "Sample" (Some "42")).
Proof.
  intros [answer [Heq Hfalsy]].
  vm_compute in Heq. inversion Heq; subst. discriminate.
Qed.

(** ** The serverless handler *)

Section HandlerFacts.

Import ServerlessTransport Types.

Variable JSON_parse : JsValue -> Completion JsValue.
Variable broker_call : string -> JsValue -> JsValue -> Completion JsValue.
Variable now : Z.
Variable cfg : Settings.

(** What the [catch] block returns and logs for a thrown value that has
    properties. *)
Lemma catch_block_defined (ev err : JsValue) :
  nullish err = false ->
  catch_block ev err
  = (Normal {| success := false;
               data := None;
               error := Some {| code := or_else (get_opt err "code") (JStr "INTERNAL_ERROR");
                                message := or_else (get_opt err "message") generic_message |} |},
     [LogError (JObj [("error", get_opt err "message"); ("stack", get_opt err "stack");
                      ("event", ev)])
               "Error processing serverless event"]).
Proof.
  intros Hn. unfold catch_block. rewrite !(get_defined err) by exact Hn.
  reflexivity.
Qed.

Lemma or_else_truthy (a b : JsValue) : truthy b = true -> truthy (or_else a b) = true.
Proof. unfold or_else. destruct (truthy a) eqn:Ha; auto. Qed.

(** C1 (as the code has it): when the [try] block throws a value that
    carries no truthy [code], the handler returns the envelope
    [{success: false, error: {code: 'INTERNAL_ERROR', message}}] whose
    message is the thrown value's own [message] when that is truthy and
    the generic text otherwise; the message is never empty, and the stack
    goes to the log entry only: the envelope has no field for it. *)
Theorem uncoded_error_maps_to_internal_error
        (ctx : Context) (err : JsValue) (effs : list Effect) :
  try_block JSON_parse broker_call now cfg (event ctx) (context_or_default ctx) (id ctx)
  = (Throw err, effs) ->
  nullish err = false ->
  truthy (get_opt err "code") = false ->
  handler JSON_parse broker_call now cfg ctx
  = (Normal {| success := false;
               data := None;
               error := Some {| code := JStr "INTERNAL_ERROR";
                                message := or_else (get_opt err "message") generic_message |} |},
     effs ++ [LogError (JObj [("error", get_opt err "message");
                              ("stack", get_opt err "stack");
                              ("event", event ctx)])
                       "Error processing serverless event"])%list
  /\ truthy (or_else (get_opt err "message") generic_message) = true.
Proof.
  intros Htry Hn Hcode. split.
  - unfold handler. rewrite Htry, (catch_block_defined _ _ Hn).
    unfold or_else at 1. rewrite Hcode. reflexivity.
  - now apply or_else_truthy.
Qed.

(** C3 (as the code has it): an event whose serialized size exceeds the
    configured maximum is answered with the error envelope of the error
    the size check throws.  That is a plain [Error]: the envelope carries
    the catch-all code [INTERNAL_ERROR], and only its message, which names
    the size and the limit, tells the size limit.  Nothing but the log
    entry of that error happens: the event is not parsed and the broker
    is not called. *)
Theorem oversized_event_is_rejected (ctx : Context) (text : string) :
  stringify (event ctx) = Some text ->
  (utf8_length text > maxPayloadSize cfg)%Z ->
  let limit_message :=
    "Payload size exceeds maximum allowed (" ++ Number_toString (utf8_length text)
      ++ " > " ++ Number_toString (maxPayloadSize cfg) ++ ")" in
  handler JSON_parse broker_call now cfg ctx
  = (Normal {| success := false;
               data := None;
               error := Some {| code := JStr "INTERNAL_ERROR";
                                message := JStr limit_message |} |},
     [LogError (JObj [("error", JStr limit_message);
                      ("stack", JStr ("Error: " ++ limit_message ++ newline
                                        ++ "    at <anonymous>"));
                      ("event", event ctx)])
               "Error processing serverless event"])
  /\ (forall target p opts,
         ~ In (BrokerCall target p opts) (snd (handler JSON_parse broker_call now cfg ctx))).
Proof.
  intros Hs Hgt limit_message.
  assert (Hh : handler JSON_parse broker_call now cfg ctx
               = (Normal {| success := false;
                            data := None;
                            error := Some {| code := JStr "INTERNAL_ERROR";
                                             message := JStr limit_message |} |},
                  [LogError (JObj [("error", JStr limit_message);
                                   ("stack", JStr ("Error: " ++ limit_message ++ newline
                                                     ++ "    at <anonymous>"));
                                   ("event", event ctx)])
                            "Error processing serverless event"])).
  { unfold handler, try_block, prepare, getEventSize, JSON_stringify.
    rewrite Hs. simpl.
    apply Z.gtb_gt in Hgt. rewrite Hgt. reflexivity. }
  split; [exact Hh |].
  rewrite Hh. simpl. intros target p opts [Heq | []]. discriminate.
Qed.

End HandlerFacts.

(** C1 (as stated) fails: a broker call rejected with a plain [Error]
    carries no code, and the envelope repeats the error's own message
    instead of the generic one. *)
Lemma original_message_reaches_the_envelope :
  ServerlessTransport.try_block reference_parse Examples.refusing_broker 0
      ServerlessTransport.settings Examples.direct_event (JObj []) (JStr "ctx-1")
  = (Throw Examples.refused, Examples.direct_effects)
  /\ truthy (get_opt Examples.refused "code") = false
  /\ fst (ServerlessTransport.handler reference_parse Examples.refusing_broker 0
            ServerlessTransport.settings Examples.direct_ctx)
     = Normal {| Types.success := false;
                 Types.data := None;
                 Types.error :=
                   Some {| Types.code := JStr "INTERNAL_ERROR";
                           Types.message := JStr "connect ECONNREFUSED 10.0.0.5:5432" |} |}
  /\ JStr "connect ECONNREFUSED 10.0.0.5:5432" <> generic_message.
Proof.
  repeat split; try (vm_compute; reflexivity). discriminate.
Qed.

(** Numbers are serialized as [Number::toString] writes them: the event
    [{n: 1e21}] measures 11 bytes, not 28, and passes a limit of 16. *)
Example large_numbers_are_measured_in_exponent_form :
  ToString (JNum (10 ^ 21)) = Normal "1e+21"
  /\ ToString (JNum (2 ^ 64)) = Normal "18446744073709552000"
  /\ ToString (JNum (- 2 ^ 70)) = Normal "-1.1805916207174113e+21"
  /\ ServerlessTransport.getEventSize (JObj [("n", JNum (10 ^ 21))]) = Normal 11%Z
  /\ fst (ServerlessTransport.handler reference_parse Examples.echo_broker 0
             Examples.small
             {| ServerlessTransport.event := JObj [("n", JNum (10 ^ 21))];
                ServerlessTransport.context := JUndefined;
                ServerlessTransport.id := JStr "ctx-1" |})
     = Normal {| Types.success := true;
                 Types.data := Some (JObj [("n", JNum (10 ^ 21))]);
                 Types.error := None |}.
Proof. repeat split; vm_compute; reflexivity. Qed.

(** C3 (as stated) fails: the error of the size limit is not a dedicated
    one.  The envelope for the 55 bytes of [Examples.direct_event] against
    a limit of 16 carries the code [INTERNAL_ERROR], the code a refused
    broker call gets as well; the thrown error has no code of its own. *)
Lemma size_limit_error_has_the_catch_all_code :
  ServerlessTransport.getEventSize Examples.direct_event = Normal 55%Z
  /\ (55 > ServerlessTransport.maxPayloadSize Examples.small)%Z
  /\ get_opt (ServerlessTransport.size_error Examples.small 55) "code" = JUndefined
  /\ (exists message,
         fst (ServerlessTransport.handler reference_parse Examples.echo_broker 0
                Examples.small Examples.direct_ctx)
         = Normal {| Types.success := false;
                     Types.data := None;
                     Types.error := Some {| Types.code := JStr "INTERNAL_ERROR";
                                            Types.message := message |} |})
  /\ (exists message,
         fst (ServerlessTransport.handler reference_parse Examples.refusing_broker 0
                ServerlessTransport.settings Examples.direct_ctx)
         = Normal {| Types.success := false;
                     Types.data := None;
                     Types.error := Some {| Types.code := JStr "INTERNAL_ERROR";
                                            Types.message := message |} |}).
Proof.
  split; [reflexivity |]. split; [reflexivity |]. split; [reflexivity |].
  split; eexists; vm_compute; reflexivity.
Qed.

(** C1, run: the rejected call of [Examples.direct_ctx]. *)
Lemma uncoded_error_witness :
  ServerlessTransport.try_block reference_parse Examples.refusing_broker 0
      ServerlessTransport.settings
      (ServerlessTransport.event Examples.direct_ctx)
      (ServerlessTransport.context_or_default Examples.direct_ctx)
      (ServerlessTransport.id Examples.direct_ctx)
  = (Throw Examples.refused, Examples.direct_effects)
  /\ ServerlessTransport.handler reference_parse Examples.refusing_broker 0
        ServerlessTransport.settings Examples.direct_ctx
     = (Normal {| Types.success := false;
                  Types.data := None;
                  Types.error :=
                    Some {| Types.code := JStr "INTERNAL_ERROR";
                            Types.message :=
                              or_else (get_opt Examples.refused "message")
                                      generic_message |} |},
        (Examples.direct_effects
           ++ [ServerlessTransport.LogError
                 (JObj [("error", get_opt Examples.refused "message");
                        ("stack", get_opt Examples.refused "stack");
                        ("event", ServerlessTransport.event Examples.direct_ctx)])
                 "Error processing serverless event"])%list)
  /\ truthy (or_else (get_opt Examples.refused "message") generic_message) = true.
Proof.
  assert (Htry : ServerlessTransport.try_block reference_parse Examples.refusing_broker 0
                   ServerlessTransport.settings
                   (ServerlessTransport.event Examples.direct_ctx)
                   (ServerlessTransport.context_or_default Examples.direct_ctx)
                   (ServerlessTransport.id Examples.direct_ctx)
                 = (Throw Examples.refused, Examples.direct_effects))
    by (vm_compute; reflexivity).
  split; [exact Htry |].
  apply (uncoded_error_maps_to_internal_error reference_parse Examples.refusing_broker 0
           ServerlessTransport.settings Examples.direct_ctx Examples.refused
           Examples.direct_effects Htry); reflexivity.
Defined.

(** C3, run: the 55 bytes of [Examples.direct_event] against a limit of
    16. *)
Lemma oversized_event_witness :
  stringify (ServerlessTransport.event Examples.direct_ctx) = Some Examples.direct_text
  /\ (utf8_length Examples.direct_text
      > ServerlessTransport.maxPayloadSize Examples.small)%Z
  /\ ServerlessTransport.handler reference_parse Examples.echo_broker 0 Examples.small
        Examples.direct_ctx
     = (Normal {| Types.success := false;
                  Types.data := None;
                  Types.error :=
                    Some {| Types.code := JStr "INTERNAL_ERROR";
                            Types.message :=
                              JStr "Payload size exceeds maximum allowed (55 > 16)" |} |},
        [ServerlessTransport.LogError
           (JObj [("error", JStr "Payload size exceeds maximum allowed (55 > 16)");
                  ("stack", JStr ("Error: Payload size exceeds maximum allowed (55 > 16)"
                                    ++ newline ++ "    at <anonymous>"));
                  ("event", Examples.direct_event)])
           "Error processing serverless event"]).
Proof.
  assert (Hs : stringify (ServerlessTransport.event Examples.direct_ctx)
               = Some Examples.direct_text) by reflexivity.
  assert (Hgt : (utf8_length Examples.direct_text
                 > ServerlessTransport.maxPayloadSize Examples.small)%Z) by reflexivity.
  split; [exact Hs | split; [exact Hgt |]].
  exact (proj1 (oversized_event_is_rejected reference_parse Examples.echo_broker 0
                  Examples.small Examples.direct_ctx Examples.direct_text Hs Hgt)).
Defined.

(** ** Objects *)

Lemma lookup_single_keys {X : Type} (ps : list (string * X)) (keys : list string)
      (k : string) :
  lookup k (flat_map (fun k' => match lookup k' ps with
                                | Some v => [(k', v)]
                                | None => []
                                end) keys)
  = if existsb (String.eqb k) keys then lookup k ps else None.
Proof.
  induction keys as [| a keys IH]; simpl; [reflexivity |].
  rewrite lookup_app, IH.
  destruct (String.eqb_spec k a) as [-> | Hne]; simpl.
  - destruct (existsb (String.eqb a) keys).
    + destruct (lookup a ps); reflexivity.
    + destruct (lookup a ps); simpl; [now rewrite String.eqb_refl | reflexivity].
  - destruct (existsb (String.eqb k) keys).
    + destruct (lookup k ps); [reflexivity |].
      destruct (lookup a ps); simpl; [| reflexivity].
      destruct (String.eqb_spec k a); [contradiction | reflexivity].
    + destruct (lookup a ps); simpl; [| reflexivity].
      destruct (String.eqb_spec k a); [contradiction | reflexivity].
Qed.

Lemma lookup_some_in {X : Type} (k : string) (ps : list (string * X)) (v : X) :
  lookup k ps = Some v -> In k (map fst ps).
Proof.
  revert v. induction ps as [| [k' w] ps IH]; simpl; intros v; [discriminate |].
  destruct (lookup k ps) as [x |] eqn:Hrest.
  - intros _. right. exact (IH x eq_refl).
  - destruct (String.eqb_spec k k'); [intros _; now left | discriminate].
Qed.

Lemma in_dedupe (k : string) (ks seen : list string) :
  In k ks -> In k seen \/ In k (dedupe seen ks).
Proof.
  revert seen. induction ks as [| a ks IH]; simpl; intros seen; [tauto |].
  intros [-> | Hin].
  - destruct (existsb (String.eqb k) seen) eqn:Hex.
    + left. apply existsb_exists in Hex. destruct Hex as [x [Hx Heq]].
      apply String.eqb_eq in Heq. now subst.
    + right. now left.
  - destruct (existsb (String.eqb a) seen).
    + now apply IH.
    + destruct (IH (a :: seen) Hin) as [[-> | Hs] | Hd]; simpl; auto.
Qed.

Lemma in_insert_sorted (x n : nat) (l : list nat) :
  In x (insert_sorted n l) <-> x = n \/ In x l.
Proof.
  induction l as [| m l IH]; simpl; [intuition |].
  destruct (Nat.leb n m); simpl; rewrite ?IH; intuition.
Qed.

Lemma in_sort_indices (x : nat) (l : list nat) :
  In x l -> In x (sort_indices l).
Proof.
  induction l as [| n l IH]; simpl; [tauto |].
  intros [-> | Hin]; apply in_insert_sorted; auto.
Qed.

Lemma index_of_key_spelling (k : string) (n : nat) :
  index_of_key k = Some n -> string_of_nat n = k.
Proof.
  unfold index_of_key. destruct (NilEmpty.uint_of_string k); [| discriminate].
  destruct (N.ltb (N.of_uint u) 4294967295); [| discriminate]. cbn [andb].
  destruct (String.eqb_spec (string_of_nat (N.to_nat (N.of_uint u))) k); [| discriminate].
  intros Heq. congruence.
Qed.

Lemma own_keys_complete {X : Type} (k : string) (ps : list (string * X)) (v : X) :
  lookup k ps = Some v -> existsb (String.eqb k) (own_keys ps) = true.
Proof.
  intros Hl. apply existsb_exists. exists k. split; [| apply String.eqb_refl].
  apply lookup_some_in in Hl.
  destruct (in_dedupe k (map fst ps) [] Hl) as [[] | Hd].
  unfold own_keys. apply in_or_app.
  destruct (index_of_key k) as [n |] eqn:Hidx.
  - left. rewrite <- (index_of_key_spelling k n Hidx).
    apply in_map, in_sort_indices. unfold index_keys.
    apply in_flat_map. exists k. split; [assumption |].
    rewrite Hidx. now left.
  - right. apply filter_In. split; [assumption |].
    unfold is_index_key. now rewrite Hidx.
Qed.

Lemma lookup_own_entries {X : Type} (k : string) (ps : list (string * X)) :
  lookup k (own_entries ps) = lookup k ps.
Proof.
  unfold own_entries. rewrite lookup_single_keys.
  destruct (lookup k ps) as [v |] eqn:Hl.
  - now rewrite (own_keys_complete k ps v Hl).
  - now destruct (existsb (String.eqb k) (own_keys ps)).
Qed.

(** Reading a property of an object literal: the last definition counts. *)
Lemma get_opt_object (defs : list (string * JsValue)) (k : string) :
  get_opt (object defs) k = from_option (lookup k defs).
Proof. unfold object. simpl. now rewrite lookup_own_entries. Qed.

Lemma get_normal_inv (v w : JsValue) (k : string) :
  get v k = Normal w -> nullish v = false /\ get_opt v k = w.
Proof.
  intros Hg. assert (Hn : nullish v = false) by (destruct v; simpl in *; congruence).
  split; [exact Hn |]. rewrite (get_defined v k Hn) in Hg. now inversion Hg.
Qed.

(** ** The serverless adapter: API-Gateway events *)

Section AdapterFacts.

Import ServerlessTransport.

Variable JSON_parse : JsValue -> Completion JsValue.

Lemma body_params_total (body : JsValue) :
  body_params JSON_parse body = Normal (parsed_body JSON_parse body).
Proof.
  unfold body_params, parsed_body. destruct (truthy body); [| reflexivity].
  destruct (JSON_parse body); reflexivity.
Qed.

Lemma segments_truthy (p s : string) : In s (segments p) -> truthy (JStr s) = true.
Proof. unfold segments. intros Hin. now apply filter_In in Hin. Qed.

Lemma segments_of_empty (p : string) : segments p <> [] -> truthy (JStr p) = true.
Proof. destruct p; simpl; [intros Hne; now contradiction Hne | reflexivity]. Qed.

(** An API-Gateway-shaped event whose path is a string is parsed as far
    as its action can be routed, and this is the invocation. *)
Lemma parseApiGatewayEvent_string_path (ev : JsValue) (p : string) :
  nullish ev = false ->
  get_opt ev "path" = JStr p ->
  parseApiGatewayEvent JSON_parse ev
  = (routed <- route_action (segments p) (get_opt ev "httpMethod") ;;
     Normal {| service := or_else (part (segments p) 0) (JStr "sample");
               action := routed;
               params := merge_params (parsed_body JSON_parse (get_opt ev "body"))
                                      (get_opt ev "pathParameters")
                                      (get_opt ev "queryStringParameters")
                                      (get_opt ev "headers");
               meta := JObj [("httpMethod", get_opt ev "httpMethod"); ("path", JStr p)] |}).
Proof.
  intros Hn Hp. unfold parseApiGatewayEvent.
  rewrite !(get_defined ev) by exact Hn. rewrite Hp.
  cbn [bind pathParts_of]. fold (segments p).
  destruct (route_action (segments p) (get_opt ev "httpMethod")); [| reflexivity].
  cbn [bind]. rewrite body_params_total. reflexivity.
Qed.

(** With a string for the method the routing never throws. *)
Lemma route_action_string (parts : list string) (m : string) :
  route_action parts (JStr m)
  = Normal (if Nat.eqb (List.length parts) 1 then
              if String.eqb m "GET" then Data (JStr "list")
              else if String.eqb m "POST" then Data (JStr "create")
              else Data (JStr "default")
            else if Nat.eqb (List.length parts) 2 && numeric_part parts then id_route m
            else Data (or_else (part parts 1) (JStr "default"))).
Proof.
  unfold route_action, id_route, get_computed. cbn [strict_eq_str ToString bind].
  destruct (Nat.eqb (List.length parts) 1).
  - destruct (String.eqb m "GET"); [reflexivity |].
    destruct (String.eqb m "POST"); reflexivity.
  - destruct (Nat.eqb (List.length parts) 2 && numeric_part parts); reflexivity.
Qed.

Lemma parseEvent_api (ev : JsValue) :
  nullish ev = false ->
  truthy (get_opt ev "httpMethod") = true ->
  truthy (get_opt ev "path") = true ->
  parseEvent JSON_parse ev = parseApiGatewayEvent JSON_parse ev.
Proof.
  intros Hn Hm Hp. unfold parseEvent, and_then.
  rewrite !(get_defined ev) by exact Hn. cbn [bind]. rewrite Hm. cbn [bind].
  now rewrite Hp.
Qed.

(** C2 (as the code has it): for an event whose method is [GET] and whose
    path is a string, a one-segment path routes to the action [list] and
    a two-segment path whose second segment is numeric routes to the
    action [get], both on the service named by the first segment.  The
    parameters are made of the parsed body, the event's path parameters,
    its query parameters and its headers; the path segment itself is not
    copied into them. *)
Theorem get_requests_route_to_list_and_get (ev : JsValue) (p : string) :
  get ev "httpMethod" = Normal (JStr "GET") ->
  get ev "path" = Normal (JStr p) ->
  let built := merge_params (parsed_body JSON_parse (get_opt ev "body"))
                            (get_opt ev "pathParameters")
                            (get_opt ev "queryStringParameters")
                            (get_opt ev "headers") in
  let meta_of := JObj [("httpMethod", JStr "GET"); ("path", JStr p)] in
  (forall seg,
      segments p = [seg] ->
      parseEvent JSON_parse ev
      = Normal {| service := JStr seg; action := JStr "list";
                  params := built; meta := meta_of |})
  /\ (forall seg ident,
         segments p = [seg; ident] ->
         isNaN ident = false ->
         parseEvent JSON_parse ev
         = Normal {| service := JStr seg; action := JStr "get";
                     params := built; meta := meta_of |}).
Proof.
  intros Hm Hp built meta_of.
  destruct (get_normal_inv _ _ _ Hm) as [Hn Hm'].
  destruct (get_normal_inv _ _ _ Hp) as [_ Hp'].
  assert (Hroute : forall parts, segments p = parts -> parts <> [] ->
            parseEvent JSON_parse ev
            = (routed <- route_action parts (JStr "GET") ;;
               Normal {| service := or_else (part parts 0) (JStr "sample");
                         action := routed;
                         params := built; meta := meta_of |})).
  { intros parts Hparts Hne.
    rewrite parseEvent_api; [| exact Hn | now rewrite Hm' | ].
    - rewrite (parseApiGatewayEvent_string_path ev p Hn Hp'), Hm', Hparts.
      reflexivity.
    - rewrite Hp'. apply segments_of_empty. now rewrite Hparts. }
  split.
  - intros seg Hseg. rewrite (Hroute [seg] Hseg) by discriminate.
    assert (Ht : truthy (JStr seg) = true)
      by (apply (segments_truthy p); rewrite Hseg; now left).
    rewrite route_action_string. cbn [List.length Nat.eqb String.eqb bind].
    unfold or_else. cbn [part nth_error]. rewrite Ht. reflexivity.
  - intros seg ident Hseg Hnum. rewrite (Hroute [seg; ident] Hseg) by discriminate.
    assert (Ht : truthy (JStr seg) = true)
      by (apply (segments_truthy p); rewrite Hseg; now left).
    rewrite route_action_string.
    cbn [List.length Nat.eqb numeric_part nth_error andb bind].
    rewrite Hnum. cbn [negb]. unfold or_else at 1. cbn [part nth_error]. rewrite Ht.
    reflexivity.
Qed.

(** Which values [ToString] converts, and what it throws for the others. *)
Lemma ToString_converts (v : JsValue) :
  if converts v then exists s, ToString v = Normal s
  else ToString v = Throw conversion_error.
Proof.
  induction v as [| | [|] | z | | s | xs IH | ps _] using JsValue_elements_ind;
    try (cbn [converts ToString]; eexists; reflexivity).
  - cbn [converts ToString].
    set (all := fix all (l : list JsValue) : bool :=
                  match l with
                  | [] => true
                  | x :: rest => converts x && all rest
                  end).
    set (each := fix each (l : list JsValue) : Completion (list string) :=
                   match l with
                   | [] => Normal []
                   | x :: rest =>
                       s <- match x with
                            | JUndefined | JNull => Normal ""
                            | _ => ToString x
                            end ;;
                       more <- each rest ;;
                       Normal (s :: more)
                   end).
    assert (Heach : if all xs then exists parts, each xs = Normal parts
                    else each xs = Throw conversion_error).
    { induction IH as [| x rest Hx _ IHrest]; [eexists; reflexivity |].
      cbn [all each]. fold all each.
      assert (Helem : match x with
                      | JUndefined | JNull => Normal ""
                      | _ => ToString x
                      end
                      = if converts x
                        then match x with
                             | JUndefined | JNull => Normal ""
                             | _ => ToString x
                             end
                        else Throw conversion_error).
      { destruct (converts x) eqn:Hc; [reflexivity |].
        destruct x; try discriminate Hc; exact Hx. }
      destruct (converts x) eqn:Hc; cbn [andb].
      - assert (Hs : exists s, match x with
                               | JUndefined | JNull => Normal ""
                               | _ => ToString x
                               end = Normal s).
        { destruct x; try exact Hx; eexists; reflexivity. }
        destruct Hs as [s Hs]. rewrite Hs. cbn [bind].
        destruct (all rest).
        + destruct IHrest as [parts Hparts]. rewrite Hparts. eexists. reflexivity.
        + now rewrite IHrest.
      - now rewrite Helem. }
    destruct (all xs).
    + destruct Heach as [parts Hparts]. rewrite Hparts. eexists. reflexivity.
    + now rewrite Heach.
  - cbn [converts ToString]. destruct (lookup "toString" ps); [reflexivity |].
    eexists. reflexivity.
Qed.

Lemma ToString_throws (v e : JsValue) :
  ToString v = Throw e <-> converts v = false /\ e = conversion_error.
Proof.
  pose proof (ToString_converts v) as H. destruct (converts v).
  - destruct H as [s Hs]. rewrite Hs. split; [discriminate | intros [Habs _]; discriminate].
  - rewrite H. split; [intros Heq; split; [reflexivity | congruence] |].
    intros [_ ->]. reflexivity.
Qed.

(** The routing throws in one case only: the path has two segments, the
    second is numeric, and the method cannot be converted to the key the
    routes object is indexed with. *)
Lemma route_action_throws (parts : list string) (method e : JsValue) :
  route_action parts method = Throw e
  <-> Nat.eqb (List.length parts) 2 && numeric_part parts = true
      /\ converts method = false /\ e = conversion_error.
Proof.
  rewrite <- ToString_throws.
  unfold route_action, get_computed.
  destruct (Nat.eqb (List.length parts) 1) eqn:Hone.
  - assert (Htwo : Nat.eqb (List.length parts) 2 = false).
    { apply Nat.eqb_eq in Hone. rewrite Hone. reflexivity. }
    rewrite Htwo. cbn [andb].
    split; [| intros [Habs _]; discriminate].
    destruct (strict_eq_str method "GET"); [discriminate |].
    destruct (strict_eq_str method "POST"); discriminate.
  - destruct (Nat.eqb (List.length parts) 2 && numeric_part parts).
    + destruct (ToString method) as [k | e']; cbn [bind].
      * split; [discriminate | intros [_ Habs]; discriminate].
      * split; [intros Heq; split; [reflexivity | congruence] | intros [_ Heq]; congruence].
    + split; [discriminate | intros [Habs _]; discriminate].
Qed.

Lemma parseApiGatewayEvent_throws (ev : JsValue) (p : string) (e : JsValue) :
  nullish ev = false ->
  get_opt ev "path" = JStr p ->
  parseApiGatewayEvent JSON_parse ev = Throw e
  <-> Nat.eqb (List.length (segments p)) 2 && numeric_part (segments p) = true
      /\ converts (get_opt ev "httpMethod") = false /\ e = conversion_error.
Proof.
  intros Hn Hp. rewrite (parseApiGatewayEvent_string_path ev p Hn Hp).
  rewrite <- route_action_throws.
  destruct (route_action (segments p) (get_opt ev "httpMethod")); cbn [bind].
  - split; discriminate.
  - split; congruence.
Qed.

(** C9 (as the code has it): for an API-Gateway-shaped event whose path
    is a string, the body is parsed as JSON and, when parsing throws, the
    raw body is passed under [body]; path parameters, query parameters
    and headers are merged over the body fields: [headers] is always the
    event's headers, and any other key is taken from the query parameters
    first, then from the path parameters, and from the body fields only
    when neither defines it.  The parser gives these parameters unless
    routing the action throws, which it does in one case: the path has
    two segments, the second numeric, and the method cannot be converted
    to a property key. *)
Theorem merged_parameters_override_body_fields (ev : JsValue) (p : string) :
  nullish ev = false ->
  get_opt ev "path" = JStr p ->
  let body := get_opt ev "body" in
  let fromBody := parsed_body JSON_parse body in
  (truthy body = false -> fromBody = JObj [])
  /\ (forall v, truthy body = true -> JSON_parse body = Normal v -> fromBody = v)
  /\ (forall e, truthy body = true -> JSON_parse body = Throw e ->
                fromBody = JObj [("body", body)])
  /\ (forall inv,
        parseApiGatewayEvent JSON_parse ev = Normal inv ->
        forall k,
          get_opt (params inv) k
          = if String.eqb k "headers" then get_opt ev "headers"
            else match lookup k (spread (get_opt ev "queryStringParameters")) with
                 | Some v => v
                 | None =>
                     match lookup k (spread (get_opt ev "pathParameters")) with
                     | Some v => v
                     | None => from_option (lookup k (spread fromBody))
                     end
                 end)
  /\ (forall e,
        parseApiGatewayEvent JSON_parse ev = Throw e
        <-> Nat.eqb (List.length (segments p)) 2 && numeric_part (segments p) = true
            /\ converts (get_opt ev "httpMethod") = false /\ e = conversion_error).
Proof.
  intros Hn Hp body fromBody. unfold fromBody, parsed_body.
  split; [intros ->; reflexivity |].
  split; [intros v -> ->; reflexivity |].
  split; [intros e -> ->; reflexivity |].
  split; [| intros e; now apply parseApiGatewayEvent_throws].
  intros inv Hinv k.
  rewrite (parseApiGatewayEvent_string_path ev p Hn Hp) in Hinv.
  destruct (route_action (segments p) (get_opt ev "httpMethod")) as [routed | e];
    cbn [bind] in Hinv; [| discriminate].
  inversion Hinv as [Heq]; clear Hinv. cbn [params].
  unfold merge_params. rewrite get_opt_object, !lookup_app.
  cbn [lookup]. destruct (String.eqb k "headers"); [reflexivity |].
  destruct (lookup k (spread (get_opt ev "queryStringParameters"))); [reflexivity |].
  destruct (lookup k (spread (get_opt ev "pathParameters"))); reflexivity.
Qed.

End AdapterFacts.

(** C2 (as stated) fails: [{httpMethod: 'GET', path: '/sample/42'}] is
    routed to [get], and the parameters hold only [headers]; nothing in
    them carries the identifier. *)
Lemma identifier_is_not_injected :
  segments "/sample/42" = ["sample"; "42"]
  /\ isNaN "42" = false
  /\ ServerlessTransport.parseEvent reference_parse Examples.get_event
     = Normal {| ServerlessTransport.service := JStr "sample";
                 ServerlessTransport.action := JStr "get";
                 ServerlessTransport.params := JObj [("headers", JUndefined)];
                 ServerlessTransport.meta :=
                   JObj [("httpMethod", JStr "GET"); ("path", JStr "/sample/42")] |}
  /\ (forall k, get_opt (JObj [("headers", JUndefined)]) k = JUndefined).
Proof.
  repeat split; try (vm_compute; reflexivity).
  intros k. simpl. destruct (String.eqb k "headers"); reflexivity.
Qed.

(** C2, run: [GET /sample/42]. *)
Lemma get_requests_witness :
  get Examples.get_event "httpMethod" = Normal (JStr "GET")
  /\ get Examples.get_event "path" = Normal (JStr "/sample/42")
  /\ segments "/sample/42" = ["sample"; "42"]
  /\ isNaN "42" = false
  /\ ServerlessTransport.parseEvent reference_parse Examples.get_event
     = Normal {| ServerlessTransport.service := JStr "sample";
                 ServerlessTransport.action := JStr "get";
                 ServerlessTransport.params :=
                   ServerlessTransport.merge_params
                     (parsed_body reference_parse (get_opt Examples.get_event "body"))
                     (get_opt Examples.get_event "pathParameters")
                     (get_opt Examples.get_event "queryStringParameters")
                     (get_opt Examples.get_event "headers");
                 ServerlessTransport.meta :=
                   JObj [("httpMethod", JStr "GET"); ("path", JStr "/sample/42")] |}.
Proof.
  assert (Hm : get Examples.get_event "httpMethod" = Normal (JStr "GET")) by reflexivity.
  assert (Hp : get Examples.get_event "path" = Normal (JStr "/sample/42")) by reflexivity.
  assert (Hs : segments "/sample/42" = ["sample"; "42"]) by reflexivity.
  assert (Hi : isNaN "42" = false) by reflexivity.
  repeat (split; [assumption |]).
  exact (proj2 (get_requests_route_to_list_and_get reference_parse Examples.get_event
                  "/sample/42" Hm Hp) "sample" "42" Hs Hi).
Defined.

(** A method that is an object with an own [toString] cannot index the
    routes object: [{httpMethod: {toString: 1}, path: '/sample/42'}] is
    not parsed, while on the one-segment path [/sample] the same method
    is only compared and the event is routed to [default]. *)
Example unconvertible_method :
  let method := JObj [("toString", JNum 1)] in
  ServerlessTransport.parseEvent reference_parse
    (JObj [("httpMethod", method); ("path", JStr "/sample/42")])
  = Throw conversion_error
  /\ ServerlessTransport.parseEvent reference_parse
       (JObj [("httpMethod", method); ("path", JStr "/sample")])
     = Normal {| ServerlessTransport.service := JStr "sample";
                 ServerlessTransport.action := JStr "default";
                 ServerlessTransport.params := JObj [("headers", JUndefined)];
                 ServerlessTransport.meta :=
                   JObj [("httpMethod", method); ("path", JStr "/sample")] |}
  /\ ServerlessTransport.parseEvent reference_parse
       (JObj [("httpMethod", JStr "toString"); ("path", JStr "/sample/42")])
     = Normal {| ServerlessTransport.service := JStr "sample";
                 ServerlessTransport.action := Native "toString";
                 ServerlessTransport.params := JObj [("headers", JUndefined)];
                 ServerlessTransport.meta :=
                   JObj [("httpMethod", JStr "toString"); ("path", JStr "/sample/42")] |}.
Proof. intros method. repeat split; vm_compute; reflexivity. Qed.

(** C9 (as stated) fails: the body field [id] does not take precedence;
    the path parameter [id] replaces it. *)
Lemma path_parameter_overrides_body_field :
  reference_parse (get_opt Examples.update_event "body")
  = Normal (JObj [("id", JStr "from-body")])
  /\ get_opt Examples.update_event "pathParameters" = JObj [("id", JStr "from-path")]
  /\ ServerlessTransport.parseApiGatewayEvent reference_parse Examples.update_event
     = Normal {| ServerlessTransport.service := JStr "sample";
                 ServerlessTransport.action := JStr "update";
                 ServerlessTransport.params :=
                   JObj [("id", JStr "from-path"); ("headers", JUndefined)];
                 ServerlessTransport.meta :=
                   JObj [("httpMethod", JStr "PUT"); ("path", JStr "/sample/42")] |}.
Proof. repeat split; vm_compute; reflexivity. Qed.

(** C9, run: the [id] of [Examples.update_event]. *)
Lemma merged_parameters_witness :
  nullish Examples.update_event = false
  /\ get_opt Examples.update_event "path" = JStr "/sample/42"
  /\ exists inv,
      ServerlessTransport.parseApiGatewayEvent reference_parse Examples.update_event
      = Normal inv
      /\ get_opt (ServerlessTransport.params inv) "id" = JStr "from-path".
Proof.
  assert (Hn : nullish Examples.update_event = false) by reflexivity.
  assert (Hp : get_opt Examples.update_event "path" = JStr "/sample/42") by reflexivity.
  split; [exact Hn | split; [exact Hp |]].
  destruct (merged_parameters_override_body_fields reference_parse Examples.update_event
              "/sample/42" Hn Hp) as [_ [_ [_ [Hk Hthrows]]]].
  destruct (ServerlessTransport.parseApiGatewayEvent reference_parse Examples.update_event)
    as [inv | e] eqn:Hinv.
  - exists inv. split; [reflexivity |]. rewrite (Hk inv eq_refl "id"). reflexivity.
  - destruct (proj1 (Hthrows e) eq_refl) as [_ [Habs _]]. discriminate Habs.
Defined.

(** ** The serverless adapter: classification *)

Section ClassificationFacts.

Import ServerlessTransport.

Variable JSON_parse : JsValue -> Completion JsValue.

Lemma and_then_values (a b : JsValue) :
  and_then (Normal a) (Normal b) = Normal (if truthy a then b else a).
Proof. unfold and_then. simpl. now destruct (truthy a). Qed.

Lemma truthy_and (a b : JsValue) :
  truthy (if truthy a then b else a) = truthy a && truthy b.
Proof. destruct (truthy a) eqn:Ha; simpl; [reflexivity | exact Ha]. Qed.

Lemma records_tagged_value (ev : JsValue) (tag : string) :
  nullish ev = false ->
  exists c,
    records_tagged ev tag = Normal c
    /\ truthy c
       = truthy (get_opt ev "Records")
         && strict_eq_str (get_opt (Spec.first_record ev) "eventSource") tag.
Proof.
  intros Hn. unfold records_tagged, and_then, Spec.first_record.
  rewrite !(get_defined ev) by exact Hn. cbn [bind].
  destruct (truthy (get_opt ev "Records")) eqn:Hr.
  - unfold get_index. rewrite (get_defined (get_opt ev "Records"))
      by (now apply truthy_not_nullish).
    cbn [bind]. eexists. split; [reflexivity |]. reflexivity.
  - eexists. split; [reflexivity |]. exact Hr.
Qed.

(** On an event that has properties, [parseEvent] is the chain of the
    five detectors. *)
Lemma parseEvent_chain (ev : JsValue) :
  nullish ev = false ->
  parseEvent JSON_parse ev
  = if Spec.detector Spec.ApiGateway ev then parseApiGatewayEvent JSON_parse ev
    else if Spec.detector Spec.BatchMessage ev then parseSQSEvent JSON_parse ev
    else if Spec.detector Spec.Notification ev then parseSNSEvent JSON_parse ev
    else if Spec.detector Spec.Descriptor ev then parseDirect ev
    else parseFallback ev.
Proof.
  intros Hn. unfold parseEvent.
  destruct (records_tagged_value ev "aws:sqs" Hn) as [sqs [Hsqs Tsqs]].
  destruct (records_tagged_value ev "aws:sns" Hn) as [sns [Hsns Tsns]].
  rewrite Hsqs, Hsns. rewrite !(get_defined ev) by exact Hn.
  rewrite !and_then_values. cbn [bind]. rewrite !truthy_and, Tsqs, Tsns.
  reflexivity.
Qed.

Lemma tagged_record_defined (ev : JsValue) (tag : string) :
  strict_eq_str (get_opt (Spec.first_record ev) "eventSource") tag = true ->
  nullish (Spec.first_record ev) = false.
Proof. destruct (Spec.first_record ev); simpl; congruence. Qed.

Lemma first_record_read (ev : JsValue) :
  nullish ev = false ->
  truthy (get_opt ev "Records") = true ->
  (records <- get ev "Records" ;; get_index records 0) = Normal (Spec.first_record ev).
Proof.
  intros Hn Hr. rewrite (get_defined ev) by exact Hn. cbn [bind].
  unfold get_index. now rewrite get_defined by (now apply truthy_not_nullish).
Qed.

Lemma parseSQSEvent_tagged (ev : JsValue) :
  nullish ev = false ->
  Spec.detector Spec.BatchMessage ev = true ->
  let record := Spec.first_record ev in
  parseSQSEvent JSON_parse ev
  = Normal {| service := JStr "sample";
              action := JStr "processQueueMessage";
              params := match JSON_parse (get_opt record "body") with
                        | Normal v => v
                        | Throw _ => JObj [("body", get_opt record "body")]
                        end;
              meta := JObj [("source", JStr "sqs");
                            ("messageId", get_opt record "messageId");
                            ("receiptHandle", get_opt record "receiptHandle")] |}.
Proof.
  intros Hn Hd record. apply andb_prop in Hd. destruct Hd as [Hr Htag].
  apply tagged_record_defined in Htag.
  unfold parseSQSEvent.
  rewrite (get_defined ev) by exact Hn. cbn [bind]. unfold get_index.
  rewrite (get_defined (get_opt ev "Records")) by (now apply truthy_not_nullish).
  cbn [bind]. fold (Spec.first_record ev). fold record.
  rewrite !(get_defined record) by exact Htag. cbn [bind].
  destruct (JSON_parse (get_opt record "body")); reflexivity.
Qed.

Lemma parseSNSEvent_tagged (ev : JsValue) :
  nullish ev = false ->
  Spec.detector Spec.Notification ev = true ->
  let sns := get_opt (Spec.first_record ev) "Sns" in
  (nullish sns = false ->
   parseSNSEvent JSON_parse ev
   = Normal {| service := JStr "sample";
               action := JStr "processNotification";
               params := match JSON_parse (get_opt sns "Message") with
                         | Normal v => v
                         | Throw _ => JObj [("message", get_opt sns "Message")]
                         end;
               meta := JObj [("source", JStr "sns");
                             ("topicArn", get_opt sns "TopicArn");
                             ("messageId", get_opt sns "MessageId")] |})
  /\ (nullish sns = true ->
      exists e, get sns "Message" = Throw e /\ parseSNSEvent JSON_parse ev = Throw e).
Proof.
  intros Hn Hd sns. apply andb_prop in Hd. destruct Hd as [Hr Htag].
  apply tagged_record_defined in Htag.
  unfold parseSNSEvent.
  rewrite (get_defined ev) by exact Hn. cbn [bind]. unfold get_index.
  rewrite (get_defined (get_opt ev "Records")) by (now apply truthy_not_nullish).
  cbn [bind]. fold (Spec.first_record ev).
  rewrite !(get_defined (Spec.first_record ev)) by exact Htag. cbn [bind].
  fold sns. split; intros Hsns.
  - rewrite !(get_defined sns) by exact Hsns. cbn [bind].
    destruct (JSON_parse (get_opt sns "Message")); reflexivity.
  - destruct sns; try discriminate; eexists; split; reflexivity.
Qed.

Lemma parseApiGatewayEvent_other_path (ev : JsValue) :
  nullish ev = false ->
  (forall p, get_opt ev "path" <> JStr p) ->
  exists e, parseApiGatewayEvent JSON_parse ev = Throw e.
Proof.
  intros Hn Hp. unfold parseApiGatewayEvent.
  rewrite !(get_defined ev) by exact Hn. cbn [bind].
  destruct (get_opt ev "path") eqn:Hpath; cbn [pathParts_of bind];
    try (eexists; reflexivity).
  now contradiction (Hp s).
Qed.

(** C4 (as the code has it): on every event other than [null] and
    [undefined] the classification tries the shapes in the fixed order
    API-Gateway, batch message, notification, descriptor, fallback, and
    runs the parser of the first shape that matches, and of no other.
    That parser gives the result: the batch-message parser routes the
    first record's body, parsed as JSON or raw under [body], to
    [processQueueMessage]; the descriptor parser passes [service],
    [action] and [meta] through and [params] too, with [{}] in place of a
    falsy one; the fallback routes the whole event to
    [processServerlessEvent].  The API-Gateway parser throws when the path
    is not a string; for a string path it throws in one case only, when
    the path has two segments, the second numeric, and the method cannot
    be converted to a property key.  The notification parser throws when
    the first record has no [Sns]; otherwise it routes the parsed message
    to [processNotification]. *)
Theorem classification_runs_the_first_matching_parser (ev : JsValue) :
  nullish ev = false ->
  exists shape,
    Spec.classify ev = Some shape
    /\ Spec.detector shape ev = true
    /\ (forall earlier, Spec.rank earlier < Spec.rank shape ->
                        Spec.detector earlier ev = false)
    /\ parseEvent JSON_parse ev = Spec.parser JSON_parse shape ev
    /\ match shape with
       | Spec.ApiGateway =>
           (forall p e,
               get_opt ev "path" = JStr p ->
               (parseEvent JSON_parse ev = Throw e
                <-> Nat.eqb (List.length (segments p)) 2 && numeric_part (segments p) = true
                    /\ converts (get_opt ev "httpMethod") = false
                    /\ e = conversion_error))
           /\ ((forall p, get_opt ev "path" <> JStr p) ->
               exists e, parseEvent JSON_parse ev = Throw e)
       | Spec.BatchMessage =>
           let record := Spec.first_record ev in
           parseEvent JSON_parse ev
           = Normal {| service := JStr "sample";
                       action := JStr "processQueueMessage";
                       params := match JSON_parse (get_opt record "body") with
                                 | Normal v => v
                                 | Throw _ => JObj [("body", get_opt record "body")]
                                 end;
                       meta := JObj [("source", JStr "sqs");
                                     ("messageId", get_opt record "messageId");
                                     ("receiptHandle", get_opt record "receiptHandle")] |}
       | Spec.Notification =>
           let sns := get_opt (Spec.first_record ev) "Sns" in
           (nullish sns = false ->
            parseEvent JSON_parse ev
            = Normal {| service := JStr "sample";
                        action := JStr "processNotification";
                        params := match JSON_parse (get_opt sns "Message") with
                                  | Normal v => v
                                  | Throw _ => JObj [("message", get_opt sns "Message")]
                                  end;
                        meta := JObj [("source", JStr "sns");
                                      ("topicArn", get_opt sns "TopicArn");
                                      ("messageId", get_opt sns "MessageId")] |})
           /\ (nullish sns = true -> exists e, parseEvent JSON_parse ev = Throw e)
       | Spec.Descriptor =>
           parseEvent JSON_parse ev
           = Normal {| service := get_opt ev "service";
                       action := get_opt ev "action";
                       params := or_else (get_opt ev "params") (JObj []);
                       meta := get_opt ev "meta" |}
       | Spec.Fallback =>
           parseEvent JSON_parse ev
           = Normal {| service := JStr "sample";
                       action := JStr "processServerlessEvent";
                       params := ev;
                       meta := JObj [] |}
       end.
Proof.
  intros Hn. rewrite (parseEvent_chain ev Hn).
  unfold Spec.classify, Spec.order, Spec.first_match.
  destruct (Spec.detector Spec.ApiGateway ev) eqn:Dapi.
  { exists Spec.ApiGateway. split; [reflexivity |]. split; [exact Dapi |].
    split; [intros []; simpl; lia |]. split; [reflexivity |]. split.
    - intros p e Hp. exact (parseApiGatewayEvent_throws JSON_parse ev p e Hn Hp).
    - intros Hp. now apply parseApiGatewayEvent_other_path. }
  destruct (Spec.detector Spec.BatchMessage ev) eqn:Dsqs.
  { exists Spec.BatchMessage. split; [reflexivity |]. split; [exact Dsqs |].
    split; [intros []; simpl; (lia || auto) |]. split; [reflexivity |].
    apply (parseSQSEvent_tagged ev Hn Dsqs). }
  destruct (Spec.detector Spec.Notification ev) eqn:Dsns.
  { exists Spec.Notification. split; [reflexivity |]. split; [exact Dsns |].
    split; [intros []; simpl; (lia || auto) |]. split; [reflexivity |].
    destruct (parseSNSEvent_tagged ev Hn Dsns) as [Hok Hthrow]. split.
    - exact Hok.
    - intros Hsns. destruct (Hthrow Hsns) as [e [_ He]]. now exists e. }
  destruct (Spec.detector Spec.Descriptor ev) eqn:Ddir.
  { exists Spec.Descriptor. split; [reflexivity |]. split; [exact Ddir |].
    split; [intros []; simpl; (lia || auto) |]. split; [reflexivity |].
    unfold parseDirect. now rewrite !(get_defined ev) by exact Hn. }
  exists Spec.Fallback. split; [reflexivity |]. split; [reflexivity |].
  split; [intros []; simpl; (lia || auto) |]. split; reflexivity.
Qed.

End ClassificationFacts.

(** C4 (as stated) fails: a notification-tagged event whose first record
    has no [Sns] is classified, and its parser throws; no invocation is
    produced. *)
Lemma bare_notification_yields_no_invocation :
  Spec.classify Examples.bare_notification = Some Spec.Notification
  /\ ServerlessTransport.parseEvent reference_parse Examples.bare_notification
     = Throw (TypeError "Cannot read properties of undefined (reading 'Message')")
  /\ (forall inv,
        ServerlessTransport.parseEvent reference_parse Examples.bare_notification
        <> Normal inv).
Proof.
  split; [reflexivity |]. split; [vm_compute; reflexivity |].
  intros inv Heq. vm_compute in Heq. discriminate.
Qed.

(** C4, run: a descriptor event. *)
Lemma classification_witness :
  nullish Examples.direct_event = false
  /\ exists shape,
      Spec.classify Examples.direct_event = Some shape
      /\ ServerlessTransport.parseEvent reference_parse Examples.direct_event
         = Spec.parser reference_parse shape Examples.direct_event.
Proof.
  assert (Hn : nullish Examples.direct_event = false) by reflexivity.
  split; [exact Hn |].
  destruct (classification_runs_the_first_matching_parser reference_parse
              Examples.direct_event Hn) as [shape [Hc [_ [_ [Hp _]]]]].
  exists shape. split; assumption.
Defined.

(** ** The queue consumer *)

Section ConsumerFacts.

Import QueueTransport.

Variable JSON_parse : JsValue -> Completion JsValue.
Variable queueName : string.

Abbreviation step := (QueueTransport.step JSON_parse queueName).
Abbreviation run := (QueueTransport.run JSON_parse queueName).

(** *** Redis lists *)

Lemma rpop_spec (l : list string) :
  match rpop l with
  | (Some x, rest) => l = (rest ++ [x])%list
  | (None, rest) => l = [] /\ rest = []
  end.
Proof.
  induction l as [| x l IH]; simpl; [split; reflexivity |].
  destruct l as [| y l']; [reflexivity |].
  destruct (rpop (y :: l')) as [[z |] rest].
  - simpl. now rewrite IH.
  - destruct IH as [IH _]. discriminate.
Qed.

Lemma update_same (r : Redis) (q : string) (l : list string) : update r q l q = l.
Proof. unfold update. now rewrite String.eqb_refl. Qed.

Lemma update_other (r : Redis) (q q' : string) (l : list string) :
  q' <> q -> update r q l q' = r q'.
Proof. unfold update. intros Hne. now destruct (String.eqb_spec q' q). Qed.

(** *** Traces *)

Lemma scan_app (b : bool) (t1 t2 : list Event) :
  scan b (t1 ++ t2)
  = match scan b t1 with
    | Some b' => scan b' t2
    | None => None
    end.
Proof.
  revert b. induction t1 as [| e t1 IH]; intros b; simpl; [reflexivity |].
  destruct e; destruct b; simpl; auto.
Qed.

Lemma published_app (q : string) (t1 t2 : list Event) :
  published q (t1 ++ t2) = (published q t1 ++ published q t2)%list.
Proof. apply flat_map_app. Qed.

Lemma popped_app (t1 t2 : list Event) :
  popped (t1 ++ t2) = (popped t1 ++ popped t2)%list.
Proof. apply flat_map_app. Qed.

Lemma started_app (t1 t2 : list Event) :
  started (t1 ++ t2) = (started t1 ++ started t2)%list.
Proof. apply flat_map_app. Qed.

Lemma take_nth_length {A : Type} (i : nat) (l rest : list A) (x : A) :
  take_nth i l = Some (x, rest) -> List.length l = S (List.length rest).
Proof.
  revert i rest. induction l as [| y l IH]; intros i rest; simpl; [discriminate |].
  destruct i as [| i].
  - intros Heq. inversion Heq; subst. reflexivity.
  - destruct (take_nth i l) as [[z rest'] |] eqn:Ht; [| discriminate].
    intros Heq. inversion Heq; subst. simpl. now rewrite (IH _ _ Ht).
Qed.

(** *** The invariant *)

Abbreviation Inv := (ConsumerInvariant.Inv JSON_parse).
Abbreviation Fifo := (ConsumerInvariant.Fifo queueName).

Lemma startConsumer_inv (r0 : Redis) : Inv (startConsumer r0).
Proof. split; reflexivity. Qed.

Lemma startConsumer_fifo (r0 : Redis) : Fifo r0 (startConsumer r0).
Proof. unfold ConsumerInvariant.Fifo. simpl. now rewrite app_nil_r. Qed.

Lemma step_inv (a : Action) (st st' : State) :
  step a st = Some st' -> Inv st -> Inv st'.
Proof.
  intros Hstep [Hone Hscan Hst]. destruct a as [q text | q | i readError | j outcome];
    simpl in Hstep.
  - inversion Hstep; subst; clear Hstep. split; simpl.
    + exact Hone.
    + rewrite scan_app, Hscan. reflexivity.
    + rewrite started_app, popped_app, Hst. simpl. now rewrite !app_nil_r.
  - inversion Hstep; subst; clear Hstep. split; simpl.
    + exact Hone.
    + rewrite scan_app, Hscan. reflexivity.
    + rewrite started_app, popped_app, Hst. simpl. now rewrite !app_nil_r.
  - destruct (take_nth i (pollers st)) as [[s others] |] eqn:Htake; [| discriminate].
    apply take_nth_length in Htake.
    assert (Hidle : running st = []).
    { destruct (running st); [reflexivity | simpl in Hone; lia]. }
    assert (Hothers : others = []).
    { destruct others; [reflexivity |]. rewrite Hidle in Hone. simpl in *. lia. }
    rewrite Hidle in Hscan. simpl in Hscan. subst others.
    destruct readError as [e |].
    + simpl in Hstep. inversion Hstep; subst; clear Hstep. split; simpl.
      * rewrite Hidle. reflexivity.
      * rewrite app_nil_r, Hidle. exact Hscan.
      * now rewrite app_nil_r.
    + destruct (rpop (redis st queueName)) as [[text |] rest] eqn:Hpop.
      * destruct (poll_read JSON_parse (Normal (Some text))) as [s' | message] eqn:Hread;
          inversion Hstep; subst; clear Hstep; split; simpl.
        -- rewrite Hidle. reflexivity.
        -- rewrite scan_app, Hscan, Hidle. reflexivity.
        -- rewrite started_app, popped_app, flat_map_app, Hst. simpl.
           unfold delivered. rewrite Hread. reflexivity.
        -- rewrite Hidle. reflexivity.
        -- rewrite scan_app, Hscan, Hidle. reflexivity.
        -- rewrite started_app, popped_app, flat_map_app, Hst. simpl.
           unfold delivered. rewrite Hread. reflexivity.
      * simpl in Hstep. inversion Hstep; subst; clear Hstep. split; simpl.
        -- rewrite Hidle. reflexivity.
        -- rewrite app_nil_r, Hidle. exact Hscan.
        -- now rewrite app_nil_r.
  - destruct (take_nth j (running st)) as [[message others] |] eqn:Htake; [| discriminate].
    apply take_nth_length in Htake.
    inversion Hstep; subst; clear Hstep.
    assert (Hothers : others = []).
    { destruct others; [reflexivity | simpl in *; lia]. }
    assert (Hpoll : pollers st = []).
    { destruct (pollers st); [reflexivity | simpl in *; lia]. }
    subst others. split; simpl.
    + rewrite Hpoll. reflexivity.
    + rewrite scan_app, Hscan. destruct (running st); [discriminate | reflexivity].
    + rewrite started_app, popped_app, Hst. simpl. now rewrite !app_nil_r.
Qed.

Lemma step_fifo (r0 : Redis) (a : Action) (st st' : State) :
  step a st = Some st' -> is_purge queueName a = false -> Fifo r0 st -> Fifo r0 st'.
Proof.
  unfold ConsumerInvariant.Fifo. intros Hstep Hpurge Hfifo.
  destruct a as [q text | q | i readError | j outcome]; simpl in Hstep.
  - inversion Hstep; subst; clear Hstep. simpl.
    rewrite published_app, popped_app. simpl. rewrite !app_nil_r.
    destruct (String.eqb_spec q queueName) as [-> | Hne].
    + rewrite update_same. unfold lpush. simpl.
      rewrite !app_assoc, Hfifo. reflexivity.
    + rewrite update_other by congruence. now rewrite app_nil_r.
  - inversion Hstep; subst; clear Hstep. simpl in *.
    rewrite published_app, popped_app. simpl. rewrite !app_nil_r.
    destruct (String.eqb_spec q queueName) as [-> | Hne]; [discriminate |].
    rewrite update_other by congruence. exact Hfifo.
  - destruct (take_nth i (pollers st)) as [[s others] |]; [| discriminate].
    destruct readError as [e |].
    + destruct (poll_read JSON_parse (Throw e)) eqn:Hread;
        inversion Hstep; subst; clear Hstep; simpl;
        rewrite ?app_nil_r; try exact Hfifo.
      simpl in Hread. discriminate.
    + pose proof (rpop_spec (redis st queueName)) as Hspec.
      destruct (rpop (redis st queueName)) as [[text |] rest].
      * assert (Hgoal :
            (rev (r0 queueName) ++ published queueName (trace st))%list
            = ((popped (trace st) ++ [text]) ++ rev rest)%list).
        { rewrite Hfifo, Hspec, rev_app_distr. simpl. now rewrite <- app_assoc. }
        destruct (poll_read JSON_parse (Normal (Some text)));
          inversion Hstep; subst; clear Hstep; simpl;
          rewrite update_same, ?published_app, ?popped_app; simpl;
          rewrite ?app_nil_r; exact Hgoal.
      * destruct Hspec as [Hempty ->].
        destruct (poll_read JSON_parse (Normal None));
          inversion Hstep; subst; clear Hstep; simpl;
          rewrite update_same, ?published_app, ?popped_app; simpl;
          rewrite ?app_nil_r; rewrite Hempty in Hfifo; simpl in Hfifo;
          rewrite ?app_nil_r in Hfifo; exact Hfifo.
  - destruct (take_nth j (running st)) as [[message others] |]; [| discriminate].
    inversion Hstep; subst; clear Hstep. simpl.
    rewrite published_app, popped_app. simpl. now rewrite !app_nil_r.
Qed.

Lemma run_inv (acts : list Action) (st st' : State) :
  run acts st = Some st' -> Inv st -> Inv st'.
Proof.
  revert st. induction acts as [| a acts IH]; intros st; simpl.
  - intros Heq. inversion Heq; subst. auto.
  - destruct (step a st) as [st1 |] eqn:Hstep; [| discriminate].
    intros Hrun Hinv. apply (IH st1 Hrun). now apply (step_inv a st).
Qed.

Lemma run_fifo (r0 : Redis) (acts : list Action) (st st' : State) :
  run acts st = Some st' -> purges queueName acts = false -> Fifo r0 st -> Fifo r0 st'.
Proof.
  revert st. induction acts as [| a acts IH]; intros st; simpl.
  - intros Heq. inversion Heq; subst. auto.
  - destruct (step a st) as [st1 |] eqn:Hstep; [| discriminate].
    intros Hrun Hp Hfifo. apply orb_false_elim in Hp. destruct Hp as [Ha Hrest].
    apply (IH st1 Hrun Hrest). exact (step_fifo r0 a st st1 Hstep Ha Hfifo).
Qed.


(** *** Rescheduling *)

Ltac unpack :=
  repeat match goal with
         | H : exists _, _ |- _ => destruct H
         | H : _ /\ _ |- _ => destruct H
         | H : _ \/ _ |- _ => destruct H
         | H : Normal _ = Normal _ |- _ => inversion H; subst; clear H
         end.

Lemma handleSampleQueue_completes
      (broker_call : string -> JsValue -> Completion JsValue) (message : JsValue) :
  handleSampleQueue broker_call message = Normal tt.
Proof.
  unfold handleSampleQueue.
  destruct (get message "data") as [d |]; simpl; [| reflexivity].
  destruct (get message "meta") as [m |]; simpl; [| reflexivity].
  destruct (broker_call _ _); reflexivity.
Qed.

(** C8 (as the code has it): every run of [pollQueue] reschedules itself
    once, in one of three ways.  It polls again at once exactly when a
    text was read, parsed, and its handler completed; it polls again after
    1000 ms exactly when the read returned nothing (or an empty text); it
    polls again after 5000 ms exactly when the read, the parsing of the
    text or the handler threw: one delay for read errors and for
    message-processing errors alike. *)
Theorem pollQueue_reschedules
        (reply : Completion (option string)) (handler : JsValue -> Completion unit) :
  let nothing_read := reply = Normal None \/ reply = Normal (Some "") in
  let read_failed := exists e, reply = Throw e in
  let parse_failed :=
    exists text e, reply = Normal (Some text) /\ text <> ""
                   /\ JSON_parse (JStr text) = Throw e in
  let handled (outcome : Completion unit) :=
    exists text message, reply = Normal (Some text) /\ text <> ""
                         /\ JSON_parse (JStr text) = Normal message
                         /\ handler message = outcome in
  (pollQueue JSON_parse reply handler = SetImmediate <-> handled (Normal tt))
  /\ (pollQueue JSON_parse reply handler = SetTimeout 1000 <-> nothing_read)
  /\ (pollQueue JSON_parse reply handler = SetTimeout 5000
      <-> read_failed \/ parse_failed \/ exists e, handled (Throw e))
  /\ (pollQueue JSON_parse reply handler = SetImmediate
      \/ pollQueue JSON_parse reply handler = SetTimeout 1000
      \/ pollQueue JSON_parse reply handler = SetTimeout 5000).
Proof.
  unfold pollQueue, poll_read, poll_resume.
  destruct reply as [[text |] | e]; cbn [truthy].
  - destruct (String.eqb_spec text "") as [-> | Hne]; cbn [negb].
    + split; [| split; [| split]].
      * split; [discriminate | intros; unpack; congruence].
      * split; [intros _; now right | reflexivity].
      * split; [discriminate | intros; unpack; congruence].
      * right. now left.
    + destruct (JSON_parse (JStr text)) as [message | e] eqn:Hparse.
      * destruct (handler message) as [[] | e] eqn:Hh.
        -- split; [| split; [| split]].
           ++ split; [intros _; exists text, message; auto | reflexivity].
           ++ split; [discriminate | intros; unpack; congruence].
           ++ split; [discriminate | intros; unpack; congruence].
           ++ now left.
        -- split; [| split; [| split]].
           ++ split; [discriminate | intros; unpack; congruence].
           ++ split; [discriminate | intros; unpack; congruence].
           ++ split; [| reflexivity]. intros _. right. right.
              exists e, text, message. auto.
           ++ right. now right.
      * split; [| split; [| split]].
        -- split; [discriminate | intros; unpack; congruence].
        -- split; [discriminate | intros; unpack; congruence].
        -- split; [| reflexivity]. intros _. right. left. exists text, e. auto.
        -- right. now right.
  - split; [| split; [| split]].
    + split; [discriminate | intros; unpack; congruence].
    + split; [intros _; now left | reflexivity].
    + split; [discriminate | intros; unpack; congruence].
    + right. now left.
  - split; [| split; [| split]].
    + split; [discriminate | intros; unpack; congruence].
    + split; [discriminate | intros; unpack; congruence].
    + split; [| reflexivity]. intros _. left. now exists e.
    + right. now right.
Qed.

End ConsumerFacts.


(** C8 (as stated) fails: an empty queue is answered with a 1000 ms
    timer, and a text that is not JSON, read without any error, gets the
    same 5000 ms delay as a failed read. *)
Lemma malformed_message_backs_off_like_a_read_error :
  QueueTransport.pollQueue reference_parse (Normal None) Examples.completing_handler
  = QueueTransport.SetTimeout 1000
  /\ (exists e, reference_parse (JStr "not json") = Throw e)
  /\ QueueTransport.pollQueue reference_parse (Normal (Some "not json"))
                              Examples.completing_handler
     = QueueTransport.SetTimeout 5000
  /\ QueueTransport.pollQueue reference_parse (Throw (Error "read ECONNRESET"))
                              Examples.completing_handler
     = QueueTransport.SetTimeout 5000.
Proof.
  split; [reflexivity |]. split; [eexists; vm_compute; reflexivity |].
  split; vm_compute; reflexivity.
Qed.

(** ** The repository on objects *)

Section ObjectRepositoryFacts.

Import ObjectRepository.

Lemma find_last {A : Type} (p : A -> bool) (l : list A) (x : A) :
  find p (l ++ [x])
  = match find p l with
    | Some e => Some e
    | None => if p x then Some x else None
    end.
Proof.
  induction l as [| a l IH]; simpl; [reflexivity |].
  destruct (p a); [reflexivity | exact IH].
Qed.

Lemma has_id_unique (a b : string) (entity : Entity) :
  has_id a entity = true -> has_id b entity = true -> a = b.
Proof.
  unfold has_id, ServerlessTransport.strict_eq_str.
  destruct (from_option (lookup "id" entity)); try discriminate.
  intros Ha Hb. apply String.eqb_eq in Ha, Hb. congruence.
Qed.

Lemma has_id_of_lookup (ident : string) (entity : Entity) :
  lookup "id" entity = Some (JStr ident) -> has_id ident entity = true.
Proof. unfold has_id. intros ->. simpl. apply String.eqb_refl. Qed.

Lemma created_lookup (data : JsValue) (ident : string) (now : JsValue) (k : string) :
  lookup k (fst (create data ident now []))
  = if String.eqb k "updatedAt" then Some now
    else if String.eqb k "createdAt" then Some now
    else if String.eqb k "id" then Some (JStr ident)
    else lookup k (spread data).
Proof.
  unfold create. cbn [fst]. rewrite lookup_own_entries, lookup_app. cbn [lookup].
  destruct (String.eqb k "updatedAt"); [reflexivity |].
  destruct (String.eqb k "createdAt"); [reflexivity |].
  destruct (String.eqb k "id"); reflexivity.
Qed.

(** X1: [create] appends one entity made of the data with [id],
    [createdAt] and [updatedAt] set last, so the data cannot override
    them.  Afterwards [findById] of the new id returns the entity that
    already had that id, if there was one, and the created entity
    otherwise; every other id is found as before. *)
Theorem create_then_findById (data : JsValue) (ident : string) (now : JsValue)
        (collection : list Entity) :
  let created := fst (create data ident now collection) in
  let collection' := snd (create data ident now collection) in
  collection' = (collection ++ [created])%list
  /\ lookup "id" created = Some (JStr ident)
  /\ lookup "createdAt" created = Some now
  /\ lookup "updatedAt" created = Some now
  /\ (forall k, k <> "id" -> k <> "createdAt" -> k <> "updatedAt" ->
                lookup k created = lookup k (spread data))
  /\ findById ident collection'
     = match findById ident collection with
       | Some earlier => Some earlier
       | None => Some created
       end
  /\ (forall other, other <> ident ->
                    findById other collection' = findById other collection).
Proof.
  intros created collection'.
  assert (Hk : forall k, lookup k created
                         = if String.eqb k "updatedAt" then Some now
                           else if String.eqb k "createdAt" then Some now
                           else if String.eqb k "id" then Some (JStr ident)
                           else lookup k (spread data))
    by (intros k; apply (created_lookup data ident now k)).
  assert (Hid : lookup "id" created = Some (JStr ident)) by (rewrite Hk; reflexivity).
  split; [reflexivity |]. split; [exact Hid |].
  split; [rewrite Hk; reflexivity |]. split; [rewrite Hk; reflexivity |].
  split; [| split].
  - intros k H1 H2 H3. rewrite Hk.
    destruct (String.eqb_spec k "updatedAt"); [contradiction |].
    destruct (String.eqb_spec k "createdAt"); [contradiction |].
    destruct (String.eqb_spec k "id"); [contradiction | reflexivity].
  - change collection' with (collection ++ [created])%list. unfold findById.
    rewrite find_last, (has_id_of_lookup ident created Hid). reflexivity.
  - intros other Hne. change collection' with (collection ++ [created])%list.
    unfold findById. rewrite find_last. destruct (find (has_id other) collection); [reflexivity |].
    destruct (has_id other created) eqn:Hother; [| reflexivity].
    contradiction Hne.
    exact (has_id_unique other ident created Hother (has_id_of_lookup _ _ Hid)).
Qed.

(** *** [update] *)

Lemma findIndex_split (p : Entity -> bool) (collection : list Entity) :
  match findIndex p collection with
  | None => find p collection = None
  | Some index =>
      exists before found after,
        collection = (before ++ found :: after)%list
        /\ List.length before = index
        /\ forallb (fun e => negb (p e)) before = true
        /\ p found = true
        /\ find p collection = Some found
  end.
Proof.
  induction collection as [| e rest IH]; simpl; [reflexivity |].
  destruct (p e) eqn:He.
  - exists [], e, rest. simpl. auto.
  - destruct (findIndex p rest) as [i |]; [| exact IH].
    destruct IH as [before [found [after [Heq [Hlen [Hall [Hp Hfind]]]]]]].
    exists (e :: before), found, after. simpl. rewrite He. simpl.
    repeat split; try assumption; [now rewrite Heq | now rewrite Hlen].
Qed.

Lemma nth_middle_default (before after : list Entity) (found d : Entity) :
  nth (List.length before) (before ++ found :: after) d = found.
Proof. induction before; simpl; auto. Qed.

Lemma assign_at_middle (before after : list Entity) (found entity : Entity) :
  assign_at (List.length before) entity (before ++ found :: after)
  = (before ++ entity :: after)%list.
Proof. induction before as [| e before IH]; simpl; [reflexivity | now rewrite IH]. Qed.

(* The shape of [update], shared by the facts below. *)
Lemma update_at_first_match (ident : string) (data now : JsValue)
        (collection : list Entity) :
  match findById ident collection with
  | None => update ident data now collection = (None, collection)
  | Some found =>
      exists before after updated,
        collection = (before ++ found :: after)%list
        /\ forallb (fun e => negb (has_id ident e)) before = true
        /\ update ident data now collection
           = (Some updated, (before ++ updated :: after)%list)
        /\ lookup "updatedAt" updated = Some now
        /\ (forall k, k <> "updatedAt" ->
                      lookup k updated
                      = match lookup k (spread data) with
                        | Some v => Some v
                        | None => lookup k found
                        end)
  end.
Proof.
  unfold findById, update.
  pose proof (findIndex_split (has_id ident) collection) as Hsplit.
  destruct (findIndex (has_id ident) collection) as [index |].
  - destruct Hsplit as [before [found [after [Heq [Hlen [Hall [Hp Hfind]]]]]]].
    rewrite Hfind. subst index collection.
    exists before, after,
      (own_entries (found ++ spread data ++ [("updatedAt", now)])).
    split; [reflexivity |]. split; [exact Hall |].
    rewrite nth_middle_default, assign_at_middle.
    split; [reflexivity |]. split.
    + rewrite lookup_own_entries, !lookup_app. reflexivity.
    + intros k Hk. rewrite lookup_own_entries, !lookup_app. cbn [lookup].
      destruct (String.eqb_spec k "updatedAt"); [contradiction | reflexivity].
  - now rewrite Hsplit.
Qed.

(** X2: [update] of an id that no entity has returns [null] and changes
    nothing.  Otherwise it replaces the first entity with that id, in
    place, by that entity overlaid with the data and with [updatedAt] set
    last; every other entity keeps its place. *)
Theorem update_replaces_first_match (ident : string) (data now : JsValue)
        (collection : list Entity) :
  match findById ident collection with
  | None => update ident data now collection = (None, collection)
  | Some found =>
      exists before after updated,
        collection = (before ++ found :: after)%list
        /\ forallb (fun e => negb (has_id ident e)) before = true
        /\ update ident data now collection
           = (Some updated, (before ++ updated :: after)%list)
        /\ lookup "updatedAt" updated = Some now
        /\ (forall k, k <> "updatedAt" ->
                      lookup k updated
                      = match lookup k (spread data) with
                        | Some v => Some v
                        | None => lookup k found
                        end)
  end.
Proof. exact (update_at_first_match ident data now collection). Qed.

Lemma find_skip_prefix (p : Entity -> bool) (before rest : list Entity) :
  forallb (fun e => negb (p e)) before = true ->
  find p (before ++ rest) = find p rest.
Proof.
  induction before as [| e before IH]; simpl; [reflexivity |].
  intros Hall. apply andb_prop in Hall. destruct Hall as [He Hrest].
  destruct (p e); [discriminate | now apply IH].
Qed.

(** X3: when the data does not define [id], the entity [update] returns
    is the one [findById] finds afterwards; for an unknown id both are
    [null]. *)
Theorem update_then_findById (ident : string) (data now : JsValue)
        (collection : list Entity) :
  lookup "id" (spread data) = None ->
  findById ident (snd (update ident data now collection))
  = fst (update ident data now collection).
Proof.
  intros Hdata.
  pose proof (update_at_first_match ident data now collection) as Hup.
  destruct (findById ident collection) as [found |] eqn:Hfound.
  - destruct Hup as [before [after [updated [Heq [Hall [Hupd [_ Hk]]]]]]].
    rewrite Hupd. cbn [fst snd]. unfold findById.
    rewrite (find_skip_prefix _ _ _ Hall). cbn [find].
    assert (Hid : has_id ident updated = true).
    { unfold has_id. rewrite (Hk "id") by discriminate. rewrite Hdata.
      unfold findById in Hfound. apply find_some in Hfound. exact (proj2 Hfound). }
    now rewrite Hid.
  - rewrite Hup. exact Hfound.
Qed.

(** *** [delete] *)

Lemma find_filter_other (p q : Entity -> bool) (l : list Entity) :
  (forall e, p e = true -> q e = true) ->
  find p (filter q l) = find p l.
Proof.
  intros Hpq. induction l as [| e l IH]; simpl; [reflexivity |].
  destruct (p e) eqn:Hp.
  - rewrite (Hpq e Hp). simpl. now rewrite Hp.
  - destruct (q e); simpl; [now rewrite Hp |]; exact IH.
Qed.

Lemma find_filter_none (p : Entity -> bool) (l : list Entity) :
  find p (filter (fun e => negb (p e)) l) = None.
Proof.
  induction l as [| e l IH]; simpl; [reflexivity |].
  destruct (p e) eqn:Hp; simpl; [exact IH | now rewrite Hp].
Qed.

Lemma filter_shorter_iff (p : Entity -> bool) (l : list Entity) :
  List.length (filter (fun e => negb (p e)) l) < List.length l
  <-> find p l <> None.
Proof.
  induction l as [| e l IH]; simpl; [split; [lia | congruence] |].
  destruct (p e); simpl.
  - split; [discriminate |]. intros _.
    pose proof (filter_length_le (fun e => negb (p e)) l). lia.
  - rewrite <- Nat.succ_lt_mono. exact IH.
Qed.

(* What [delete] does to [findById], shared by the facts on the services. *)
Lemma delete_filters_the_id (ident : string) (collection : list Entity) :
  findById ident (snd (delete ident collection)) = None
  /\ (forall other, other <> ident ->
                    findById other (snd (delete ident collection))
                    = findById other collection)
  /\ (fst (delete ident collection) = true <-> findById ident collection <> None).
Proof.
  unfold delete, findById. cbn [fst snd]. split; [apply find_filter_none |]. split.
  - intros other Hne. apply find_filter_other. intros e He.
    destruct (has_id ident e) eqn:Hi; [| reflexivity].
    contradiction Hne. exact (has_id_unique other ident e He Hi).
  - rewrite Nat.ltb_lt. apply filter_shorter_iff.
Qed.

(** X4: after [delete] no entity is found under the deleted id, every
    other id is found as before, and the result tells whether an entity
    was found under the id before. *)
Theorem delete_then_findById (ident : string) (collection : list Entity) :
  findById ident (snd (delete ident collection)) = None
  /\ (forall other, other <> ident ->
                    findById other (snd (delete ident collection))
                    = findById other collection)
  /\ (fst (delete ident collection) = true <-> findById ident collection <> None).
Proof. exact (delete_filters_the_id ident collection). Qed.

End ObjectRepositoryFacts.

(** X3, run: the name of the stored entity is changed. *)
Lemma update_then_findById_witness :
  let stored := fst (ObjectRepository.create (JObj [("name", JStr "a")]) "id-1" (JNum 1) []) in
  lookup "id" (spread (JObj [("name", JStr "b")])) = None
  /\ ObjectRepository.findById "id-1"
       (snd (ObjectRepository.update "id-1" (JObj [("name", JStr "b")]) (JNum 2) [stored]))
     = Some [("name", JStr "b"); ("id", JStr "id-1"); ("createdAt", JNum 1);
             ("updatedAt", JNum 2)].
Proof.
  intros stored. split; [reflexivity |].
  rewrite (update_then_findById "id-1" (JObj [("name", JStr "b")]) (JNum 2) [stored]
             eq_refl).
  reflexivity.
Defined.

(** ** Pagination *)

Section PaginationFacts.

Import ObjectRepository.

Lemma slice_window {A : Type} (l : list A) (a b : Z) :
  (0 <= a)%Z -> (0 <= b)%Z ->
  slice l a (a + b) = firstn (Z.to_nat b) (skipn (Z.to_nat a) l).
Proof.
  intros Ha Hb. unfold slice.
  destruct (Z.ltb_spec a 0) as [Hneg | _]; [lia |].
  destruct (Z.ltb_spec (a + b) 0) as [Hneg | _]; [lia |].
  destruct (Z_le_gt_dec a (Z.of_nat (List.length l))) as [Hin | Hout].
  - rewrite (Z.min_l a) by lia.
    destruct (Z_le_gt_dec (a + b) (Z.of_nat (List.length l))) as [Hfit | Hover].
    + rewrite Z.min_l by lia. f_equal. lia.
    + rewrite Z.min_r by lia.
      rewrite !firstn_all2; [reflexivity | |]; rewrite length_skipn; lia.
  - rewrite !Z.min_r by lia. rewrite Z.sub_diag. simpl.
    rewrite (skipn_all2 (n := Z.to_nat a)) by lia. now rewrite firstn_nil.
Qed.

Lemma firstn_plus {A : Type} (a b : nat) (l : list A) :
  firstn (a + b) l = (firstn a l ++ firstn b (skipn a l))%list.
Proof.
  revert l. induction a as [| a IH]; intros l; simpl; [reflexivity |].
  destruct l as [| x l]; simpl; [now rewrite firstn_nil | now rewrite IH].
Qed.

Lemma page_window (result : list Entity) (p size : Z) :
  (1 <= p)%Z -> (1 <= size)%Z ->
  paginate result (Some p) (Some size)
  = (firstn (Z.to_nat size) (skipn (Z.to_nat ((p - 1) * size)) result),
     {| page := p; pageSize := size; total := Z.of_nat (List.length result) |}).
Proof.
  intros Hp Hs. unfold paginate, number_or.
  destruct (Z.eqb_spec p 0); [lia |]. destruct (Z.eqb_spec size 0); [lia |].
  rewrite slice_window by nia. reflexivity.
Qed.

(** X5: for a page size of at least 1, page [p] (counted from 1) holds at
    most that many entities, and the pages 1 to [n] put one after the
    other are the first [n] times page-size entities of the result: no
    entity is skipped or repeated, and enough pages give back the whole
    result. *)
Theorem pages_partition_the_result (result : list Entity) (size : Z) (n : nat) :
  (1 <= size)%Z ->
  let page_of (i : nat) := fst (paginate result (Some (Z.of_nat (S i))) (Some size)) in
  (forall i, List.length (page_of i) <= Z.to_nat size)
  /\ flat_map page_of (seq 0 n) = firstn (n * Z.to_nat size) result
  /\ (List.length result <= n * Z.to_nat size -> flat_map page_of (seq 0 n) = result).
Proof.
  intros Hs page_of.
  assert (Hpage : forall i, page_of i
                            = firstn (Z.to_nat size) (skipn (i * Z.to_nat size) result)).
  { intros i. unfold page_of. rewrite page_window by lia. cbn [fst].
    f_equal. f_equal. nia. }
  assert (Hbook : flat_map page_of (seq 0 n) = firstn (n * Z.to_nat size) result).
  { induction n as [| n IH]; [reflexivity |].
    rewrite seq_S, flat_map_app, IH. cbn [flat_map Nat.add]. rewrite app_nil_r, Hpage.
    replace (S n * Z.to_nat size) with (n * Z.to_nat size + Z.to_nat size) by lia.
    now rewrite firstn_plus. }
  split; [| split].
  - intros i. rewrite Hpage. apply firstn_le_length.
  - exact Hbook.
  - intros Hall. rewrite Hbook. now apply firstn_all2.
Qed.

(** X6: without a page and a page size, and equally with 0 for either,
    the whole result is returned as page 1, with the page size equal to
    the total. *)
Theorem unpaginated_returns_everything (result : list Entity) :
  let everything :=
    (result, {| page := 1; pageSize := Z.of_nat (List.length result);
                total := Z.of_nat (List.length result) |}) in
  paginate result None None = everything
  /\ paginate result (Some 0%Z) (Some 0%Z) = everything
  /\ paginate result (Some 1%Z) None = everything.
Proof.
  assert (H : slice result 0 (0 + Z.of_nat (List.length result)) = result).
  { rewrite slice_window by lia. simpl. rewrite Nat2Z.id. apply firstn_all. }
  simpl in H. unfold paginate, number_or. simpl.
  repeat split; f_equal; exact H.
Qed.

End PaginationFacts.

(** X5, run: five entities in pages of two. *)
Lemma pages_partition_witness :
  let e (i : string) : ObjectRepository.Entity := [("id", JStr i)] in
  let result := [e "1"; e "2"; e "3"; e "4"; e "5"] in
  (1 <= 2)%Z
  /\ flat_map (fun i => fst (ObjectRepository.paginate result (Some (Z.of_nat (S i)))
                                                       (Some 2%Z)))
              (seq 0 3)
     = result.
Proof.
  intros e result. split; [lia |].
  apply (proj2 (proj2 (pages_partition_the_result result 2 3 ltac:(lia)))).
  simpl. lia.
Defined.

(** ** The application service *)

Section ServiceFacts.

Import ObjectRepository.

Lemma not_found_is_NotFoundError (entity : string) (ident : option string) :
  instanceof (Types.NotFoundError entity ident) "NotFoundError" = true
  /\ get_opt (Types.NotFoundError entity ident) "message"
     = JStr (entity ++ " not found" ++ Types.id_suffix ident).
Proof. split; reflexivity. Qed.

Lemma validation_is_ValidationError (message : string) :
  instanceof (Types.ValidationError message) "ValidationError" = true
  /\ instanceof (Types.ValidationError message) "NotFoundError" = false
  /\ get_opt (Types.ValidationError message) "message" = JStr message.
Proof. repeat split; reflexivity. Qed.

Lemma execute_cases (ident : string) (collection : list Entity) :
  GetSampleUseCase.execute ident collection
  = if String.eqb ident "" then Throw (Types.ValidationError "Sample ID is required")
    else match findById ident collection with
         | Some sample => Normal sample
         | None => Throw (Types.NotFoundError "Sample" (Some ident))
         end.
Proof.
  unfold GetSampleUseCase.execute. simpl. now destruct (String.eqb ident "").
Qed.

(** X7: the throwing service's [delete] answers [true] for every
    non-empty id, whether an entity had it or not, and afterwards no
    entity has it while every other id is found as before.  For the empty
    id it throws the validation error and changes nothing. *)
Theorem throwing_delete_succeeds_on_absent_ids (ident : string)
        (collection : list Entity) :
  if String.eqb ident ""
  then SampleServiceV1.delete ident collection
       = (Throw (Types.ValidationError "Sample ID is required"), collection)
  else fst (SampleServiceV1.delete ident collection) = Normal true
       /\ findById ident (snd (SampleServiceV1.delete ident collection)) = None
       /\ (forall other, other <> ident ->
                         findById other (snd (SampleServiceV1.delete ident collection))
                         = findById other collection).
Proof.
  unfold SampleServiceV1.delete, SampleServiceV1.getById.
  rewrite execute_cases. destruct (String.eqb ident "") eqn:Hempty.
  - reflexivity.
  - destruct (delete_filters_the_id ident collection) as [Hgone [Hother Hres]].
    destruct (findById ident collection) as [found |] eqn:Hfound; cbn [try_catch].
    + destruct (delete ident collection) as [result collection'] eqn:Hdel.
      cbn [fst snd] in *. split; [| split; assumption].
      f_equal. apply Hres. discriminate.
    + rewrite (proj1 (not_found_is_NotFoundError "Sample" (Some ident))).
      cbn [fst snd]. split; [reflexivity |]. split; [exact Hfound | reflexivity].
Qed.

(** X8: the envelope service's [delete] treats an absent id as an error:
    it answers [NOT_FOUND] with the message of the not-found error and
    changes nothing.  For an id that an entity has it answers
    [{success: true, data: true}], and afterwards no entity has the id. *)
Theorem envelope_delete_rejects_absent_ids (ident : string) (collection : list Entity) :
  match findById ident collection with
  | None =>
      SampleServiceV2.delete ident collection
      = ({| Types.success := false; Types.data := None;
            Types.error :=
              Some {| Types.code := JStr "NOT_FOUND";
                      Types.message :=
                        JStr ("Sample not found" ++ Types.id_suffix (Some ident)) |} |},
         collection)
  | Some _ =>
      fst (SampleServiceV2.delete ident collection)
      = {| Types.success := true; Types.data := Some (JBool true); Types.error := None |}
      /\ findById ident (snd (SampleServiceV2.delete ident collection)) = None
  end.
Proof.
  unfold SampleServiceV2.delete.
  destruct (delete_filters_the_id ident collection) as [Hgone [_ Hres]].
  destruct (findById ident collection) as [found |] eqn:Hfound.
  - destruct (delete ident collection) as [result collection'] eqn:Hdel.
    cbn [fst snd] in *. split; [| exact Hgone].
    unfold SampleServiceV2.succeed. do 3 f_equal. apply Hres. discriminate.
  - reflexivity.
Qed.

(** X9: the envelope service's [get] answers with the first entity that
    has the id; with [NOT_FOUND] when the id is not empty and no entity
    has it; and with [INTERNAL_ERROR], not a validation code, when the id
    is empty. *)
Theorem envelope_get_codes (ident : string) (collection : list Entity) :
  SampleServiceV2.get ident collection
  = if String.eqb ident ""
    then SampleServiceV2.failure "INTERNAL_ERROR"
           (Types.ValidationError "Sample ID is required")
    else match findById ident collection with
         | Some sample => SampleServiceV2.succeed (JObj sample)
         | None => {| Types.success := false; Types.data := None;
                      Types.error :=
                        Some {| Types.code := JStr "NOT_FOUND";
                                Types.message :=
                                  JStr ("Sample not found with ID: " ++ ident) |} |}
         end.
Proof.
  unfold SampleServiceV2.get. rewrite execute_cases.
  destruct (String.eqb ident "") eqn:Hempty; [reflexivity |].
  destruct (findById ident collection); [reflexivity |].
  rewrite (proj1 (not_found_is_NotFoundError "Sample" (Some ident))).
  unfold SampleServiceV2.failure.
  rewrite (proj2 (not_found_is_NotFoundError "Sample" (Some ident))).
  unfold Types.id_suffix. simpl. now rewrite Hempty.
Qed.

End ServiceFacts.

(** ** Creating a sample *)

Section CreateFacts.

Import ObjectRepository CreateSampleUseCase.

Lemma missing_false (field : string) (v : JsValue) :
  missing field v = Normal false <-> exists s, v = JStr s /\ blank s = false.
Proof.
  unfold missing. split.
  - destruct v; simpl; try discriminate.
    + destruct b; discriminate.
    + destruct (z =? 0)%Z; discriminate.
    + destruct (String.eqb s ""); simpl; [discriminate |].
      intros Heq. injection Heq as Hb. exists s. split; [reflexivity | exact Hb].
  - intros [s [-> Hb]]. simpl.
    destruct (String.eqb_spec s "") as [-> | _]; [discriminate Hb | simpl].
    now rewrite Hb.
Qed.

Lemma status_listed (status : JsValue) :
  existsb (ServerlessTransport.strict_eq_str status) statuses = true
  <-> exists s, status = JStr s /\ In s statuses.
Proof.
  rewrite existsb_exists. split.
  - intros [s [Hin Heq]]. destruct status; try discriminate.
    simpl in Heq. apply String.eqb_eq in Heq. subst. now exists s.
  - intros [s [-> Hin]]. exists s. split; [exact Hin | apply String.eqb_refl].
Qed.

(* The checks of [validateInput], read as one equivalence. *)
Lemma validateInput_iff (input : JsValue) :
  nullish input = false ->
  (validateInput input = Normal tt <-> acceptable input).
Proof.
  intros Hn. unfold validateInput, acceptable.
  rewrite !(get_defined input) by exact Hn. cbn [bind].
  set (name := get_opt input "name").
  set (description := get_opt input "description").
  set (status := get_opt input "status").
  set (metadata := get_opt input "metadata").
  split.
  - destruct (missing "name" name) as [[|] |] eqn:Hname; cbn [bind]; try discriminate.
    apply missing_false in Hname. destruct Hname as [n [Hn1 Hn2]].
    destruct (too_long name) eqn:Hlong; try discriminate.
    destruct (missing "description" description) as [[|] |] eqn:Hdesc; cbn [bind];
      try discriminate.
    apply missing_false in Hdesc. destruct Hdesc as [d [Hd1 Hd2]].
    destruct (truthy status) eqn:Hst; cbn [andb].
    + destruct (existsb (ServerlessTransport.strict_eq_str status) statuses) eqn:Hex;
        cbn [negb]; try discriminate.
      apply status_listed in Hex.
      destruct (truthy metadata) eqn:Hm; cbn [andb].
      * destruct (not_typeof_object metadata) eqn:Ho; try discriminate. intros _.
        split; [exists n | split; [exists d | split; [right | right]]]; auto.
        rewrite Hn1 in Hlong. simpl in Hlong. apply Nat.ltb_ge in Hlong. auto.
      * intros _.
        split; [exists n | split; [exists d | split; [right | left]]]; auto.
        rewrite Hn1 in Hlong. simpl in Hlong. apply Nat.ltb_ge in Hlong. auto.
    + destruct (truthy metadata) eqn:Hm; cbn [andb].
      * destruct (not_typeof_object metadata) eqn:Ho; try discriminate. intros _.
        split; [exists n | split; [exists d | split; [left | right]]]; auto.
        rewrite Hn1 in Hlong. simpl in Hlong. apply Nat.ltb_ge in Hlong. auto.
      * intros _.
        split; [exists n | split; [exists d | split; [left | left]]]; auto.
        rewrite Hn1 in Hlong. simpl in Hlong. apply Nat.ltb_ge in Hlong. auto.
  - intros [[n [Hn1 [Hn2 Hn3]]] [[d [Hd1 Hd2]] [Hst Hm]]].
    rewrite (proj2 (missing_false "name" name)) by (exists n; auto). cbn [bind].
    rewrite Hn1. cbn [too_long]. rewrite (proj2 (Nat.ltb_ge _ _) Hn3).
    rewrite (proj2 (missing_false "description" description)) by (exists d; auto).
    cbn [bind].
    assert (Hs : truthy status
                 && negb (existsb (ServerlessTransport.strict_eq_str status) statuses)
                 = false).
    { destruct Hst as [-> | Hin]; [reflexivity |].
      rewrite (proj2 (status_listed status) Hin). apply andb_false_r. }
    rewrite Hs.
    assert (Hmeta : truthy metadata && not_typeof_object metadata = false).
    { destruct Hm as [-> | ->]; [reflexivity | apply andb_false_r]. }
    now rewrite Hmeta.
Qed.

(** X10: an input that has properties passes [validateInput] exactly
    when its name is a string that is not blank and at most 100 code
    units long, its description is a string that is not blank, its
    status is falsy or one of [active], [inactive], [pending], and its
    metadata is falsy or an object. *)
Theorem validateInput_accepts (input : JsValue) :
  nullish input = false ->
  (validateInput input = Normal tt <-> acceptable input).
Proof. exact (validateInput_iff input). Qed.

Lemma validateInput_defined (input : JsValue) :
  validateInput input = Normal tt -> nullish input = false.
Proof. destruct input; intros H; try reflexivity; vm_compute in H; discriminate H. Qed.

(** X11: every sample the use case stores has a status among [active],
    [inactive] and [pending] ([pending] when the input gives none), a
    name that is not blank and at most 100 code units long, a description
    that is not blank, and the generated id; it is appended to the
    collection. *)
Theorem created_sample_is_well_formed (input : JsValue) (ident : string) (now : JsValue)
        (collection collection' : list Entity) (created : Entity) :
  execute input ident now collection = (Normal created, collection') ->
  collection' = (collection ++ [created])%list
  /\ lookup "id" created = Some (JStr ident)
  /\ (exists s, lookup "status" created = Some (JStr s) /\ In s statuses)
  /\ (truthy (get_opt input "status") = false ->
      lookup "status" created = Some (JStr "pending"))
  /\ (exists n, lookup "name" created = Some (JStr n) /\ blank n = false
                /\ String.length n <= 100)
  /\ (exists d, lookup "description" created = Some (JStr d) /\ blank d = false).
Proof.
  unfold execute. destruct (validateInput input) as [[] |] eqn:Hv; [| discriminate].
  pose proof (validateInput_defined input Hv) as Hn.
  apply (validateInput_iff input Hn) in Hv.
  destruct Hv as [[n [Hn1 [Hn2 Hn3]]] [[d [Hd1 Hd2]] [Hst _]]].
  change (create (sampleData input) ident now collection)
    with (fst (create (sampleData input) ident now []),
          (collection ++ [fst (create (sampleData input) ident now [])])%list).
  cbv iota. intros Heq. injection Heq as Hc Hc'. subst created collection'.
  pose proof (created_lookup (sampleData input) ident now) as Hk.
  split; [reflexivity |]. split; [rewrite Hk; reflexivity |].
  split; [| split; [| split]].
  - rewrite Hk. cbn. unfold or_else.
    destruct Hst as [Hf | [s [Hs Hin]]].
    + rewrite Hf. exists "pending". split; [reflexivity | simpl; auto].
    + rewrite Hs. destruct (truthy (JStr s)); [exists s; auto |].
      exists "pending". split; [reflexivity | simpl; auto].
  - intros Hf. rewrite Hk. cbn. unfold or_else. now rewrite Hf.
  - exists n. rewrite Hk. cbn. rewrite Hn1. auto.
  - exists d. rewrite Hk. cbn. rewrite Hd1. auto.
Qed.

End CreateFacts.

(** X10, run: a name and a description. *)
Lemma validateInput_witness :
  let input := JObj [("name", JStr "Sample"); ("description", JStr "A sample")] in
  nullish input = false
  /\ (CreateSampleUseCase.validateInput input = Normal tt <-> acceptable input).
Proof.
  intros input. split; [reflexivity |].
  exact (validateInput_accepts input eq_refl).
Defined.

(** X11, run: the status defaults to [pending]. *)
Lemma created_sample_witness :
  let input := JObj [("name", JStr "Sample"); ("description", JStr "A sample")] in
  exists created collection',
    CreateSampleUseCase.execute input "id-1" (JNum 7) [] = (Normal created, collection')
    /\ lookup "status" created = Some (JStr "pending")
    /\ collection' = [created].
Proof.
  intros input. eexists. eexists. split; [vm_compute; reflexivity |].
  match goal with
  | |- lookup "status" ?c = _ /\ ?l = _ =>
      destruct (created_sample_is_well_formed input "id-1" (JNum 7) [] l c)
        as [Hc [_ [_ [Hpending _]]]]; [vm_compute; reflexivity |]
  end.
  split; [apply Hpending; reflexivity | exact Hc].
Defined.

(** ** The serverless handler: what it throws and what it calls *)

Section HandlerRobustness.

Import ServerlessTransport Types.

Variable JSON_parse : JsValue -> Completion JsValue.
Variable broker_call : string -> JsValue -> JsValue -> Completion JsValue.
Variable now : Z.
Variable cfg : Settings.

Lemma get_throws_objects (v : JsValue) (k : string) : throws_objects (get v k).
Proof.
  destruct v; simpl; auto.
  - destruct (String.eqb k "length"); [exact I |]. now destruct (index_of_key k).
  - destruct (String.eqb k "length"); [exact I |]. now destruct (index_of_key k).
Qed.

Lemma bind_throws_objects {A B : Type} (c : Completion A) (k : A -> Completion B) :
  throws_objects c -> (forall a, throws_objects (k a)) -> throws_objects (bind c k).
Proof. destruct c; simpl; auto. Qed.

Lemma try_catch_throws_objects {A : Type} (c : Completion A)
      (h : JsValue -> Completion A) :
  (forall e, throws_objects (h e)) -> throws_objects (try_catch c h).
Proof. destruct c; simpl; auto. Qed.

(** A conversion to a string throws nothing but a [TypeError]. *)
Lemma ToString_throws_objects (v : JsValue) : throws_objects (ToString v).
Proof.
  induction v as [| | [|] | z | | s | xs IH | ps _] using JsValue_elements_ind;
    try exact I.
  - cbn [ToString]. apply bind_throws_objects; [| intros parts; exact I].
    induction IH as [| x rest Hx _ IHrest]; [exact I |].
    apply bind_throws_objects.
    + destruct x; try exact I; exact Hx.
    + intros s. apply bind_throws_objects; [exact IHrest | intros more; exact I].
  - cbn [ToString]. destruct (lookup "toString" ps); [reflexivity | exact I].
Qed.

Lemma Member_ToString_throws_objects (m : Member) : throws_objects (Member_ToString m).
Proof. destruct m; [apply ToString_throws_objects | exact I]. Qed.

Lemma route_action_throws_objects (parts : list string) (method : JsValue) :
  throws_objects (route_action parts method).
Proof.
  unfold route_action, get_computed.
  destruct (Nat.eqb (List.length parts) 1).
  - destruct (strict_eq_str method "GET"); [exact I |].
    destruct (strict_eq_str method "POST"); exact I.
  - destruct (Nat.eqb (List.length parts) 2 && numeric_part parts); [| exact I].
    apply bind_throws_objects; [| intros routed; exact I].
    apply bind_throws_objects; [apply ToString_throws_objects | intros k; exact I].
Qed.

Ltac objects :=
  repeat first
    [ exact I
    | reflexivity
    | apply get_throws_objects
    | apply route_action_throws_objects
    | apply bind_throws_objects; [| intros ?]
    | apply try_catch_throws_objects; intros ?
    | match goal with
      | |- throws_objects (if ?b then _ else _) => destruct b
      | |- throws_objects (get_index _ _) => unfold get_index
      | |- throws_objects (and_then _ _) => unfold and_then
      end ].

Lemma parseEvent_throws_objects (ev : JsValue) : throws_objects (parseEvent JSON_parse ev).
Proof.
  unfold parseEvent, records_tagged, parseApiGatewayEvent, parseSQSEvent, parseSNSEvent,
    parseDirect, parseFallback, body_params.
  objects.
  all: match goal with
       | |- throws_objects (pathParts_of ?p) => destruct p; simpl; auto
       end.
Qed.

Lemma prepare_throws_objects (ev ctxt ctxId : JsValue) :
  throws_objects (prepare JSON_parse now cfg ev ctxt ctxId).
Proof.
  unfold prepare, getEventSize, JSON_stringify, size_error.
  destruct (stringify ev); cbn [bind try_catch Buffer_byteLength].
  - destruct (utf8_length s >? maxPayloadSize cfg)%Z; [reflexivity |].
    apply bind_throws_objects; [apply parseEvent_throws_objects | intros inv].
    objects.
  - destruct (0 >? maxPayloadSize cfg)%Z; [reflexivity |].
    apply bind_throws_objects; [apply parseEvent_throws_objects | intros inv].
    objects.
Qed.

Lemma target_throws_objects (c : Call) : throws_objects (target c).
Proof.
  unfold target.
  apply bind_throws_objects; [apply ToString_throws_objects | intros s].
  apply bind_throws_objects; [apply Member_ToString_throws_objects | intros a; exact I].
Qed.

(** X12: as long as the broker never rejects a call with [null] or
    [undefined], the handler never throws: for every event and context it
    returns an envelope, and the envelope carries data exactly when it
    reports success and an error exactly when it does not. *)
Theorem handler_always_answers (ctx : Context) :
  (forall target p opts, throws_objects (broker_call target p opts)) ->
  exists response effects,
    handler JSON_parse broker_call now cfg ctx = (Normal response, effects)
    /\ (success response = true -> data response <> None /\ error response = None)
    /\ (success response = false -> data response = None /\ error response <> None).
Proof.
  intros Hbroker. unfold handler, try_block.
  pose proof (prepare_throws_objects (event ctx) (context_or_default ctx) (id ctx)) as Hp.
  destruct (prepare JSON_parse now cfg (event ctx) (context_or_default ctx) (id ctx))
    as [c | e]; simpl in Hp.
  - pose proof (target_throws_objects c) as Ht.
    destruct (target c) as [name | e]; simpl in Ht.
    + pose proof (Hbroker name (callParams c) (callOpts c)) as Hb.
      destruct (broker_call name (callParams c) (callOpts c)) as [result | e];
        simpl in Hb.
      * eexists. eexists. split; [reflexivity |]. simpl.
        split; [intros _; split; [discriminate | reflexivity] | discriminate].
      * rewrite (catch_block_defined _ _ Hb).
        eexists. eexists. split; [reflexivity |]. simpl.
        split; [discriminate | intros _; split; [reflexivity | discriminate]].
    + rewrite (catch_block_defined _ _ Ht).
      eexists. eexists. split; [reflexivity |]. simpl.
      split; [discriminate | intros _; split; [reflexivity | discriminate]].
  - rewrite (catch_block_defined _ _ Hp).
    eexists. eexists. split; [reflexivity |]. simpl.
    split; [discriminate | intros _; split; [reflexivity | discriminate]].
Qed.

(** X13: when the [try] block throws a value with a truthy [code], the
    envelope carries that very code, whatever its type, next to the
    message chosen as for any other error. *)
Theorem coded_error_keeps_its_code (ctx : Context) (err : JsValue) (effs : list Effect) :
  try_block JSON_parse broker_call now cfg (event ctx) (context_or_default ctx) (id ctx)
  = (Throw err, effs) ->
  truthy (get_opt err "code") = true ->
  fst (handler JSON_parse broker_call now cfg ctx)
  = Normal {| success := false;
              data := None;
              error := Some {| code := get_opt err "code";
                               message := or_else (get_opt err "message")
                                                  generic_message |} |}.
Proof.
  intros Htry Hcode. unfold handler. rewrite Htry.
  assert (Hn : nullish err = false) by (destruct err; simpl in *; congruence).
  rewrite (catch_block_defined _ _ Hn). cbn [fst].
  unfold or_else at 1. now rewrite Hcode.
Qed.

End HandlerRobustness.

Section RequestMetadata.

Import ServerlessTransport Types.

Variable JSON_parse : JsValue -> Completion JsValue.
Variable broker_call : string -> JsValue -> JsValue -> Completion JsValue.
Variable now : Z.
Variable cfg : Settings.


End RequestMetadata.

(** The name of the action for a service that is a number, and for one
    that cannot be converted. *)
Example action_names :
  let ctx_of (service : JsValue) :=
    {| ServerlessTransport.event := JObj [("service", service); ("action", JStr "get")];
       ServerlessTransport.context := JUndefined;
       ServerlessTransport.id := JStr "ctx-1" |} in
  (exists opts,
      snd (ServerlessTransport.handler reference_parse Examples.echo_broker 0
             ServerlessTransport.settings (ctx_of (JNum (10 ^ 21))))
      = [ ServerlessTransport.LogDebug
            [("service", Data (JNum (10 ^ 21))); ("action", Data (JStr "get"));
             ("requestId", Data (JStr "ctx-1"))]
            "Processing serverless event";
          ServerlessTransport.BrokerCall "1e+21.get" (JObj []) opts;
          ServerlessTransport.LogDebug [("requestId", Data (JStr "ctx-1"))]
            "Successfully processed serverless event" ])
  /\ fst (ServerlessTransport.handler reference_parse Examples.echo_broker 0
             ServerlessTransport.settings (ctx_of (JObj [("toString", JNum 1)])))
     = Normal {| Types.success := false;
                 Types.data := None;
                 Types.error :=
                   Some {| Types.code := JStr "INTERNAL_ERROR";
                           Types.message :=
                             JStr "Cannot convert object to primitive value" |} |}.
Proof. intros ctx_of. split; [eexists |]; vm_compute; reflexivity. Qed.

(** X12, run: a broker that answers. *)
Lemma handler_always_answers_witness :
  (forall target p opts, throws_objects (Examples.echo_broker target p opts))
  /\ exists response effects,
      ServerlessTransport.handler reference_parse Examples.echo_broker 0
        ServerlessTransport.settings Examples.direct_ctx
      = (Normal response, effects).
Proof.
  assert (Hb : forall target p opts, throws_objects (Examples.echo_broker target p opts))
    by (intros; exact I).
  split; [exact Hb |].
  destruct (handler_always_answers reference_parse Examples.echo_broker 0
              ServerlessTransport.settings Examples.direct_ctx Hb)
    as [response [effects [Hh _]]].
  now exists response, effects.
Defined.

(** X13, run: a call rejected with the code 404. *)
Lemma coded_error_witness :
  ServerlessTransport.try_block reference_parse MoreExamples.coded_broker 0
      ServerlessTransport.settings
      (ServerlessTransport.event Examples.direct_ctx)
      (ServerlessTransport.context_or_default Examples.direct_ctx)
      (ServerlessTransport.id Examples.direct_ctx)
  = (Throw MoreExamples.coded, Examples.direct_effects)
  /\ truthy (get_opt MoreExamples.coded "code") = true
  /\ fst (ServerlessTransport.handler reference_parse MoreExamples.coded_broker 0
            ServerlessTransport.settings Examples.direct_ctx)
     = Normal {| Types.success := false;
                 Types.data := None;
                 Types.error :=
                   Some {| Types.code := JNum 404;
                           Types.message := JStr "Service 'sample.get' is not found." |} |}.
Proof.
  assert (Htry : ServerlessTransport.try_block reference_parse MoreExamples.coded_broker 0
                   ServerlessTransport.settings
                   (ServerlessTransport.event Examples.direct_ctx)
                   (ServerlessTransport.context_or_default Examples.direct_ctx)
                   (ServerlessTransport.id Examples.direct_ctx)
                 = (Throw MoreExamples.coded, Examples.direct_effects))
    by (vm_compute; reflexivity).
  split; [exact Htry |]. split; [reflexivity |].
  exact (coded_error_keeps_its_code reference_parse MoreExamples.coded_broker 0
           ServerlessTransport.settings Examples.direct_ctx MoreExamples.coded
           Examples.direct_effects Htry eq_refl).
Defined.


(** ** Paths and identifiers *)

Section PathFacts.

Import ServerlessTransport.

Lemma split_on_slash_free (s : string) :
  slash_free s = true -> split_on "/"%char s = [s].
Proof.
  unfold slash_free. induction s as [| c s IH]; simpl; [reflexivity |].
  intros Hall. apply andb_prop in Hall. destruct Hall as [Hc Hs].
  destruct (Ascii.eqb c "/"%char); [discriminate |]. now rewrite (IH Hs).
Qed.

Lemma split_on_segment (s t : string) :
  slash_free s = true ->
  split_on "/"%char (s ++ String "/"%char t) = s :: split_on "/"%char t.
Proof.
  unfold slash_free. induction s as [| c s IH]; simpl; [reflexivity |].
  intros Hall. apply andb_prop in Hall. destruct Hall as [Hc Hs].
  destruct (Ascii.eqb c "/"%char); [discriminate |]. now rewrite (IH Hs).
Qed.

Lemma split_on_nonempty (p : string) : split_on "/"%char p <> [].
Proof.
  destruct p as [| c p]; simpl; [discriminate |].
  destruct (Ascii.eqb c "/"%char); [discriminate |].
  destruct (split_on "/"%char p); discriminate.
Qed.

Lemma split_on_trailing (p : string) :
  split_on "/"%char (p ++ "/") = (split_on "/"%char p ++ [""])%list.
Proof.
  induction p as [| c p IH]; simpl; [reflexivity |].
  destruct (Ascii.eqb c "/"%char); rewrite IH; [reflexivity |].
  pose proof (split_on_nonempty p) as Hne.
  destruct (split_on "/"%char p); [contradiction | reflexivity].
Qed.

Lemma split_on_parts_slash_free (p s : string) :
  In s (split_on "/"%char p) -> slash_free s = true.
Proof.
  revert s. induction p as [| c p IH]; simpl; intros s.
  - intros [<- | []]. reflexivity.
  - destruct (Ascii.eqb c "/"%char) eqn:Hc.
    + intros [<- | Hin]; [reflexivity | now apply IH].
    + destruct (split_on "/"%char p) as [| cur more] eqn:Hsplit.
      * intros [<- | []]. unfold slash_free. simpl. now rewrite Hc.
      * intros [<- | Hin].
        -- unfold slash_free. simpl. rewrite Hc. simpl.
           apply (IH cur). now left.
        -- apply IH. now right.
Qed.

(** X15: the segments of a path are never empty and hold no slash; a
    slash at either end of the path changes nothing; and joining
    non-empty slash-free segments with slashes gives a path that splits
    back into exactly these segments. *)
Theorem segments_round_trip :
  (forall p s, In s (segments p) -> s <> "" /\ slash_free s = true)
  /\ (forall p, segments (String "/"%char p) = segments p)
  /\ (forall p, segments (p ++ "/") = segments p)
  /\ (forall parts,
        forallb (fun s => negb (String.eqb s "") && slash_free s) parts = true ->
        segments (String.concat "/" parts) = parts).
Proof.
  split; [| split; [| split]].
  - intros p s Hin. unfold segments in Hin. apply filter_In in Hin.
    destruct Hin as [Hin Ht]. split.
    + intros ->. discriminate Ht.
    + exact (split_on_parts_slash_free p s Hin).
  - intros p. reflexivity.
  - intros p. unfold segments. rewrite split_on_trailing, filter_app. simpl.
    apply app_nil_r.
  - unfold segments. induction parts as [| s parts IH]; [reflexivity |].
    cbn [forallb]. intros Hall. apply andb_prop in Hall. destruct Hall as [Hs Hrest].
    apply andb_prop in Hs. destruct Hs as [Hne Hfree].
    assert (Ht : truthy (JStr s) = true) by exact Hne.
    destruct parts as [| t parts].
    + cbn [String.concat]. rewrite (split_on_slash_free s Hfree). cbn [filter].
      now rewrite Ht.
    + change (String.concat "/" (s :: t :: parts))
        with (s ++ String "/"%char (String.concat "/" (t :: parts))).
      rewrite (split_on_segment _ _ Hfree). cbn [filter]. rewrite Ht.
      f_equal. exact (IH Hrest).
Qed.

(** *** Numeric segments *)

Lemma digit_is_plain (c : ascii) :
  is_digit c = true ->
  is_ws c = false /\ is_sign c = false
  /\ Ascii.eqb c "I"%char = false
  /\ (Ascii.eqb c "x"%char || Ascii.eqb c "X"%char) = false
  /\ (Ascii.eqb c "o"%char || Ascii.eqb c "O"%char) = false
  /\ (Ascii.eqb c "b"%char || Ascii.eqb c "B"%char) = false.
Proof.
  destruct c as [[] [] [] [] [] [] [] []]; intros H; try discriminate H;
    repeat split; reflexivity.
Qed.

Lemma span_all_digits (l : list ascii) :
  forallb is_digit l = true -> span_digits l = (l, []).
Proof.
  induction l as [| c l IH]; simpl; [reflexivity |].
  intros Hall. apply andb_prop in Hall. destruct Hall as [Hc Hl].
  now rewrite Hc, (IH Hl).
Qed.

Lemma trim_left_digits (l : list ascii) :
  forallb is_digit l = true -> trim_left l = l.
Proof.
  destruct l as [| c l]; simpl; [reflexivity |].
  intros Hall. apply andb_prop in Hall. destruct Hall as [Hc _].
  now rewrite (proj1 (digit_is_plain c Hc)).
Qed.

Lemma forallb_rev {A : Type} (p : A -> bool) (l : list A) :
  forallb p l = true -> forallb p (rev l) = true.
Proof.
  rewrite !forallb_forall. intros H x Hin. apply H. now apply in_rev.
Qed.

Lemma trim_left_blank (l : list ascii) : forallb is_ws l = true -> trim_left l = [].
Proof.
  induction l as [| c l IH]; simpl; [reflexivity |].
  intros Hall. apply andb_prop in Hall. destruct Hall as [Hc Hl]. now rewrite Hc, IH.
Qed.

(** X16: a segment that is a non-empty run of decimal digits counts as
    an identifier ([isNaN] is false for it), and so does a segment made of
    white space only. *)
Theorem digits_and_blanks_are_numeric (s : string) :
  (all_digits s = true -> isNaN s = false)
  /\ (forallb is_ws (list_ascii_of_string s) = true -> isNaN s = false).
Proof.
  unfold isNaN, all_digits, all_of. split.
  - intros Hall. apply andb_prop in Hall. destruct Hall as [Hne Hall].
    set (l := list_ascii_of_string s) in *.
    assert (Htrim : trim l = l).
    { unfold trim. rewrite (trim_left_digits l Hall).
      rewrite (trim_left_digits (rev l) (forallb_rev _ _ Hall)). apply rev_involutive. }
    rewrite Htrim. destruct l as [| c rest]; [discriminate Hne |].
    pose proof Hall as Hall'. cbn [forallb] in Hall'. apply andb_prop in Hall'.
    destruct Hall' as [Hc Hrest].
    destruct (digit_is_plain c Hc) as [_ [Hsign [HI _]]].
    assert (Hdec : unsigned_decimal (c :: rest) = true).
    { unfold unsigned_decimal. cbn [string_of_list_ascii String.eqb]. rewrite HI.
      cbn [andb]. now rewrite (span_all_digits (c :: rest) Hall). }
    unfold numeric_literal. rewrite Hsign, Hdec.
    destruct rest as [| x digits]; [reflexivity |].
    cbn [forallb] in Hrest. apply andb_prop in Hrest. destruct Hrest as [Hx _].
    destruct (digit_is_plain x Hx) as [_ [_ [_ [H1 [H2 H3]]]]].
    rewrite H1, H2, H3. now destruct (Ascii.eqb c "0"%char).
  - intros Hall. unfold trim. now rewrite (trim_left_blank _ Hall).
Qed.

End PathFacts.

(** X16, run: [42] and a single space. *)
Lemma digits_and_blanks_witness :
  all_digits "42" = true /\ isNaN "42" = false /\ isNaN " " = false.
Proof.
  split; [reflexivity |].
  split; [exact (proj1 (digits_and_blanks_are_numeric "42") eq_refl)
         | exact (proj2 (digits_and_blanks_are_numeric " ") eq_refl)].
Defined.

(** ** The routing table of the API-Gateway parser *)

Section RoutingFacts.

Import ServerlessTransport.

Variable JSON_parse : JsValue -> Completion JsValue.

(** X17: how an API-Gateway-shaped event with a string path and a string
    method is routed.  The first segment names the service ([sample]
    when there is none).  With one segment the action is [list] for
    [GET], [create] for [POST] and [default] for every other method.
    With two segments of which the second is numeric it is [get],
    [update], [remove] for [GET], [PUT], [DELETE].  With two segments of
    which the second is not numeric, and with three or more segments, the
    second segment itself names the action; without any segment the
    action is [default]. *)
Theorem api_gateway_routing (ev : JsValue) (p m : string) :
  nullish ev = false ->
  get_opt ev "path" = JStr p ->
  get_opt ev "httpMethod" = JStr m ->
  exists inv,
    parseApiGatewayEvent JSON_parse ev = Normal inv
    /\ service inv = match segments p with
                     | [] => JStr "sample"
                     | first :: _ => JStr first
                     end
    /\ match segments p with
       | [] => action inv = JStr "default"
       | [_] =>
           action inv = if String.eqb m "GET" then JStr "list"
                        else if String.eqb m "POST" then JStr "create"
                        else JStr "default"
       | [_; second] =>
           if isNaN second then action inv = JStr second
           else (m = "GET" -> action inv = JStr "get")
                /\ (m = "PUT" -> action inv = JStr "update")
                /\ (m = "DELETE" -> action inv = JStr "remove")
       | _ :: second :: _ :: _ => action inv = JStr second
       end.
Proof.
  intros Hn Hp Hm. eexists. split.
  - rewrite (parseApiGatewayEvent_string_path JSON_parse ev p Hn Hp), Hm.
    rewrite route_action_string. cbn [bind]. reflexivity.
  - cbn [service action].
    pose proof (segments_truthy p) as Ht.
    destruct (segments p) as [| first [| second [| third rest]]].
    + split; reflexivity.
    + split.
      * unfold or_else. cbn [part nth_error]. now rewrite (Ht first (or_introl eq_refl)).
      * cbn [List.length Nat.eqb].
        destruct (String.eqb m "GET"); [reflexivity |].
        destruct (String.eqb m "POST"); reflexivity.
    + assert (Hsecond : truthy (JStr second) = true) by (apply Ht; simpl; auto).
      split.
      * unfold or_else. cbn [part nth_error]. now rewrite (Ht first (or_introl eq_refl)).
      * cbn [List.length Nat.eqb numeric_part part nth_error andb].
        destruct (isNaN second); cbn [negb].
        -- unfold or_else. now rewrite Hsecond.
        -- repeat split; intros ->; reflexivity.
    + assert (Hsecond : truthy (JStr second) = true) by (apply Ht; simpl; auto).
      split.
      * unfold or_else. cbn [part nth_error]. now rewrite (Ht first (or_introl eq_refl)).
      * cbn [List.length Nat.eqb part nth_error andb].
        unfold or_else. now rewrite Hsecond.
Qed.

End RoutingFacts.

(** X17, run: [PUT /sample/42]. *)
Lemma api_gateway_routing_witness :
  nullish Examples.update_event = false
  /\ get_opt Examples.update_event "path" = JStr "/sample/42"
  /\ get_opt Examples.update_event "httpMethod" = JStr "PUT"
  /\ exists inv,
      ServerlessTransport.parseApiGatewayEvent reference_parse Examples.update_event
      = Normal inv
      /\ ServerlessTransport.service inv = JStr "sample"
      /\ ServerlessTransport.action inv = JStr "update".
Proof.
  split; [reflexivity |]. split; [reflexivity |]. split; [reflexivity |].
  destruct (api_gateway_routing reference_parse Examples.update_event "/sample/42" "PUT"
              eq_refl eq_refl eq_refl) as [inv [Hinv [Hs Ha]]].
  exists inv. split; [exact Hinv |]. split; [exact Hs |].
  exact (proj1 (proj2 Ha) eq_refl).
Defined.

(** ** The sample queue *)

Section SampleQueueFacts.

Import QueueTransport.

Variable JSON_parse : JsValue -> Completion JsValue.
Variable broker_call : string -> JsValue -> Completion JsValue.

(** X18: with [handleSampleQueue] as the handler, every text that is
    read and parsed leads to an immediate next poll, whether the broker
    call for it succeeds or fails: a failed message is neither retried nor
    followed by a delay.  The 5000 ms delay follows only a failed read or
    a text that is not JSON. *)
Theorem sample_queue_never_backs_off_for_the_broker
        (reply : Completion (option string)) :
  (forall text message,
      reply = Normal (Some text) -> text <> "" ->
      JSON_parse (JStr text) = Normal message ->
      pollQueue JSON_parse reply (handleSampleQueue broker_call) = SetImmediate)
  /\ (pollQueue JSON_parse reply (handleSampleQueue broker_call) = SetTimeout 5000
      -> (exists e, reply = Throw e)
         \/ exists text e, reply = Normal (Some text)
                           /\ JSON_parse (JStr text) = Throw e).
Proof.
  unfold pollQueue, poll_read. split.
  - intros text message -> Hne Hparse. cbn [truthy].
    destruct (String.eqb_spec text ""); [contradiction |]. cbn [negb].
    rewrite Hparse, handleSampleQueue_completes. reflexivity.
  - destruct reply as [[text |] | e]; cbn [truthy].
    + destruct (String.eqb text ""); cbn [negb]; [discriminate |].
      destruct (JSON_parse (JStr text)) as [message | e] eqn:Hparse.
      * rewrite handleSampleQueue_completes. discriminate.
      * intros _. right. now exists text, e.
    + discriminate.
    + intros _. left. now exists e.
Qed.

End SampleQueueFacts.

(** ** Reading the environment *)

Section ConfigFacts.

Import Config.

(** X19: [getEnv] treats an empty variable like an unset one.  It returns
    the variable's value when that is not empty, otherwise the default,
    and throws exactly when the variable is unset or empty and there is
    no default; so it returns an empty string only when the default is
    empty. *)
Theorem getEnv_falls_back_on_empty (env : Env) (key : string)
        (defaultValue : option string) :
  (forall v, env key = Some v -> v <> "" -> getEnv env key defaultValue = Normal v)
  /\ (env key = None \/ env key = Some "" ->
      getEnv env key defaultValue
      = match defaultValue with
        | Some d => Normal d
        | None => Throw (not_set key)
        end)
  /\ ((exists e, getEnv env key defaultValue = Throw e)
      <-> (env key = None \/ env key = Some "") /\ defaultValue = None)
  /\ (getEnv env key defaultValue = Normal "" -> defaultValue = Some "").
Proof.
  unfold getEnv. destruct (env key) as [v |] eqn:Hv.
  - cbn [truthy]. destruct (String.eqb_spec v "") as [-> | Hne]; cbn [negb].
    + split; [intros v' Heq Hne; congruence |].
      split; [intros _; reflexivity |]. split.
      * destruct defaultValue; split.
        -- intros [e He]. discriminate.
        -- intros [_ Hd]. discriminate.
        -- intros _. auto.
        -- intros _. eexists. reflexivity.
      * destruct defaultValue; [congruence | discriminate].
    + split; [intros v' Heq _; congruence |].
      split; [intros [H | H]; congruence |]. split.
      * split; [intros [e He]; discriminate | intros [[H | H] _]; congruence].
      * congruence.
  - split; [discriminate |]. split; [intros _; reflexivity |]. split.
    + destruct defaultValue; split.
      * intros [e He]. discriminate.
      * intros [_ Hd]. discriminate.
      * intros _. auto.
      * intros _. eexists. reflexivity.
    + destruct defaultValue; [congruence | discriminate].
Qed.

(** *** Decimal spellings *)

Lemma list_ascii_app (a b : string) :
  list_ascii_of_string (a ++ b) = (list_ascii_of_string a ++ list_ascii_of_string b)%list.
Proof. induction a as [| c a IH]; simpl; [reflexivity | now rewrite IH]. Qed.

Lemma uint_digits (d : Decimal.uint) :
  forallb is_digit (list_ascii_of_string (NilEmpty.string_of_uint d)) = true.
Proof. induction d; simpl; auto. Qed.

Lemma uint_value (d : Decimal.uint) (acc : nat) :
  fold_left (fun a c => (10 * a + Z.of_nat (nat_of_ascii c - 48))%Z)
            (list_ascii_of_string (NilEmpty.string_of_uint d)) (Z.of_nat acc)
  = Z.of_nat (Nat.of_uint_acc d acc).
Proof.
  revert acc. induction d; intros acc; cbn [NilEmpty.string_of_uint list_ascii_of_string
                                             fold_left Nat.of_uint_acc];
    [reflexivity | rewrite <- IHd; f_equal; rewrite Nat.tail_mul_spec;
                   cbn [nat_of_ascii]; simpl (Z.of_nat (_ - 48)); lia ..].
Qed.

Lemma string_of_nat_digits (n : nat) :
  let l := list_ascii_of_string (string_of_nat n) in
  forallb is_digit l = true /\ l <> [] /\ digits_value l = Z.of_nat n.
Proof.
  unfold string_of_nat, NilZero.string_of_uint.
  pose proof (Unsigned.of_to n) as Hn. unfold Nat.of_uint in Hn.
  destruct (Nat.to_uint n) as [| d | d | d | d | d | d | d | d | d | d] eqn:Hd;
    cbv zeta.
  1: { simpl in Hn. subst n. repeat split; discriminate. }
  all: split; [apply uint_digits |]; split; [discriminate |];
    unfold digits_value; rewrite <- Hn; exact (uint_value _ 0).
Qed.

Lemma span_digits_app (digits rest : list ascii) :
  forallb is_digit digits = true ->
  match rest with c :: _ => is_digit c = false | [] => True end ->
  span_digits (digits ++ rest) = (digits, rest).
Proof.
  intros Hd Hr. induction digits as [| c digits IH]; simpl.
  - destruct rest as [| c rest]; [reflexivity |]. simpl. now rewrite Hr.
  - cbn [forallb] in Hd. apply andb_prop in Hd. destruct Hd as [Hc Hd].
    now rewrite Hc, (IH Hd).
Qed.

Lemma parseInt_decimal (n : nat) (rest : string) :
  match rest with String c _ => is_digit c = false | EmptyString => True end ->
  parseInt (string_of_nat n ++ rest) = Number_of false (Z.of_nat n).
Proof.
  intros Hrest. unfold parseInt. rewrite list_ascii_app.
  destruct (string_of_nat_digits n) as [Hall [Hne Hval]].
  set (digits := list_ascii_of_string (string_of_nat n)) in *.
  assert (Hspan : span_digits (digits ++ list_ascii_of_string rest)
                  = (digits, list_ascii_of_string rest)).
  { apply span_digits_app; [exact Hall |]. destruct rest; simpl; auto. }
  destruct digits as [| c digits]; [contradiction |].
  pose proof Hall as Hc. cbn [forallb] in Hc. apply andb_prop in Hc. destruct Hc as [Hc _].
  destruct (digit_is_plain c Hc) as [Hws [Hsign _]].
  cbn [app trim_left]. rewrite Hws.
  unfold is_sign in Hsign. apply orb_false_elim in Hsign. destruct Hsign as [Hplus Hminus].
  rewrite Hminus, Hplus. cbn [app] in Hspan. rewrite Hspan. cbn [fst].
  now rewrite Hval.
Qed.

(** Below 2^53 every natural number is a Number. *)
Lemma round_double_safe (v : Z) : (0 <= v < 2 ^ 53)%Z -> round_double v = v.
Proof.
  intros [Hlo Hhi]. unfold round_double.
  assert (Hbits : (Z.log2 v + 1 <= 53)%Z).
  { destruct (Z.eq_dec v 0) as [-> | Hne]; [simpl; lia |].
    assert (Z.log2 v < 53)%Z by (apply Z.log2_lt_pow2; lia). lia. }
  apply Z.leb_le in Hbits. now rewrite Hbits.
Qed.

Lemma Number_of_safe (negative : bool) (v : Z) :
  (0 <= v < 2 ^ 53)%Z ->
  Number_of negative v = Finite (if negative then - v else v).
Proof.
  intros Hv. unfold Number_of. rewrite (round_double_safe v Hv).
  assert (Hfinite : (v < 2 ^ 1024)%Z).
  { apply Z.lt_trans with (2 ^ 53)%Z; [apply Hv |].
    apply Z.pow_lt_mono_r; lia. }
  apply Z.leb_gt in Hfinite. now rewrite Hfinite.
Qed.

(** X20: for a variable set to the decimal spelling of a natural number
    [n], also when other text follows the digits, [getNumericEnv] returns
    the Number nearest to [n], which is [n] itself below 2^53.  It returns
    the default when the variable is unset or empty, which without a
    default is an error only in the unset case, the empty variable giving
    [undefined]; and a variable whose text starts with a letter gives
    [NaN], not the default. *)
Theorem getNumericEnv_reads_decimals (env : Env) (key : string)
        (defaultValue : option Number) :
  (forall n rest,
      env key = Some (string_of_nat n ++ rest) ->
      match rest with String c _ => is_digit c = false | EmptyString => True end ->
      getNumericEnv env key defaultValue = Normal (Some (Number_of false (Z.of_nat n)))
      /\ ((Z.of_nat n < 2 ^ 53)%Z ->
          getNumericEnv env key defaultValue = Normal (Some (Finite (Z.of_nat n)))))
  /\ (env key = None ->
      getNumericEnv env key defaultValue
      = match defaultValue with
        | Some d => Normal (Some d)
        | None => Throw (not_set key)
        end)
  /\ (env key = Some "" -> getNumericEnv env key defaultValue = Normal defaultValue)
  /\ (forall c rest,
        env key = Some (String c rest) ->
        in_range 65 90 c || in_range 97 122 c = true ->
        getNumericEnv env key defaultValue = Normal (Some NaN)).
Proof.
  unfold getNumericEnv. split; [| split; [| split]].
  - intros n rest -> Hrest.
    assert (Ht : truthy (JStr (string_of_nat n ++ rest)) = true).
    { destruct (string_of_nat_digits n) as [_ [Hne _]].
      destruct (string_of_nat n); [now contradiction Hne | reflexivity]. }
    rewrite Ht, (parseInt_decimal n rest Hrest). split; [reflexivity |].
    intros Hsafe. now rewrite Number_of_safe by lia.
  - intros ->. now destruct defaultValue.
  - intros ->. reflexivity.
  - intros c rest -> Hletter. cbn [truthy String.eqb negb]. do 2 f_equal.
    unfold parseInt. cbn [list_ascii_of_string trim_left].
    assert (Hc : is_ws c = false /\ Ascii.eqb c "-"%char = false
                 /\ Ascii.eqb c "+"%char = false /\ is_digit c = false).
    { clear - Hletter.
      destruct c as [[] [] [] [] [] [] [] []]; try discriminate Hletter;
        repeat split; reflexivity. }
    destruct Hc as [Hws [Hm [Hp Hd]]]. rewrite Hws, Hm, Hp.
    cbn [span_digits]. now rewrite Hd.
Qed.

(** Above 2^53 the digits are rounded: [9007199254740993] reads as
    [9007199254740992], and a run of 400 digits as [Infinity]. *)
Example parseInt_rounds :
  parseInt "9007199254740993" = Finite 9007199254740992
  /\ parseInt "-9007199254740995" = Finite (-9007199254740996)
  /\ Number_of false (10 ^ 400) = Infinity false.
Proof. repeat split; vm_compute; reflexivity. Qed.

(** *** Booleans *)

Lemma lower_idempotent (c : ascii) : lower (lower c) = lower c.
Proof. destruct c as [[] [] [] [] [] [] [] []]; reflexivity. Qed.

Lemma toLowerCase_idempotent (s : string) : toLowerCase (toLowerCase s) = toLowerCase s.
Proof.
  induction s as [| c s IH]; simpl; [reflexivity |].
  now rewrite lower_idempotent, IH.
Qed.

(** X21: [getBooleanEnv] is the default only when the variable is unset.
    A set variable is true exactly when its lower-cased value is [true],
    [1] or [yes], so in every capitalisation of these and whatever the
    default is; an empty variable is false even when the default is
    true. *)
Theorem getBooleanEnv_ignores_case (env : Env) (key : string) (defaultValue : bool) :
  (env key = None -> getBooleanEnv env key defaultValue = defaultValue)
  /\ (forall value,
         env key = Some value ->
         (getBooleanEnv env key defaultValue = true
          <-> toLowerCase value = "true" \/ toLowerCase value = "1"
              \/ toLowerCase value = "yes")
         /\ getBooleanEnv env key defaultValue
            = getBooleanEnv (fun _ => Some (toLowerCase value)) key (negb defaultValue))
  /\ (env key = Some "" -> getBooleanEnv env key defaultValue = false).
Proof.
  unfold getBooleanEnv. split; [intros ->; reflexivity |]. split.
  - intros value ->. rewrite toLowerCase_idempotent. split; [| reflexivity].
    cbn [existsb]. rewrite orb_false_r, !orb_true_iff, !String.eqb_eq. tauto.
  - intros ->. reflexivity.
Qed.

End ConfigFacts.

(** ** The sample entity *)

Section EntityFacts.

Import SampleEntity.

Lemma validate_fields (e e' : t) :
  name e' = name e -> description e' = description e ->
  existsb (ServerlessTransport.strict_eq_str (status e')) CreateSampleUseCase.statuses
  = true ->
  validate e = Normal tt -> validate e' = Normal tt.
Proof.
  unfold validate. intros -> -> Hs.
  destruct (empty "name" (name e)) as [[|] |]; cbn [bind]; try discriminate.
  destruct (empty "description" (description e)) as [[|] |]; cbn [bind];
    try discriminate.
  now rewrite Hs.
Qed.

Lemma validate_status (e : t) :
  validate e = Normal tt ->
  existsb (ServerlessTransport.strict_eq_str (status e)) CreateSampleUseCase.statuses
  = true.
Proof.
  unfold validate.
  destruct (empty "name" (name e)) as [[|] |]; cbn [bind]; try discriminate.
  destruct (empty "description" (description e)) as [[|] |]; cbn [bind];
    try discriminate.
  now destruct (existsb _ _).
Qed.

(** X22: validity is an invariant of the entity.  Every instance the
    constructor returns passes [validate]; [activate], [deactivate] and
    [setPending] keep a valid instance valid and change only the status
    and [updatedAt]; and an [update] that completes leaves a valid
    instance. *)
Theorem entity_stays_valid :
  (forall data e, construct data = Normal e -> validate e = Normal tt)
  /\ (forall s now e,
         In s CreateSampleUseCase.statuses ->
         validate e = Normal tt ->
         validate (with_status s now e) = Normal tt
         /\ status (with_status s now e) = JStr s
         /\ updatedAt (with_status s now e) = now
         /\ id (with_status s now e) = id e
         /\ name (with_status s now e) = name e
         /\ description (with_status s now e) = description e
         /\ metadata (with_status s now e) = metadata e
         /\ createdAt (with_status s now e) = createdAt e)
  /\ (forall data now e,
         fst (update data now e) = Normal tt ->
         validate (snd (update data now e)) = Normal tt).
Proof.
  split; [| split].
  - intros data e. unfold construct.
    destruct (get data "id") as [i |]; cbn [bind]; [| discriminate].
    destruct (get data "name") as [n |]; cbn [bind]; [| discriminate].
    destruct (get data "description") as [d |]; cbn [bind]; [| discriminate].
    destruct (get data "status") as [s |]; cbn [bind]; [| discriminate].
    destruct (get data "metadata") as [m |]; cbn [bind]; [| discriminate].
    destruct (get data "createdAt") as [c |]; cbn [bind]; [| discriminate].
    destruct (get data "updatedAt") as [u |]; cbn [bind]; [| discriminate].
    destruct (validate _) as [[] |] eqn:Hv; cbn [bind]; [| discriminate].
    intros Heq. injection Heq as <-. exact Hv.
  - intros s now e Hin Hv. split; [| repeat split].
    apply (validate_fields e); [reflexivity | reflexivity | | exact Hv].
    cbn [with_status status]. apply existsb_exists. exists s.
    split; [exact Hin | apply String.eqb_refl].
  - intros data now e. unfold update.
    destruct (get data "name") as [n |]; cbn [bind]; [| discriminate].
    destruct (get data "description") as [d |]; cbn [bind]; [| discriminate].
    destruct (get data "metadata") as [m |]; cbn [bind]; [| discriminate].
    cbn [fst snd]. auto.
Qed.

(** X23: [toJSON] and the constructor are inverse on valid instances:
    constructing an entity from the serialized form of a valid instance
    gives that instance back. *)
Theorem toJSON_then_construct (e : t) :
  validate e = Normal tt -> construct (toJSON e) = Normal e.
Proof.
  intros Hv. destruct e as [i n d s m c u]. unfold construct, toJSON.
  cbn [get lookup String.eqb Ascii.eqb Bool.eqb from_option bind
       id name description status metadata createdAt updatedAt].
  rewrite Hv. reflexivity.
Qed.

(** X24: [update] writes before it validates.  For data that has
    properties, the instance afterwards holds every field the data
    defines among [name], [description] and [metadata], and the new
    [updatedAt], also when [update] throws; [id], [status] and
    [createdAt] are never touched. *)
Theorem update_writes_before_validating (data now : JsValue) (e : t) :
  nullish data = false ->
  let e' := snd (update data now e) in
  fst (update data now e) = validate e'
  /\ name e' = defined_or (get_opt data "name") (name e)
  /\ description e' = defined_or (get_opt data "description") (description e)
  /\ metadata e' = defined_or (get_opt data "metadata") (metadata e)
  /\ updatedAt e' = now
  /\ id e' = id e /\ status e' = status e /\ createdAt e' = createdAt e.
Proof.
  intros Hn. unfold update. rewrite !(get_defined data) by exact Hn. cbn [bind].
  repeat split.
Qed.

End EntityFacts.

(** X22, run: an entity built and then activated. *)
Lemma entity_stays_valid_witness :
  let data := JObj [("id", JStr "1"); ("name", JStr "n"); ("description", JStr "d");
                    ("status", JStr "pending")] in
  exists e,
    SampleEntity.construct data = Normal e
    /\ SampleEntity.validate (SampleEntity.activate (JNum 5) e) = Normal tt.
Proof.
  intros data. eexists. split; [vm_compute; reflexivity |].
  match goal with
  | |- SampleEntity.validate (SampleEntity.activate _ ?e) = _ =>
      assert (Hc : SampleEntity.construct data = Normal e) by (vm_compute; reflexivity);
      pose proof (proj1 entity_stays_valid data e Hc) as Hv;
      exact (proj1 (proj1 (proj2 entity_stays_valid) "active" (JNum 5) e
                      (or_introl eq_refl) Hv))
  end.
Defined.

(** X23, run. *)
Lemma toJSON_then_construct_witness :
  let e := {| SampleEntity.id := JStr "1"; SampleEntity.name := JStr "n";
              SampleEntity.description := JStr "d"; SampleEntity.status := JStr "active";
              SampleEntity.metadata := JUndefined; SampleEntity.createdAt := JNum 1;
              SampleEntity.updatedAt := JNum 2 |} in
  SampleEntity.validate e = Normal tt
  /\ SampleEntity.construct (SampleEntity.toJSON e) = Normal e.
Proof.
  intros e. split; [reflexivity |]. exact (toJSON_then_construct e eq_refl).
Defined.

(** X24, run: an update that throws and still renames the entity. *)
Lemma update_writes_witness :
  let e := {| SampleEntity.id := JStr "1"; SampleEntity.name := JStr "n";
              SampleEntity.description := JStr "d"; SampleEntity.status := JStr "active";
              SampleEntity.metadata := JUndefined; SampleEntity.createdAt := JNum 1;
              SampleEntity.updatedAt := JNum 2 |} in
  let data := JObj [("name", JStr " ")] in
  nullish data = false
  /\ fst (SampleEntity.update data (JNum 3) e) = Throw (Error "Sample name cannot be empty")
  /\ SampleEntity.name (snd (SampleEntity.update data (JNum 3) e)) = JStr " ".
Proof.
  intros e data. split; [reflexivity |].
  destruct (update_writes_before_validating data (JNum 3) e eq_refl)
    as [Hfst [Hname _]].
  split; [rewrite Hfst; reflexivity | rewrite Hname; reflexivity].
Defined.

(** ** The circuit breaker's failure predicate *)

Section BreakerFacts.

(** X25: the circuit breaker counts an error as a failure according to
    [err.code >= 500] when the error has an own [code], so a numeric code
    counts from 500 on, and never when it has none; asked about an object
    with an own property named [hasOwnProperty] it throws.  The errors
    the repository defines and throws carry no code: not-found and
    validation errors, which the retry predicate retries, never count as
    failures, and neither does the size-limit error of the serverless
    handler. *)
Theorem uncoded_errors_never_trip_the_breaker :
  (forall err,
      shadows_hasOwnProperty err = false ->
      CircuitBreaker.failure_check err
      = if truthy err && HasOwnProperty err "code"
        then counts <- at_least_500 (get_opt err "code") ;; Normal (JBool counts)
        else Normal (JBool false))
  /\ (forall err z,
        truthy err = true -> shadows_hasOwnProperty err = false ->
        HasOwnProperty err "code" = true -> get_opt err "code" = JNum z ->
        CircuitBreaker.failure_check err = Normal (JBool (500 <=? z)%Z))
  /\ (forall err,
        shadows_hasOwnProperty err = true ->
        CircuitBreaker.failure_check err
        = Throw (TypeError "err.hasOwnProperty is not a function"))
  /\ (forall entity ident,
         CircuitBreaker.failure_check (Types.NotFoundError entity ident)
         = Normal (JBool false)
         /\ MoleculerConfig.retryable_check (Types.NotFoundError entity ident)
            = Normal (JBool true))
  /\ (forall message,
         CircuitBreaker.failure_check (Types.ValidationError message)
         = Normal (JBool false)
         /\ MoleculerConfig.retryable_check (Types.ValidationError message)
            = Normal (JBool true))
  /\ (forall cfg size,
         CircuitBreaker.failure_check (ServerlessTransport.size_error cfg size)
         = Normal (JBool false)).
Proof.
  assert (Hform : forall err,
      shadows_hasOwnProperty err = false ->
      CircuitBreaker.failure_check err
      = if truthy err && HasOwnProperty err "code"
        then counts <- at_least_500 (get_opt err "code") ;; Normal (JBool counts)
        else Normal (JBool false)).
  { intros err Hplain. unfold CircuitBreaker.failure_check.
    destruct (truthy err) eqn:Ht; [| reflexivity].
    rewrite (hasOwnProperty_plain err "code" Ht Hplain). cbn [bind truthy andb].
    destruct (HasOwnProperty err "code"); [| reflexivity].
    rewrite (get_defined err) by (now apply truthy_not_nullish). reflexivity. }
  split; [exact Hform |]. split; [| split; [| split; [| split]]].
  - intros err z Ht Hplain Hown Hcode.
    rewrite (Hform err Hplain), Ht, Hown, Hcode. reflexivity.
  - intros err Hshadow. unfold CircuitBreaker.failure_check.
    destruct (hasOwnProperty_shadowed err "code" Hshadow) as [Ht Hcall].
    now rewrite Ht, Hcall.
  - intros entity ident. split; reflexivity.
  - intros message. split; reflexivity.
  - intros cfg size. reflexivity.
Qed.

End BreakerFacts.

(** [code >= 500] on some codes: numbers, the strings that spell them,
    and values that are no numbers. *)
Example codes_at_least_500 :
  map at_least_500
      [ JNum 500; JNum 499; JStr "500"; JStr " 5e2 "; JStr "0x1F4"; JStr "499.9";
        JStr "499.99999999999999"; JStr "ETIMEDOUT"; JStr ""; JNull; JUndefined;
        JArr [JNum 503]; JObj [] ]
  = map Normal [ true; false; true; true; true; false; true; false; false; false; false;
                 true; false ]
  /\ at_least_500 (JObj [("toString", JNum 1)])
     = Throw (TypeError "Cannot convert object to primitive value").
Proof. split; vm_compute; reflexivity. Qed.
